(** * Wiki Migrator 3: note hierarchy resolution and path assignment

    A shallow embedding of the transforms that build the parent graph,
    resolve multi-parent notes through the checklist file, reclassify
    projects and compute output paths, together with the batch validator.

    Python [str] values are embedded as [string], the UTF-8 bytes of the
    text.  Every character the embedded code tests or replaces is ASCII,
    and an ASCII byte never occurs inside a multi-byte UTF-8 sequence, so
    the byte-level definitions agree with the character-level ones;
    [strip], which removes Unicode white space, works on the UTF-8 forms
    of the white-space characters.

    A Python [dict] is embedded as an insertion-ordered association list
    with unique keys ([Dict]); the [metadata] dictionary of a note is
    embedded as the three keys the transforms read and write, an absent
    key being [None].

    The recursive path walk runs on the interpreter stack, whose depth
    is bounded: the functions on that walk take the number of levels
    still free and may raise [RecursionError] ([Py]). *)

From Stdlib Require Import String Ascii List Bool Arith Lia.
From Stdlib Require Import Numbers.DecimalString.
Import ListNotations.
Open Scope string_scope.
Open Scope list_scope.

(** String concatenation, kept apart from list append. *)
Infix "+++" := String.append (right associativity, at level 60).

(* ================================================================== *)
(** ** Python string primitives *)

Module PyStr.

Definition nl : string := String (ascii_of_nat 10) "".

(** [s.startswith(p)] *)
Definition startswith (p s : string) : bool := String.prefix p s.

(** [s[k:]] *)
Fixpoint drop (k : nat) (s : string) : string :=
  match k, s with
  | O, _ => s
  | S _, "" => ""
  | S k', String _ rest => drop k' rest
  end.

Definition mem_ascii (c : ascii) (cs : list ascii) : bool :=
  existsb (Ascii.eqb c) cs.

(** [s.replace(c, d)] for one-character [c] and [d] *)
Fixpoint replace_char (c d : ascii) (s : string) : string :=
  match s with
  | "" => ""
  | String x rest =>
      String (if Ascii.eqb x c then d else x) (replace_char c d rest)
  end.

(** [s.rstrip(chars)] *)
Fixpoint rstrip (chars : list ascii) (s : string) : string :=
  match s with
  | "" => ""
  | String c rest =>
      match rstrip chars rest with
      | "" => if mem_ascii c chars then "" else String c ""
      | r => String c r
      end
  end.

(** The characters [c] with [c.isspace()], each by the code units of its
    UTF-8 form: TAB, LF, VT, FF, CR, FS, GS, RS, US, SPACE, U+0085,
    U+00A0, U+1680, U+2000 to U+200A, U+2028, U+2029, U+202F, U+205F and
    U+3000. *)
Definition whitespace_codes : list (list nat) :=
  [ [9]; [10]; [11]; [12]; [13]; [28]; [29]; [30]; [31]; [32];
    [194; 133]; [194; 160]; [225; 154; 128];
    [226; 128; 128]; [226; 128; 129]; [226; 128; 130]; [226; 128; 131];
    [226; 128; 132]; [226; 128; 133]; [226; 128; 134]; [226; 128; 135];
    [226; 128; 136]; [226; 128; 137]; [226; 128; 138];
    [226; 128; 168]; [226; 128; 169]; [226; 128; 175];
    [226; 129; 159]; [227; 128; 128] ].

Definition whitespace : list string :=
  map (fun codes => string_of_list_ascii (map ascii_of_nat codes))
      whitespace_codes.

(** The string read backwards. *)
Fixpoint rev (s : string) : string :=
  match s with
  | "" => ""
  | String c rest => rev rest +++ String c ""
  end.

(** What follows the first character of [s] when that is one of [seqs]. *)
Definition skip_one (seqs : list string) (s : string) : option string :=
  match find (fun w => String.prefix w s) seqs with
  | Some w => Some (drop (String.length w) s)
  | None => None
  end.

(** [s] without the leading characters among [seqs]; each pass takes one
    character away, so [k] passes are enough for a string of [k] bytes. *)
Fixpoint skip_all (seqs : list string) (k : nat) (s : string) : string :=
  match k with
  | O => s
  | S k' =>
      match skip_one seqs s with
      | Some rest => skip_all seqs k' rest
      | None => s
      end
  end.

(** [s.strip()]: white space goes from both ends.  A UTF-8 form starts
    with a byte that continues no other form, so a form found at the end
    of the text is a character of the text. *)
Definition strip (s : string) : string :=
  let s := skip_all whitespace (String.length s) s in
  rev (skip_all (map rev whitespace) (String.length s) (rev s)).

(** The newline translation of text mode on reading ([newline=None]):
    CR LF and a lone CR both become LF. *)
Fixpoint universal_newlines (s : string) : string :=
  match s with
  | "" => ""
  | String c rest =>
      if Ascii.eqb c (ascii_of_nat 13) then
        match rest with
        | String c' rest' =>
            if Ascii.eqb c' (ascii_of_nat 10)
            then String (ascii_of_nat 10) (universal_newlines rest')
            else String (ascii_of_nat 10) (universal_newlines rest)
        | "" => String (ascii_of_nat 10) ""
        end
      else String c (universal_newlines rest)
  end.

(** [s.split(sep)] for a one-character separator: never empty. *)
Fixpoint split (sep : ascii) (s : string) : list string :=
  match s with
  | "" => [""]
  | String c rest =>
      match split sep rest with
      | [] => [""]
      | cur :: more =>
          if Ascii.eqb c sep then "" :: cur :: more
          else String c cur :: more
      end
  end.

(** [sep.join(parts)] *)
Definition join (sep : string) (parts : list string) : string :=
  String.concat sep parts.

(** [str(n)] for a non-negative integer *)
Definition dec (n : nat) : string :=
  NilEmpty.string_of_uint (Nat.to_uint n).

Definition lower_ascii (c : ascii) : ascii :=
  let n := nat_of_ascii c in
  if Nat.leb 65 n && Nat.leb n 90 then ascii_of_nat (n + 32) else c.

(** [s.lower()], for the comparison with a word of ASCII letters: the
    letters outside ASCII stay as they are here, and none of them has a
    lower case in ASCII but the Kelvin sign, whose lower case is k. *)
Fixpoint lower (s : string) : string :=
  match s with
  | "" => ""
  | String c rest => String (lower_ascii c) (lower rest)
  end.

(** Truth value of a string: [bool(s)] *)
Definition truthy (s : string) : bool := negb (s =? "").

(** [x in xs] for a list (or set) of strings *)
Definition mem (x : string) (xs : list string) : bool :=
  existsb (String.eqb x) xs.

(** [sub in s] for strings *)
Fixpoint contains (sub s : string) : bool :=
  String.prefix sub s
  || match s with
     | "" => false
     | String _ rest => contains sub rest
     end.

(** [s.replace(old, new, 1)] *)
Fixpoint replace_first (old new s : string) : string :=
  if String.prefix old s then new +++ drop (String.length old) s
  else match s with
       | "" => ""
       | String c rest => String c (replace_first old new rest)
       end.

End PyStr.

(* ================================================================== *)
(** ** Text files

    A file is embedded as the text it holds, UTF-8 encoded. *)

Module TextFile.

(** [Path.read_text(encoding="utf-8")]: text mode with universal
    newlines. *)
Definition read_text (data : string) : string :=
  PyStr.universal_newlines data.

(** [Path.write_text(text, encoding="utf-8")]: what the file holds
    afterwards.  Text mode writes [os.linesep] for every line feed, which
    is the line feed itself on the POSIX systems embedded here. *)
Definition write_text (text : string) : string := text.

End TextFile.

(* ================================================================== *)
(** ** The interpreter stack

    The interpreter keeps count of the calls in progress and raises
    [RecursionError] when a call would take the count past
    [sys.getrecursionlimit()]; no script changes that limit.  A call of a
    Python function counts for as long as it runs, and so does a call of
    a built-in method, as CPython 3.11 counts them when it runs a
    function for the first times (an interpreter that leaves built-in
    methods out of the count gets by with one level less).

    The functions that walk up the parent links, and those that call
    them, take the number of levels still free.  The count is followed
    along the walk; the other calls of the scripts go to a fixed depth of
    a few levels. *)

Module Py.

Inductive result (A : Type) : Type :=
| Ok (a : A)
| RecursionError.

Arguments Ok {A} a.
Arguments RecursionError {A}.

Definition bind {A B : Type} (r : result A) (f : A -> result B)
  : result B :=
  match r with
  | Ok a => f a
  | RecursionError => RecursionError
  end.

Definition map {A B : Type} (f : A -> B) (r : result A) : result B :=
  bind r (fun a => Ok (f a)).

(** The value a call returned, [default] standing in when it raised. *)
Definition value {A : Type} (default : A) (r : result A) : A :=
  match r with
  | Ok a => a
  | RecursionError => default
  end.

(** A call, with [frames] levels free, of a built-in method that
    returns [v]. *)
Definition builtin {A : Type} (frames : nat) (v : A) : result A :=
  match frames with
  | O => RecursionError
  | S _ => Ok v
  end.

(** A call, with [frames] levels free, of a Python function that calls
    built-in methods only and returns [v]: one level for the function,
    one more for the method it has called. *)
Definition call {A : Type} (frames : nat) (v : A) : result A :=
  match frames with
  | O => RecursionError
  | S frames' => builtin frames' v
  end.

(** A [for] loop whose body may raise: the first exception ends it. *)
Fixpoint for_each {A B : Type} (body : A -> result B) (xs : list A)
  : result (list B) :=
  match xs with
  | [] => Ok []
  | x :: rest =>
      bind (body x) (fun y =>
      bind (for_each body rest) (fun ys => Ok (y :: ys)))
  end.

(** [sys.getrecursionlimit()] of an interpreter that was never told
    otherwise: more levels than any call site has free. *)
Definition default_recursion_limit : nat := 1000.

End Py.

(* ================================================================== *)
(** ** Insertion-ordered dictionaries with string keys *)

Module Dict.

Definition t (V : Type) : Type := list (string * V).

Definition empty {V} : t V := [].

(** [d.get(k)] *)
Fixpoint get {V} (d : t V) (k : string) : option V :=
  match d with
  | [] => None
  | (k', v) :: rest => if k' =? k then Some v else get rest k
  end.

(** [k in d] *)
Definition contains {V} (d : t V) (k : string) : bool :=
  match get d k with Some _ => true | None => false end.

(** [d[k] = v]: an existing key keeps its position, a new key goes last. *)
Fixpoint set {V} (d : t V) (k : string) (v : V) : t V :=
  match d with
  | [] => [(k, v)]
  | (k', v') :: rest =>
      if k' =? k then (k', v) :: rest else (k', v') :: set rest k v
  end.

Definition keys {V} (d : t V) : list string := map fst d.

Definition values {V} (d : t V) : list V := map snd d.

End Dict.

(* ================================================================== *)
(** ** lib/models.py *)

Inductive ParentType : Type :=
| para_folder_t   (* "type": "para_folder" *)
| note_t.         (* "type": "note" *)

(** An entry of [metadata["parents"]]; script 2 writes no ["type"] key. *)
Record Parent : Type := mkParent {
  p_id : string;
  p_title : string;
  p_type : option ParentType
}.

Record Task : Type := mkTask {
  t_id : string;
  t_content : string
}.

Record Note : Type := mkNote {
  id : string;
  title : string;
  content : string;
  path : string;
  tags : list string;
  tasks : list Task;
  (* metadata *)
  para_folder : option string;
  parents : option (list Parent);
  output_path : option string
}.

Definition set_para_folder (n : Note) (v : option string) : Note :=
  mkNote (id n) (title n) (content n) (path n) (tags n) (tasks n)
         v (parents n) (output_path n).

Definition set_parents (n : Note) (v : option (list Parent)) : Note :=
  mkNote (id n) (title n) (content n) (path n) (tags n) (tasks n)
         (para_folder n) v (output_path n).

Definition set_output_path (n : Note) (v : option string) : Note :=
  mkNote (id n) (title n) (content n) (path n) (tags n) (tasks n)
         (para_folder n) (parents n) v.

(** [note.metadata.get("parents", [])] *)
Definition get_parents (n : Note) : list Parent :=
  match parents n with Some ps => ps | None => [] end.

(* ================================================================== *)
(** ** lib/validators.py *)

Module Validators.

(** The messages, as the f-strings build them. *)
Definition note_prefix (i : nat) : string := "Note[" +++ PyStr.dec i +++ "]".

Definition missing_id (prefix : string) : string :=
  prefix +++ ": Missing id".

Definition duplicate_id (prefix nid : string) : string :=
  prefix +++ ": Duplicate id '" +++ nid +++ "'".

Definition missing_title (prefix nid : string) : string :=
  prefix +++ " (" +++ nid +++ "): Missing title".

Definition missing_path (prefix nid : string) : string :=
  prefix +++ " (" +++ nid +++ "): Missing path".

Definition duplicate_path (prefix nid p : string) : string :=
  prefix +++ " (" +++ nid +++ "): Duplicate path '" +++ p +++ "'".

Definition task_missing_id (prefix nid : string) (j : nat) : string :=
  prefix +++ " (" +++ nid +++ "): Task[" +++ PyStr.dec j +++ "] missing id".

Definition task_missing_content (prefix nid : string) (j : nat) : string :=
  prefix +++ " (" +++ nid +++ "): Task[" +++ PyStr.dec j
    +++ "] missing content".

(** The inner loop over [enumerate(note.tasks)], from index [j] on. *)
Fixpoint task_errors (prefix nid : string) (j : nat) (ts : list Task)
  : list string :=
  match ts with
  | [] => []
  | task :: rest =>
      (if negb (PyStr.truthy (t_id task))
       then [task_missing_id prefix nid j] else [])
      ++ (if negb (PyStr.truthy (t_content task))
          then [task_missing_content prefix nid j] else [])
      ++ task_errors prefix nid (S j) rest
  end.

(** Body of the loop over [enumerate(notes)]: what it appends to
    [errors], and [seen_ids] and [seen_paths] afterwards. *)
Definition check_note (i : nat) (seen_ids seen_paths : list string)
    (note : Note) : list string * list string * list string :=
  let prefix := note_prefix i in
  let '(e_id, seen_ids') :=
    if negb (PyStr.truthy (id note)) then ([missing_id prefix], seen_ids)
    else if PyStr.mem (id note) seen_ids then
      ([duplicate_id prefix (id note)], seen_ids)
    else ([], id note :: seen_ids) in
  let e_title :=
    if negb (PyStr.truthy (title note))
    then [missing_title prefix (id note)] else [] in
  let '(e_path, seen_paths') :=
    if negb (PyStr.truthy (path note)) then
      ([missing_path prefix (id note)], seen_paths)
    else if PyStr.mem (path note) seen_paths then
      ([duplicate_path prefix (id note) (path note)], seen_paths)
    else ([], path note :: seen_paths) in
  (e_id ++ e_title ++ e_path
     ++ task_errors prefix (id note) 0 (tasks note),
   seen_ids', seen_paths').

Fixpoint validate_loop (i : nat) (seen_ids seen_paths : list string)
    (notes : list Note) : list string :=
  match notes with
  | [] => []
  | note :: rest =>
      let '(errs, seen_ids', seen_paths') :=
        check_note i seen_ids seen_paths note in
      errs ++ validate_loop (S i) seen_ids' seen_paths' rest
  end.

Definition validate_notes (notes : list Note) : list string :=
  validate_loop 0 [] [] notes.

End Validators.

(* ================================================================== *)
(** ** transforms/4_assign_para_folder.py *)

Module AssignParaFolder.

Definition PARA_TAGS : Dict.t string :=
  [("Project", "Projects"); ("Area", "Areas"); ("ResourceTopic", "Resources")].

Definition FALLBACK_FOLDER : string := "Archive".

(** The loop of [assign_para_folder] over [PARA_TAGS.items()], leaving at
    the first tag found among the note's tags. *)
Fixpoint first_para_tag (items : Dict.t string) (note : Note) : string :=
  match items with
  | [] => FALLBACK_FOLDER
  | (tag, folder) :: rest =>
      if PyStr.mem tag (tags note) then folder else first_para_tag rest note
  end.

Definition assign_para_folder (note : Note) : string :=
  first_para_tag PARA_TAGS note.

Definition transform (notes : list Note) : list Note :=
  map (fun note => set_para_folder note (Some (assign_para_folder note))) notes.

End AssignParaFolder.

(* ================================================================== *)
(** ** transforms/2_identify_parents.py *)

Module IdentifyParents.

(** [{note.title: note for note in notes}]: the last note of a title wins.
    The index holds the notes as they are before the loop; the loop reads
    only their [id] and [title], which it never writes. *)
Definition build_title_index (notes : list Note) : Dict.t Note :=
  fold_left (fun d note => Dict.set d (title note) note) notes Dict.empty.

(** The loop over [note.tags]. *)
Definition tag_parents (title_index : Dict.t Note) (note : Note)
  : list Parent :=
  fold_left
    (fun parents tag =>
       match Dict.get title_index tag with
       | Some parent_note =>
           parents ++ [mkParent (id parent_note) (title parent_note) None]
       | None => parents
       end)
    (tags note) [].

Definition store_parents (note : Note) (ps : list Parent) : Note :=
  match ps with
  | [] => note
  | _ :: _ => set_parents note (Some ps)
  end.

Definition identify_parents (notes : list Note) : list Note :=
  let title_index := build_title_index notes in
  map (fun note => store_parents note (tag_parents title_index note)) notes.

End IdentifyParents.

(* ================================================================== *)
(** ** transforms/5_identify_para_parents.py *)

Module IdentifyParaParents.

Definition build_title_index := IdentifyParents.build_title_index.

(** The PARA folder entry that opens [parents], with [parent_ids]. *)
Definition para_entry (note : Note) : list Parent * list string :=
  match para_folder note with
  | Some pf =>
      if PyStr.truthy pf then ([mkParent pf pf (Some para_folder_t)], [pf])
      else ([], [])
  | None => ([], [])
  end.

(** One pass of the loop over [note.tags]. *)
Definition tag_step (title_index : Dict.t Note)
    (acc : list Parent * list string) (tag : string)
  : list Parent * list string :=
  let '(parents, parent_ids) := acc in
  match Dict.get title_index tag with
  | Some parent_note =>
      if PyStr.mem (title parent_note) parent_ids then acc
      else (parents ++ [mkParent (id parent_note) (title parent_note)
                                 (Some note_t)],
            title parent_note :: parent_ids)
  | None => acc
  end.

Definition note_parents (title_index : Dict.t Note) (note : Note)
  : list Parent :=
  fst (fold_left (tag_step title_index) (tags note) (para_entry note)).

Definition identify_parents_with_para (notes : list Note) : list Note :=
  let title_index := build_title_index notes in
  map (fun note =>
         IdentifyParents.store_parents note (note_parents title_index note))
      notes.

End IdentifyParaParents.

(* ================================================================== *)
(** ** transforms/K_strip_archive_from_multi.py *)

Module StripArchive.

Definition strip_note (note : Note) : Note :=
  let parents := get_parents note in
  if Nat.leb (List.length parents) 1 then note
  else
    let has_archive := existsb (fun p => p_title p =? "Archive") parents in
    if has_archive then
      set_parents note
        (Some (filter (fun p => negb (p_title p =? "Archive")) parents))
    else note.

Definition strip_archive_from_multi (notes : list Note) : list Note :=
  map strip_note notes.

End StripArchive.

(* ================================================================== *)
(** ** transforms/P_assign_full_paths.py *)

Module AssignFullPaths.

(** The characters of [invalid_chars], in order; code 34 is the double
    quote. *)
Definition invalid_chars : list ascii :=
  list_ascii_of_string "<>:" ++ [ascii_of_nat 34]
    ++ list_ascii_of_string "/\|?*".

Definition sanitize_folder_name (name : string) : string :=
  let name :=
    fold_left (fun name char => PyStr.replace_char char "_"%char name)
              invalid_chars name in
  let name := PyStr.rstrip ["."%char; " "%char] name in
  if PyStr.truthy name then name else "untitled".

(** Title of the first parent, or [None]. *)
Definition first_parent (note : Note) : option string :=
  match get_parents note with
  | [] => None
  | p :: _ => Some (p_title p)
  end.

Definition build_parent_tree (notes : list Note) : Dict.t (option string) :=
  fold_left (fun parent_map note =>
               Dict.set parent_map (title note) (first_parent note))
            notes Dict.empty.

(** [{n.title: n.metadata.get("para_folder") for n in notes}] *)
Definition build_para_map (notes : list Note) : Dict.t (option string) :=
  fold_left (fun para_map n => Dict.set para_map (title n) (para_folder n))
            notes Dict.empty.

(** [d.get(k)] where the stored value may itself be [None]. *)
Definition get_flat (d : Dict.t (option string)) (k : string)
  : option string :=
  match Dict.get d k with
  | Some v => v
  | None => None
  end.

Definition PARA_FOLDERS : list string :=
  ["Projects"; "Areas"; "Resources"; "Archive"].

(** [get_full_path], called with [frames] levels free; [visited] is the
    per-call set, empty for [visited=None].  The call takes a level;
    within it [visited.add] (like the other built-in methods after it)
    takes one while it runs, and each call of [sanitize_folder_name] and
    each recursive call starts from the levels left. *)
Fixpoint get_full_path (frames : nat) (note_title : string)
    (parent_map para_map : Dict.t (option string)) (visited : list string)
  : Py.result string :=
  match frames with
  | O => Py.RecursionError
  | S frames =>
      if PyStr.mem note_title visited then
        Py.call frames (sanitize_folder_name note_title)
      else
        Py.bind (Py.builtin frames (note_title :: visited))
          (fun visited =>
             match get_flat parent_map note_title with
             | None =>
                 match get_flat para_map note_title with
                 | Some para_folder =>
                     if PyStr.truthy para_folder
                     then Py.call frames (sanitize_folder_name para_folder)
                     else Py.Ok "."
                 | None => Py.Ok "."
                 end
             | Some parent_title =>
                 if PyStr.mem parent_title PARA_FOLDERS then
                   Py.call frames (sanitize_folder_name parent_title)
                 else
                   Py.bind (get_full_path frames parent_title parent_map
                                          para_map visited)
                     (fun parent_path =>
                        if parent_path =? "." then
                          Py.call frames (sanitize_folder_name parent_title)
                        else
                          Py.bind
                            (Py.call frames
                                     (sanitize_folder_name parent_title))
                            (fun segment =>
                               Py.Ok (parent_path +++ "/" +++ segment)))
             end)
  end.

(** [assign_full_paths], with [frames] levels free in its body.  It
    calls [build_parent_tree], runs the comprehension of [para_map] (a
    function of its own to the interpreter) and walks from every note;
    an exception leaves the loop and the function.  Outside the walks
    its calls go two levels deep, [print] calling [write]; the two calls
    that build the maps stand for that. *)
Definition assign_full_paths (frames : nat) (notes : list Note)
  : Py.result (list Note) :=
  Py.bind (Py.call frames (build_parent_tree notes)) (fun parent_map =>
  Py.bind (Py.call frames (build_para_map notes)) (fun para_map =>
  Py.for_each
    (fun note =>
       Py.bind (get_full_path frames (title note) parent_map para_map [])
               (fun full_path =>
                  Py.Ok (set_output_path note (Some full_path))))
    notes)).

End AssignFullPaths.

(* ================================================================== *)
(** ** transforms/U_assign_paths_with_ordinals.py *)

Module OrdinalPaths.

Definition PARA_ORDINALS : Dict.t string :=
  [("Projects", "1 Projects"); ("Areas", "2 Areas");
   ("Resources", "3 Resources"); ("Archive", "4 Archive")].

(** The set [PARA_FOLDERS], as the list of its members. *)
Definition PARA_FOLDERS : list string :=
  ["Projects"; "Areas"; "Resources"; "Archive"].

(** The text of [sanitize_folder_name] and of [build_parent_tree] is that
    of script P, and [get_full_path_for_parent] is [get_full_path] of
    script P with the set [PARA_FOLDERS] in place of the tuple. *)
Definition sanitize_folder_name := AssignFullPaths.sanitize_folder_name.
Definition build_parent_tree := AssignFullPaths.build_parent_tree.
Definition get_full_path_for_parent := AssignFullPaths.get_full_path.

(** [get_ordinal_path]; [split] never returns the empty list, on which
    [parts[0]] would raise. *)
Definition get_ordinal_path (path : string) : string :=
  if negb (PyStr.truthy path) || (path =? ".") then path
  else
    match PyStr.split "/"%char path with
    | [] => path
    | first :: rest =>
        match Dict.get PARA_ORDINALS first with
        | Some ordinal => PyStr.join "/" (ordinal :: rest)
        | None => PyStr.join "/" (first :: rest)
        end
    end.

(** Titles of the notes that occur among [parent_map.values()]. *)
Definition find_all_parents (notes : list Note)
    (parent_map : Dict.t (option string)) : list string :=
  map title
      (filter (fun note =>
                 existsb (fun v => match v with
                                   | Some t => t =? title note
                                   | None => false
                                   end)
                         (Dict.values parent_map))
              notes).

(** [step1_assign_parent_paths], with [frames] levels free in its body:
    it calls [build_parent_tree], runs the comprehension of [para_map]
    and walks from every note that is a parent; outside the walks its
    calls go two levels deep, as in script P. *)
Definition step1_assign_parent_paths (frames : nat) (notes : list Note)
  : Py.result (list Note * list string) :=
  Py.bind (Py.call frames (build_parent_tree notes)) (fun parent_map =>
  Py.bind (Py.call frames (AssignFullPaths.build_para_map notes))
    (fun para_map =>
  let all_parents := find_all_parents notes parent_map in
  Py.bind
    (Py.for_each
       (fun note =>
          if PyStr.mem (title note) all_parents then
            Py.bind
              (get_full_path_for_parent frames (title note) parent_map
                                        para_map [])
              (fun full_path =>
                 Py.Ok (set_output_path note (Some full_path)))
          else Py.Ok note)
       notes)
    (fun notes => Py.Ok (notes, all_parents)))).

(** Body of the loop of [step2_apply_project_reorganization]. *)
Definition step2_note (note : Note) : Note :=
  if negb (PyStr.mem "Project" (tags note)) then note
  else
    let current_path :=
      match output_path note with Some p => p | None => "" end in
    if negb (current_path =? "Projects") then note
    else if PyStr.mem "Parked" (tags note) then
      set_para_folder (set_output_path note (Some "Projects/z_Parked"))
                      (Some "Projects")
    else if PyStr.mem "Done" (tags note) then
      set_para_folder (set_output_path note (Some "Archive"))
                      (Some "Archive")
    else note.

Definition step2_apply_project_reorganization (notes : list Note)
  : list Note :=
  map step2_note notes.

(** The fallback of step 3: the PARA folder of the note, or the root. *)
Definition para_or_root (note : Note) : Note :=
  match para_folder note with
  | Some para =>
      if PyStr.truthy para
      then set_output_path note (Some (sanitize_folder_name para))
      else set_output_path note (Some ".")
  | None => set_output_path note (Some ".")
  end.

(** Body of the loop of [step3_assign_leaf_paths]; [current] is the list
    of notes as the loop has left it so far, in which the parent note is
    looked up. *)
Definition step3_note (all_parents : list string) (current : list Note)
    (note : Note) : Note :=
  if PyStr.mem (title note) all_parents then note
  else
    match get_parents note with
    | [] => para_or_root note
    | p :: _ =>
        let parent_title := p_title p in
        if PyStr.mem parent_title PARA_FOLDERS then
          set_output_path note (Some (sanitize_folder_name parent_title))
        else
          match find (fun n => title n =? parent_title) current with
          | Some parent_note =>
              match output_path parent_note with
              | Some parent_path =>
                  if PyStr.truthy parent_path then
                    set_output_path note
                      (Some (parent_path +++ "/"
                               +++ sanitize_folder_name parent_title))
                  else para_or_root note
              | None => para_or_root note
              end
          | None => para_or_root note
          end
    end.

(** The loop of step 3 writes the notes in place: [done] holds the notes
    already passed, [todo] those still to come. *)
Fixpoint step3_loop (all_parents : list string) (done todo : list Note)
  : list Note :=
  match todo with
  | [] => done
  | note :: rest =>
      step3_loop all_parents
        (done ++ [step3_note all_parents (done ++ todo) note]) rest
  end.

Definition step3_assign_leaf_paths (notes : list Note)
    (all_parents : list string) : list Note :=
  step3_loop all_parents [] notes.

(** Body of the loop of [step4_apply_ordinals]. *)
Definition step4_note (note : Note) : Note :=
  let path := match output_path note with Some p => p | None => "." end in
  if negb (path =? ".") then
    let new_path := get_ordinal_path path in
    if negb (new_path =? path) then set_output_path note (Some new_path)
    else note
  else note.

Definition step4_apply_ordinals (notes : list Note) : list Note :=
  map step4_note notes.

(** [transform], with [frames] levels free in the body of step 1.  Only
    step 1 walks up the parent links.  Steps 2 to 4 run one level higher
    and nest their calls four deep at most (step 3 looks the parent note
    up through [next] and a generator), whatever the batch: there is
    taken to be room for them, for which three free levels are enough. *)
Definition transform (frames : nat) (notes : list Note)
  : Py.result (list Note) :=
  Py.bind (step1_assign_parent_paths frames notes)
    (fun '(notes, all_parents) =>
       let notes := step2_apply_project_reorganization notes in
       let notes := step3_assign_leaf_paths notes all_parents in
       Py.Ok (step4_apply_ordinals notes)).

End OrdinalPaths.

(* ================================================================== *)
(** ** transforms/0B_fix_parked_leaves.py and 0C_fix_done_leaves.py

    The two scripts that the pipeline runs after script U under the ids
    0A and 0B. *)

Module FixLeaves.

(** The set [referenced_parents]: the titles of all parents of all notes. *)
Definition referenced_parents (notes : list Note) : list string :=
  flat_map (fun note => map p_title (get_parents note)) notes.

(** Body of the loop of [fix_parked_leaves]. *)
Definition fix_parked_note (referenced : list string) (note : Note) : Note :=
  if negb (PyStr.mem "Parked" (tags note))
     || negb (PyStr.mem "Project" (tags note)) then note
  else if PyStr.mem (title note) referenced then note
  else
    let current_path :=
      match output_path note with Some p => p | None => "" end in
    if PyStr.contains "z_Parked" current_path then note
    else if PyStr.contains "Projects" current_path then
      set_output_path note
        (Some (PyStr.replace_first "Projects" "Projects/z_Parked"
                                   current_path))
    else note.

Definition fix_parked_leaves (notes : list Note) : list Note :=
  map (fix_parked_note (referenced_parents notes)) notes.

(** Body of the loop of [fix_done_leaves]. *)
Definition fix_done_note (referenced : list string) (note : Note) : Note :=
  if negb (PyStr.mem "Done" (tags note))
     || negb (PyStr.mem "Project" (tags note)) then note
  else if PyStr.mem (title note) referenced then note
  else
    let current_path :=
      match output_path note with Some p => p | None => "" end in
    if PyStr.contains "Archive" current_path then note
    else if PyStr.contains "Projects" current_path then
      set_para_folder (set_output_path note (Some "4 Archive"))
                      (Some "Archive")
    else note.

Definition fix_done_leaves (notes : list Note) : list Note :=
  map (fix_done_note (referenced_parents notes)) notes.

End FixLeaves.

(* ================================================================== *)
(** ** transforms/I_resolve_multi_parents.py *)

Module ResolveI.

(** One pass of the loop of [parse_resolution_file].  The test reads
    [current_note and x or X]: the second prefix is tried whatever
    [current_note] is, and [current_note in selections] is false while
    [current_note] is [None]. *)
Definition parse_line (st : Dict.t (list string) * option string)
    (line : string) : Dict.t (list string) * option string :=
  let '(selections, current_note) := st in
  if PyStr.startswith "## " line && PyStr.truthy (PyStr.drop 3 line) then
    (Dict.set selections (PyStr.drop 3 line) [], Some (PyStr.drop 3 line))
  else
    let noted :=
      match current_note with Some cn => PyStr.truthy cn | None => false end in
    if (noted && PyStr.startswith "- [x] " line)
       || PyStr.startswith "- [X] " line
    then
      let parent_title := PyStr.strip (PyStr.drop 6 line) in
      match current_note with
      | Some cn =>
          match Dict.get selections cn with
          | Some chosen =>
              (Dict.set selections cn (chosen ++ [parent_title]),
               current_note)
          | None => st
          end
      | None => st
      end
    else st.

(** The conversion to one selection per note, [None] for none or several. *)
Definition single_selection (acc : Dict.t (option string))
    (item : string * list string) : Dict.t (option string) :=
  let '(note_title, parents) := item in
  match parents with
  | [p] => Dict.set acc note_title (Some p)
  | _ => Dict.set acc note_title None
  end.

Definition parse_resolution_file (file : option string)
  : Dict.t (option string) :=
  match file with
  | None => Dict.empty
  | Some data =>
      let content := TextFile.read_text data in
      let selections :=
        fst (fold_left parse_line (PyStr.split (ascii_of_nat 10) content)
                       (Dict.empty, None)) in
      fold_left single_selection selections Dict.empty
  end.

(** [apply_selections]: [selections] maps a note title to its single
    selection, or to [None] when the section had none or several.
    Returns the notes and the titles with an invalid selection. *)
Fixpoint apply_selections (notes : list Note)
    (selections : Dict.t (option string)) : list Note * list string :=
  match notes with
  | [] => ([], [])
  | note :: rest =>
      let '(rest', invalid_notes) := apply_selections rest selections in
      match Dict.get selections (title note) with
      | None => (note :: rest', invalid_notes)
      | Some None => (note :: rest', title note :: invalid_notes)
      | Some (Some selected_parent) =>
          let new_parents :=
            filter (fun p => p_title p =? selected_parent)
                   (get_parents note) in
          if Nat.eqb (List.length new_parents) 1 then
            (set_parents note (Some new_parents) :: rest', invalid_notes)
          else (note :: rest', title note :: invalid_notes)
      end
  end.

End ResolveI.

(* ================================================================== *)
(** ** transforms/J_resolve_multi_parents.py

    The checklist file [RESOLUTION_FILE] is the only state outside the
    batch: [None] when the file does not exist, otherwise what it holds. *)

Module ResolveJ.

Definition SCRIPT_ID : string := "I2".
Definition SCRIPT_NAME : string := "resolve_multi_parents".

Definition get_multi_parent_notes (notes : list Note) : list Note :=
  filter (fun n => Nat.ltb 1 (List.length (get_parents n))) notes.

(** One unchecked line per parent of the note. *)
Definition option_lines (note : Note) : list string :=
  map (fun parent => "- [ ] " +++ p_title parent) (get_parents note).

Definition run_line : string :=
  "3. Run: python transforms/" +++ SCRIPT_ID +++ "_" +++ SCRIPT_NAME
    +++ ".py <input_folder>".

(** What [generate_resolution_file] leaves in the checklist file. *)
Definition generate_resolution_file (notes : list Note) : string :=
  let multi_notes := get_multi_parent_notes notes in
  let lines :=
    [ "# Resolve Multi-Parent Notes";
      "";
      "**" +++ PyStr.dec (List.length multi_notes)
        +++ " notes have multiple parents.**";
      "";
      "For each note below, select **EXACTLY ONE** parent by checking its checkbox.";
      "All unselected parents will be removed.";
      "";
      "---";
      "" ] in
  let lines :=
    lines ++ flat_map
      (fun note =>
         ["## " +++ title note; ""; "Select ONE parent:"; ""]
           ++ option_lines note ++ [""])
      multi_notes in
  let lines :=
    lines ++
    [ "---";
      "";
      "## Instructions";
      "";
      "1. Check exactly ONE checkbox per note above";
      "2. Save this file";
      run_line;
      "";
      "Repeat until all notes are resolved!" ] in
  TextFile.write_text (PyStr.join PyStr.nl lines).

(** [re.match(r"^## (.+)$", line)] on a line without line feed: the
    captured group, when the line is the marker and at least one more
    character. *)
Definition note_match (line : string) : option string :=
  if PyStr.startswith "## " line && PyStr.truthy (PyStr.drop 3 line)
  then Some (PyStr.drop 3 line) else None.

(** One pass of the loop over the lines; the state is [selections] and
    [current_note]. *)
Definition parse_line (st : Dict.t (list string) * option string)
    (line : string) : Dict.t (list string) * option string :=
  let '(selections, current_note) := st in
  match note_match line with
  | Some g => (Dict.set selections g [], Some g)
  | None =>
      match current_note with
      | Some cn =>
          if PyStr.truthy cn
             && (PyStr.startswith "- [x] " line
                 || PyStr.startswith "- [X] " line)
          then
            let parent_title := PyStr.strip (PyStr.drop 6 line) in
            match Dict.get selections cn with
            | Some chosen =>
                (Dict.set selections cn (chosen ++ [parent_title]),
                 current_note)
            | None => st
            end
          else st
      | None => st
      end
  end.

(** The lines the loop passes over: [content.split("\n")] of the text
    read from a file that holds [data]. *)
Definition read_lines (data : string) : list string :=
  PyStr.split (ascii_of_nat 10) (TextFile.read_text data).

(** [parse_resolution_file] on an existing file that holds [data]. *)
Definition parse_text (data : string) : Dict.t (list string) :=
  fst (fold_left parse_line (read_lines data) (Dict.empty, None)).

Definition parse_resolution_file (file : option string)
  : Dict.t (list string) :=
  match file with
  | None => Dict.empty
  | Some data => parse_text data
  end.

(** One pass of the loop of [categorize_selections]. *)
Definition categorize_step (acc : Dict.t string * list string)
    (item : string * list string) : Dict.t string * list string :=
  let '(complete, incomplete) := acc in
  let '(note_title, parents) := item in
  match parents with
  | [p] => (Dict.set complete note_title p, incomplete)
  | _ => (complete, incomplete ++ [note_title])
  end.

Definition categorize_selections (selections : Dict.t (list string))
  : Dict.t string * list string :=
  fold_left categorize_step selections (Dict.empty, []).

Definition get_note_by_title (notes : list Note) (t : string)
  : option Note :=
  find (fun note => title note =? t) notes.

(** The arrow of the summary lines, U+2192, as UTF-8. *)
Definition arrow : string :=
  String (ascii_of_nat 226) (String (ascii_of_nat 134)
    (String (ascii_of_nat 146) "")).

(** What [rewrite_resolution_file] leaves in the checklist file. *)
Definition rewrite_resolution_file (notes : list Note)
    (complete : Dict.t string) (incomplete : list string) : string :=
  let lines :=
    [ "# Resolve Multi-Parent Notes";
      "";
      "**" +++ PyStr.dec (List.length incomplete)
        +++ " notes still need a parent selected.**";
      "**" +++ PyStr.dec (List.length complete)
        +++ " notes are complete.**";
      "";
      "For each incomplete note below, select **EXACTLY ONE** parent.";
      "";
      "---";
      "";
      "## INCOMPLETE - Needs Work";
      "" ] in
  let lines :=
    lines ++ flat_map
      (fun note_title =>
         match get_note_by_title notes note_title with
         | None => []
         | Some note =>
             ["### " +++ note_title; ""; "Select ONE parent:"; ""]
               ++ option_lines note ++ [""]
         end)
      incomplete in
  let lines :=
    lines ++
    [ "---";
      "";
      "## COMPLETE - Already Selected";
      "";
      "These notes already have exactly one parent selected:";
      "" ] in
  let lines :=
    lines ++ map
      (fun '(note_title, selected_parent) =>
         "- **" +++ note_title +++ "** " +++ arrow +++ " "
           +++ selected_parent)
      complete in
  let lines :=
    lines ++
    [ "";
      "---";
      "";
      "## Instructions";
      "";
      "1. Check exactly ONE checkbox for each INCOMPLETE note above";
      "2. Save this file";
      run_line;
      "";
      "Repeat until all notes are resolved!" ] in
  TextFile.write_text (PyStr.join PyStr.nl lines).

Definition apply_note (selections : Dict.t string) (note : Note) : Note :=
  match Dict.get selections (title note) with
  | None => note
  | Some selected_parent =>
      set_parents note
        (Some (filter (fun p => p_title p =? selected_parent)
                      (get_parents note)))
  end.

Definition apply_selections (notes : list Note) (selections : Dict.t string)
  : list Note :=
  map (apply_note selections) notes.

(** [transform]: the notes it returns and the checklist file it leaves. *)
Definition transform (notes : list Note) (file : option string)
  : list Note * option string :=
  match file with
  | None =>
      let multi_count := List.length (get_multi_parent_notes notes) in
      if Nat.eqb multi_count 0 then (notes, None)
      else (notes, Some (generate_resolution_file notes))
  | Some _ =>
      let selections := parse_resolution_file file in
      let '(complete, incomplete) := categorize_selections selections in
      match incomplete with
      | [] => (apply_selections notes complete, None)
      | _ :: _ =>
          (notes, Some (rewrite_resolution_file notes complete incomplete))
      end
  end.

(** How a run of [main] ends: the batch handed to [save_output], or
    [sys.exit] with nothing saved. *)
Inductive Outcome : Type :=
| saved (batch : list Note)
| exited (code : nat).

(** [main] from the loaded batch on; [response] is the answer given at
    the prompt, read only when validation reports errors. *)
Definition main (notes : list Note) (file : option string)
    (response : string) : Outcome * option string :=
  let '(notes, file) := transform notes file in
  match file with
  | Some _ => (exited 0, file)
  | None =>
      match Validators.validate_notes notes with
      | [] => (saved notes, file)
      | _ :: _ =>
          if negb (PyStr.lower response =? "y") then (exited 1, file)
          else (saved notes, file)
      end
  end.

End ResolveJ.

(* ================================================================== *)
(** ** The person who edits the checklist

    One round of the resolution protocol: in every section of the
    checklist the first unchecked box is checked, then the resolver runs
    again.  A section starts at a header of level two or three. *)

Module Editor.

Fixpoint check_lines (pending : bool) (lines : list string) : list string :=
  match lines with
  | [] => []
  | line :: rest =>
      if PyStr.startswith "## " line || PyStr.startswith "### " line then
        line :: check_lines true rest
      else if pending && PyStr.startswith "- [ ] " line then
        ("- [x] " +++ PyStr.drop 6 line) :: check_lines false rest
      else line :: check_lines pending rest
  end.

Definition check_one_box_per_section (content : string) : string :=
  PyStr.join PyStr.nl
    (check_lines false (PyStr.split (ascii_of_nat 10) content)).

Definition round (st : list Note * option string)
  : list Note * option string :=
  ResolveJ.transform (fst st) (option_map check_one_box_per_section (snd st)).

Fixpoint rounds (k : nat) (st : list Note * option string)
  : list Note * option string :=
  match k with
  | O => st
  | S k' => rounds k' (round st)
  end.

End Editor.

(* ================================================================== *)
(** ** Vocabulary of the statements *)

Module Spec.

(** A task the validator accepts. *)
Definition task_ok (t : Task) : Prop := t_id t <> "" /\ t_content t <> "".

(** A note whose own fields the validator accepts. *)
Definition fields_ok (n : Note) : Prop :=
  id n <> "" /\ title n <> "" /\ path n <> ""
  /\ forall t, In t (tasks n) -> task_ok t.

(** [xs] has no repetition and shares nothing with [seen]. *)
Definition fresh (xs seen : list string) : Prop :=
  NoDup xs /\ forall x, In x xs -> ~ In x seen.

(** Titles of [parent_map] that a walk has not visited yet. *)
Definition unvisited (parent_map : Dict.t (option string))
    (visited : list string) : nat :=
  List.length (filter (fun k => negb (PyStr.mem k visited))
                      (Dict.keys parent_map)).

(** What path resolution reads of a note. *)
Definition graph_state (n : Note) : string * list Parent * option string :=
  (title n, get_parents n, para_folder n).

(** A note with nothing but a title, tags and metadata. *)
Definition note_of (nid ttl : string) (tgs : list string)
    (pf : option string) (ps : option (list Parent)) (op : option string)
  : Note :=
  mkNote nid ttl "" (ttl +++ ".md") tgs [] pf ps op.

(** A parent entry of type note. *)
Definition note_parent (nid ttl : string) : Parent :=
  mkParent nid ttl (Some note_t).

(** The parent entry of a PARA folder. *)
Definition folder_parent (folder : string) : Parent :=
  mkParent folder folder (Some para_folder_t).

(** The characters of a string. *)
Definition chars (s : string) : list ascii := list_ascii_of_string s.

(** The last character of a string. *)
Fixpoint last_char (s : string) : option ascii :=
  match s with
  | "" => None
  | String c "" => Some c
  | String _ rest => last_char rest
  end.

(** A string that holds no line end: neither a line feed nor a carriage
    return. *)
Definition one_line (s : string) : Prop :=
  ~ In (ascii_of_nat 10) (chars s) /\ ~ In (ascii_of_nat 13) (chars s).

(** What the path scripts read of a note and never write. *)
Definition fixed_fields (n : Note)
  : string * list string * option (list Parent) :=
  (title n, tags n, parents n).

(** What validation reads of a note. *)
Definition validated_fields (n : Note)
  : string * string * string * list Task :=
  (id n, title n, path n, tasks n).

(** [c] follows the parent links from [t]: each step goes from a title to
    its first parent when this is no PARA folder. *)
Inductive reaches (parent_map : Dict.t (option string))
  : string -> string -> Prop :=
| reaches_here (t : string) : reaches parent_map t t
| reaches_up (t p c : string) :
    AssignFullPaths.get_flat parent_map t = Some p ->
    PyStr.mem p AssignFullPaths.PARA_FOLDERS = false ->
    reaches parent_map p c ->
    reaches parent_map t c.

(** A path under [parent_path]: the segment alone at the root. *)
Definition below (parent_path segment : string) : string :=
  if parent_path =? "." then segment else parent_path +++ "/" +++ segment.

(** The state of the tag loop of script 5 is sound: the titles of
    [parents] are distinct, and [parent_ids] is their set. *)
Definition loop_inv (st : list Parent * list string) : Prop :=
  NoDup (map p_title (fst st))
  /\ forall t, In t (map p_title (fst st)) <-> In t (snd st).

(** A section with its only selection, or with [None] when it has no
    selection or several. *)
Definition to_single (item : string * list string)
  : string * option string :=
  (fst item, match snd item with [p] => Some p | _ => None end).

(** A parser state whose current section, if any, has a name. *)
Definition named (st : Dict.t (list string) * option string) : Prop :=
  forall cn, snd st = Some cn -> PyStr.truthy cn = true.

(** A line that is no checked option. *)
Definition unchecked (line : string) : Prop :=
  PyStr.startswith "- [x] " line = false
  /\ PyStr.startswith "- [X] " line = false.

(** A line that the parser of script J passes over: no section header
    and no checked option. *)
Definition plain_line (line : string) : Prop :=
  ResolveJ.note_match line = None /\ unchecked line.

(** The section titles that the headers among these lines name. *)
Definition headers (lines : list string) : list string :=
  flat_map (fun line => match ResolveJ.note_match line with
                        | Some t => [t]
                        | None => []
                        end) lines.

(** The sections of a checklist with no line checked, for these titles
    in order. *)
Definition empty_sections (titles : list string) : Dict.t (list string) :=
  fold_left (fun d t => Dict.set d t []) titles Dict.empty.

End Spec.

(* ================================================================== *)
(** ** Concrete batches and checklists *)

Module Scenario.
Import Spec.

(** Two notes: Groceries tagged Home, and Home tagged Area. *)
Definition groceries (gid : string) : Note :=
  note_of gid "Groceries" ["Home"] None None None.

Definition home (hid : string) : Note :=
  note_of hid "Home" ["Area"] None None None.

Definition household (gid hid : string) : list Note :=
  [groceries gid; home hid].

(** Scripts 4 and 5 in pipeline order. *)
Definition identified (notes : list Note) : list Note :=
  IdentifyParaParents.identify_parents_with_para
    (AssignParaFolder.transform notes).

(** What the statements observe of a note. *)
Definition placement (n : Note)
  : string * option (list Parent) * option string :=
  (title n, parents n, output_path n).

(** A note tagged with its own title. *)
Definition journal : Note :=
  note_of "n3" "Journal" ["Journal"; "Area"] None None None.

(** A note whose only parent is the note titled [parent]. *)
Definition child_of (ttl parent : string) : Note :=
  note_of ttl ttl [] None (Some [note_parent parent parent]) None.

Definition self_cycle : list Note := [child_of "A" "A"].

Definition two_cycle : list Note := [child_of "A" "B"; child_of "B" "A"].

Definition five_cycle : list Note :=
  [child_of "A" "B"; child_of "B" "C"; child_of "C" "D";
   child_of "D" "E"; child_of "E" "A"].

(** A cycle of [k] notes: N0 under N1, and so on, the last under N0. *)
Definition cycle_title (i : nat) : string := "N" +++ PyStr.dec i.

Definition long_cycle (k : nat) : list Note :=
  map (fun i => child_of (cycle_title i) (cycle_title (S i mod k)))
      (seq 0 k).

(** A note with three candidate parents. *)
Definition pA : Parent := note_parent "a" "A".
Definition pB : Parent := note_parent "b" "B".
Definition pC : Parent := note_parent "c" "C".

Definition x_note : Note :=
  note_of "x" "X" [] None (Some [pA; pB; pC]) None.



(** A checklist with the single section X and one checked line. *)
Definition checklist_for (selected : string) : string :=
  PyStr.join PyStr.nl ["## X"; ""; "- [ ] A"; "- [x] " +++ selected; ""].

(** A checklist with the section X left unchecked. *)
Definition checklist_open : string :=
  PyStr.join PyStr.nl ["## X"; ""; "- [ ] A"; "- [ ] B"; "- [ ] C"; ""].

(** Projects for the reorganization step. *)
Definition parked_and_done : Note :=
  note_of "p1" "Garden" ["Project"; "Done"; "Parked"] (Some "Projects")
          (Some [folder_parent "Projects"]) (Some "Projects").

Definition nested_project : Note :=
  note_of "p2" "Shed" ["Project"; "Parked"] (Some "Projects")
          (Some [note_parent "p1" "Garden"]) (Some "Projects/Garden").

(** Two notes of one title, with distinct ids and paths. *)
Definition home_a : Note :=
  mkNote "note-001" "Home" "First" "Home.md" [] [] None None None.

Definition home_b : Note :=
  mkNote "note-002" "Home" "Second" "Home (2).md" [] [] None None None.

End Scenario.

(* ================================================================== *)
(** * Properties *)

Section StringFacts.

Lemma mem_In (x : string) (xs : list string) :
  PyStr.mem x xs = true <-> In x xs.
Proof.
  unfold PyStr.mem. rewrite existsb_exists. split.
  - intros [y [Hy Heq]]. apply String.eqb_eq in Heq. now subst.
  - intros H. exists x. split; [assumption | apply String.eqb_refl].
Qed.

Lemma mem_false_not_In (x : string) (xs : list string) :
  PyStr.mem x xs = false <-> ~ In x xs.
Proof.
  rewrite <- mem_In. destruct (PyStr.mem x xs); split; congruence.
Qed.

Lemma truthy_true (s : string) : PyStr.truthy s = true <-> s <> "".
Proof.
  unfold PyStr.truthy. destruct s; simpl; split; congruence.
Qed.

Lemma truthy_false (s : string) : PyStr.truthy s = false <-> s = "".
Proof.
  unfold PyStr.truthy. destruct s; simpl; split; congruence.
Qed.

End StringFacts.

Module WhitespaceFacts.

Lemma drop_prefix_shorter (w s : string) :
  w <> "" -> String.prefix w s = true ->
  String.length (PyStr.drop (String.length w) s) < String.length s.
Proof.
  revert s. induction w as [|c w IH]; intros s Hne Hp; [contradiction|].
  destruct s as [|c' s]; [discriminate|]. simpl in Hp.
  destruct (ascii_dec c c'); [|discriminate].
  cbn [String.length PyStr.drop]. destruct w as [|c2 w].
  - simpl. lia.
  - specialize (IH s ltac:(discriminate) Hp). simpl in *. lia.
Qed.

(** As many passes as the string has bytes leave no character of [seqs]
    at its front. *)
Lemma skip_all_done (seqs : list string) :
  (forall w, In w seqs -> w <> "") ->
  forall k s, String.length s <= k ->
    PyStr.skip_one seqs (PyStr.skip_all seqs k s) = None.
Proof.
  intros Hseqs. induction k as [|k IH]; intros s Hle.
  - destruct s; [|simpl in Hle; lia]. cbn [PyStr.skip_all].
    unfold PyStr.skip_one.
    destruct (find _ seqs) as [w|] eqn:Hf; [|reflexivity].
    apply find_some in Hf. destruct Hf as [Hin Hp].
    destruct w; [now destruct (Hseqs "" Hin) | discriminate].
  - cbn [PyStr.skip_all].
    destruct (PyStr.skip_one seqs s) as [rest|] eqn:Hs; [|exact Hs].
    apply IH. unfold PyStr.skip_one in Hs.
    destruct (find _ seqs) as [w|] eqn:Hf; [|discriminate].
    injection Hs as <-. apply find_some in Hf. destruct Hf as [Hin Hp].
    pose proof (drop_prefix_shorter w s (Hseqs w Hin) Hp). lia.
Qed.

(** What [strip] has taken the front off starts with no white space. *)
Lemma lstrip_done (s : string) :
  PyStr.skip_one PyStr.whitespace
    (PyStr.skip_all PyStr.whitespace (String.length s) s) = None.
Proof.
  apply skip_all_done; [|lia].
  intros w Hin. vm_compute in Hin.
  repeat (destruct Hin as [<- | Hin]; [discriminate|]). destruct Hin.
Qed.

End WhitespaceFacts.

Module ValidatorFacts.
Import Validators Spec.

Lemma task_errors_nil (prefix nid : string) (ts : list Task) :
  forall j, task_errors prefix nid j ts = [] <-> forall t, In t ts -> task_ok t.
Proof.
  induction ts as [|t ts IH]; intros j; simpl.
  - split; [intros _ t [] | reflexivity].
  - destruct (PyStr.truthy (t_id t)) eqn:Hid;
      destruct (PyStr.truthy (t_content t)) eqn:Hc; simpl.
    + rewrite IH. apply truthy_true in Hid, Hc. split.
      * intros H u [<- | Hu]; [split; assumption | auto].
      * intros H u Hu. apply H. now right.
    + apply truthy_false in Hc. split; [discriminate|].
      intros H. destruct (H t (or_introl eq_refl)) as [_ Hn]. contradiction.
    + apply truthy_false in Hid. split; [discriminate|].
      intros H. destruct (H t (or_introl eq_refl)) as [Hn _]. contradiction.
    + apply truthy_false in Hid. split; [discriminate|].
      intros H. destruct (H t (or_introl eq_refl)) as [Hn _]. contradiction.
Qed.

(** Every task that lacks an id or content gets its message. *)
Lemma task_errors_reports (prefix nid : string) (ts : list Task) :
  forall j k task,
    nth_error ts k = Some task ->
    (t_id task = "" ->
     In (task_missing_id prefix nid (j + k)) (task_errors prefix nid j ts))
    /\ (t_content task = "" ->
        In (task_missing_content prefix nid (j + k))
           (task_errors prefix nid j ts)).
Proof.
  induction ts as [|t ts IH]; intros j k task Hk; [now destruct k|].
  destruct k as [|k]; simpl in Hk.
  - injection Hk as ->. rewrite Nat.add_0_r. simpl. split; intros H.
    + apply truthy_false in H. rewrite H. now left.
    + apply truthy_false in H. rewrite H. apply in_or_app. right. now left.
  - destruct (IH (S j) k task Hk) as [H1 H2].
    replace (j + S k) with (S j + k) by lia.
    simpl. split; intros H; apply in_or_app; right; apply in_or_app; right;
      auto.
Qed.

Lemma fresh_cons (x : string) (xs seen : list string) :
  fresh (x :: xs) seen <-> ~ In x seen /\ fresh xs (x :: seen).
Proof.
  unfold fresh. rewrite NoDup_cons_iff. simpl. split.
  - intros [[Hx Hnd] Hs]. split; [| split].
    + apply Hs. now left.
    + assumption.
    + intros y Hy [<- | Hin]; [contradiction | ].
      apply (Hs y); auto.
  - intros [Hx [Hnd Hs]]. split; [split |].
    + intros Hin. apply (Hs x Hin). now left.
    + assumption.
    + intros y [<- | Hy]; [assumption |].
      intros Hin. apply (Hs y Hy). now right.
Qed.

Lemma validate_loop_nil (notes : list Note) :
  forall i seen_ids seen_paths,
    validate_loop i seen_ids seen_paths notes = [] <->
    (forall n, In n notes -> fields_ok n)
    /\ fresh (map id notes) seen_ids
    /\ fresh (map path notes) seen_paths.
Proof.
  induction notes as [|note rest IH]; intros i si sp.
  - simpl. split; [intros _ | reflexivity].
    unfold fresh; simpl.
    split; [intros ? [] | split; (split; [constructor | intros ? []])].
  - cbn [validate_loop map]. unfold check_note. rewrite !fresh_cons.
    destruct (PyStr.truthy (id note)) eqn:Hid,
             (PyStr.mem (id note) si) eqn:Hmi,
             (PyStr.truthy (title note)) eqn:Htl,
             (PyStr.truthy (path note)) eqn:Hp,
             (PyStr.mem (path note) sp) eqn:Hmp;
      cbn [negb app];
      try solve
        [ split;
          [ intros H; discriminate H
          | intros [Hf [[Hni _] [Hnp _]]];
            destruct (Hf note (or_introl eq_refl)) as [Ha [Hb [Hc _]]];
            repeat match goal with
                   | H : PyStr.truthy _ = false |- _ => apply truthy_false in H
                   | H : PyStr.mem _ _ = true |- _ => apply mem_In in H
                   end;
            contradiction ] ].
    apply truthy_true in Hid, Htl, Hp.
    apply mem_false_not_In in Hmi, Hmp.
    split.
    + intros H. apply app_eq_nil in H. destruct H as [Ht Hl].
      pose proof (proj1 (task_errors_nil _ _ _ _) Ht) as Ht'.
      pose proof (proj1 (IH _ _ _) Hl) as Hl'. clear Hl.
      destruct Hl' as [Hf [Hi Hpa]].
      split; [| split; split; assumption].
      intros n [<- | Hn]; [| auto].
      exact (conj Hid (conj Htl (conj Hp Ht'))).
    + intros [Hf [[_ Hi] [_ Hpa]]].
      assert (Ht : task_errors (note_prefix i) (id note) 0 (tasks note) = []).
      { apply task_errors_nil. apply (Hf note). now left. }
      rewrite Ht. cbn [app]. apply IH.
      split; [| split; assumption].
      intros n Hn. apply Hf. now right.
Qed.

(** [seen_ids] and [seen_paths] only grow, and take in the id and the
    path of the note when these are not empty. *)
Lemma check_note_seen (i : nat) (si sp : list string) (note : Note) :
  (forall x, In x si -> In x (snd (fst (check_note i si sp note))))
  /\ (id note <> "" -> In (id note) (snd (fst (check_note i si sp note))))
  /\ (forall x, In x sp -> In x (snd (check_note i si sp note)))
  /\ (path note <> "" -> In (path note) (snd (check_note i si sp note))).
Proof.
  unfold check_note.
  destruct (PyStr.truthy (id note)) eqn:Hid,
           (PyStr.mem (id note) si) eqn:Hmi,
           (PyStr.truthy (path note)) eqn:Hp,
           (PyStr.mem (path note) sp) eqn:Hmp;
    cbn [negb fst snd];
    repeat match goal with
           | H : PyStr.truthy _ = false |- _ => apply truthy_false in H
           | H : PyStr.mem _ _ = true |- _ => apply mem_In in H
           end;
    repeat split; intros; simpl; auto; contradiction.
Qed.

(** The messages of the note at position [j] are in the result, computed
    against sets that hold every non-empty id and path met before. *)
Lemma validate_loop_at (notes : list Note) :
  forall i si sp j note,
    nth_error notes j = Some note ->
    exists si' sp',
      (forall x, x <> "" ->
         In x si \/ In x (map id (firstn j notes)) -> In x si')
      /\ (forall x, x <> "" ->
            In x sp \/ In x (map path (firstn j notes)) -> In x sp')
      /\ incl (fst (fst (check_note (i + j) si' sp' note)))
               (validate_loop i si sp notes).
Proof.
  induction notes as [|a rest IH]; intros i si sp j note Hj;
    [now destruct j|].
  destruct j as [|j]; simpl in Hj.
  - injection Hj as ->. exists si, sp. rewrite Nat.add_0_r.
    cbn [firstn map validate_loop].
    split; [intros x _ [H | []]; exact H|].
    split; [intros x _ [H | []]; exact H|].
    destruct (check_note i si sp note) as [[errs si1] sp1]. simpl.
    apply incl_appl, incl_refl.
  - cbn [validate_loop firstn map].
    pose proof (check_note_seen i si sp a) as [Hs1 [Hs2 [Hs3 Hs4]]].
    destruct (check_note i si sp a) as [[errs si1] sp1].
    cbn [fst snd] in Hs1, Hs2, Hs3, Hs4.
    destruct (IH (S i) si1 sp1 j note Hj) as [si' [sp' [Hi [Hp Hincl]]]].
    exists si', sp'. replace (i + S j) with (S i + j) by lia.
    split; [| split].
    + intros x Hx [H | [H | H]]; apply Hi; auto.
      left. subst x. auto.
    + intros x Hx [H | [H | H]]; apply Hp; auto.
      left. subst x. auto.
    + apply incl_appr. exact Hincl.
Qed.

(** What the body of the loop reports for one note. *)
Lemma check_note_reports (i : nat) (si sp : list string) (note : Note) :
  let errs := fst (fst (check_note i si sp note)) in
  let prefix := note_prefix i in
  (id note = "" -> In (missing_id prefix) errs)
  /\ (id note <> "" -> In (id note) si ->
      In (duplicate_id prefix (id note)) errs)
  /\ (title note = "" -> In (missing_title prefix (id note)) errs)
  /\ (path note = "" -> In (missing_path prefix (id note)) errs)
  /\ (path note <> "" -> In (path note) sp ->
      In (duplicate_path prefix (id note) (path note)) errs)
  /\ (forall k task, nth_error (tasks note) k = Some task ->
        (t_id task = "" -> In (task_missing_id prefix (id note) k) errs)
        /\ (t_content task = "" ->
            In (task_missing_content prefix (id note) k) errs)).
Proof.
  unfold check_note.
  destruct (PyStr.truthy (id note)) eqn:Hid,
           (PyStr.mem (id note) si) eqn:Hmi,
           (PyStr.truthy (title note)) eqn:Htl,
           (PyStr.truthy (path note)) eqn:Hp,
           (PyStr.mem (path note) sp) eqn:Hmp;
    cbn [negb fst snd app];
    repeat match goal with
           | H : PyStr.truthy _ = false |- _ => apply truthy_false in H
           | H : PyStr.truthy _ = true |- _ => apply truthy_true in H
           | H : PyStr.mem _ _ = false |- _ => apply mem_false_not_In in H
           end;
    (split; [| split; [| split; [| split; [| split]]]]);
    try (intros; first [contradiction | congruence | now (simpl; auto)]);
    intros k task Hk;
    destruct (task_errors_reports (note_prefix i) (id note) (tasks note)
                0 k task Hk) as [H1 H2];
    (split; intros H; repeat apply in_cons; auto).
Qed.

End ValidatorFacts.

Module DictFacts.

Lemma get_set_same {V} (d : Dict.t V) (k : string) (v : V) :
  Dict.get (Dict.set d k v) k = Some v.
Proof.
  induction d as [|[k' v'] d IH]; simpl.
  - now rewrite String.eqb_refl.
  - destruct (k' =? k) eqn:E; simpl; rewrite E; [reflexivity | exact IH].
Qed.

Lemma get_set_other {V} (d : Dict.t V) (k k' : string) (v : V) :
  k <> k' -> Dict.get (Dict.set d k v) k' = Dict.get d k'.
Proof.
  intros Hne. induction d as [|[k0 v0] d IH]; simpl.
  - destruct (k =? k') eqn:E; [apply String.eqb_eq in E; contradiction | reflexivity].
  - destruct (k0 =? k) eqn:E; simpl.
    + apply String.eqb_eq in E. subst k0.
      destruct (k =? k') eqn:E'; [apply String.eqb_eq in E'; contradiction | reflexivity].
    + destruct (k0 =? k'); [reflexivity | exact IH].
Qed.

Lemma get_Some_key {V} (d : Dict.t V) (k : string) (v : V) :
  Dict.get d k = Some v -> In k (Dict.keys d).
Proof.
  induction d as [|[k' v'] d IH]; simpl; [discriminate|].
  destruct (k' =? k) eqn:E.
  - apply String.eqb_eq in E. now left.
  - intros H. right. now apply IH.
Qed.

Lemma set_length {V} (d : Dict.t V) (k : string) (v : V) :
  List.length (Dict.set d k v) <= S (List.length d).
Proof.
  induction d as [|[k' v'] d IH]; simpl; [lia|].
  destruct (k' =? k); simpl; lia.
Qed.

End DictFacts.

Module PathFacts.
Import AssignFullPaths Spec.

Lemma sanitize_nonempty (name : string) : sanitize_folder_name name <> "".
Proof.
  unfold sanitize_folder_name.
  destruct (PyStr.truthy _) eqn:E.
  - now apply truthy_true.
  - discriminate.
Qed.

Lemma filter_length_lt (f g : string -> bool) (l : list string) (t : string) :
  (forall x, g x = true -> f x = true) ->
  In t l -> f t = true -> g t = false ->
  List.length (filter g l) < List.length (filter f l).
Proof.
  intros Hsub. induction l as [|x l IH]; simpl; [intros []|].
  assert (Hle : List.length (filter g l) <= List.length (filter f l)).
  { clear IH. induction l as [|y l IHl]; simpl; [lia|].
    destruct (g y) eqn:Eg.
    - rewrite (Hsub y Eg). simpl. lia.
    - destruct (f y); simpl; lia. }
  intros [-> | Hin] Hf Hg.
  - rewrite Hf, Hg. simpl. lia.
  - specialize (IH Hin Hf Hg).
    destruct (g x) eqn:Eg.
    + rewrite (Hsub x Eg). simpl. lia.
    + destruct (f x); simpl; lia.
Qed.

Lemma unvisited_visit (pm : Dict.t (option string)) (visited : list string)
    (t p : string) :
  get_flat pm t = Some p -> PyStr.mem t visited = false ->
  unvisited pm (t :: visited) < unvisited pm visited.
Proof.
  intros Hget Hmem. unfold unvisited.
  apply filter_length_lt with (t := t).
  - intros x. simpl. destruct (x =? t); simpl; [discriminate | auto].
  - unfold get_flat in Hget. destruct (Dict.get pm t) eqn:E; [|discriminate].
    eapply DictFacts.get_Some_key; eassumption.
  - now rewrite Hmem.
  - simpl. now rewrite String.eqb_refl.
Qed.

Lemma unvisited_le (pm : Dict.t (option string)) (visited : list string) :
  unvisited pm visited <= List.length pm.
Proof.
  unfold unvisited, Dict.keys.
  etransitivity; [apply filter_length_le | now rewrite length_map].
Qed.

Lemma call_ok {A : Type} (frames : nat) (v : A) :
  Py.call (S (S frames)) v = Py.Ok v.
Proof. reflexivity. Qed.

Lemma call_inv {A : Type} (frames : nat) (v w : A) :
  Py.call frames v = Py.Ok w -> w = v /\ 1 < frames.
Proof.
  destruct frames as [|[|frames]]; simpl; try discriminate.
  intros [= ->]. split; [reflexivity | lia].
Qed.

Lemma builtin_inv {A : Type} (frames : nat) (v w : A) :
  Py.builtin frames v = Py.Ok w -> w = v /\ 0 < frames.
Proof.
  destruct frames; simpl; [discriminate|].
  intros [= ->]. split; [reflexivity | lia].
Qed.

(** Enough levels: three more than there are unvisited titles. *)
Lemma get_full_path_enough (pm pa : Dict.t (option string)) :
  forall frames note_title visited,
    unvisited pm visited + 3 <= frames ->
    exists p, get_full_path frames note_title pm pa visited = Py.Ok p
              /\ p <> "".
Proof.
  induction frames as [|frames IH]; intros t visited Hle; [lia|].
  cbn [get_full_path].
  destruct frames as [|[|frames]]; [lia | lia |].
  rewrite !call_ok. cbn [Py.builtin Py.bind].
  destruct (PyStr.mem t visited) eqn:Hv.
  { eexists; split; [reflexivity | apply sanitize_nonempty]. }
  destruct (get_flat pm t) as [parent_title|] eqn:Hp.
  2:{ destruct (get_flat pa t) as [pf|].
      - destruct (PyStr.truthy pf);
          eexists; (split; [reflexivity|]);
          [apply sanitize_nonempty | discriminate].
      - eexists; split; [reflexivity | discriminate]. }
  destruct (PyStr.mem parent_title PARA_FOLDERS).
  { eexists; split; [reflexivity | apply sanitize_nonempty]. }
  pose proof (unvisited_visit pm visited t parent_title Hp Hv) as Hdec.
  destruct (IH parent_title (t :: visited)) as [pp [Hpp Hne]]; [lia|].
  rewrite Hpp. cbn [Py.bind]. destruct (pp =? ".").
  - eexists; split; [reflexivity | apply sanitize_nonempty].
  - eexists; split; [reflexivity|].
    destruct pp; [contradiction | discriminate].
Qed.

(** A path that was returned is returned with any deeper stack. *)
Lemma get_full_path_mono (pm pa : Dict.t (option string)) :
  forall frames frames' note_title visited p,
    get_full_path frames note_title pm pa visited = Py.Ok p ->
    frames <= frames' ->
    get_full_path frames' note_title pm pa visited = Py.Ok p.
Proof.
  induction frames as [|frames IH]; intros frames' t visited p H Hle;
    [discriminate|].
  destruct frames' as [|frames']; [lia|].
  cbn [get_full_path] in *.
  assert (Hcall : forall v w : string,
             Py.call frames v = Py.Ok w -> Py.call frames' v = Py.Ok w).
  { intros v w Hc. apply call_inv in Hc. destruct Hc as [-> Hpos].
    destruct frames' as [|[|frames']]; [lia | lia | reflexivity]. }
  destruct (PyStr.mem t visited); [now apply Hcall|].
  destruct (Py.builtin frames (t :: visited)) as [v1|] eqn:Hb;
    [|discriminate].
  apply builtin_inv in Hb. destruct Hb as [-> Hpos].
  assert (Hb' : Py.builtin frames' (t :: visited) = Py.Ok (t :: visited))
    by (destruct frames'; [lia | reflexivity]).
  rewrite Hb'. cbn [Py.bind] in *.
  destruct (get_flat pm t) as [parent_title|].
  2:{ destruct (get_flat pa t) as [pf|]; [|assumption].
      destruct (PyStr.truthy pf); [now apply Hcall | assumption]. }
  destruct (PyStr.mem parent_title PARA_FOLDERS); [now apply Hcall|].
  destruct (get_full_path frames parent_title pm pa (t :: visited))
    as [pp|] eqn:Hpp; [|discriminate].
  rewrite (IH frames' _ _ _ Hpp) by lia. cbn [Py.bind] in *.
  destruct (pp =? "."); [now apply Hcall|].
  destruct (Py.call frames (sanitize_folder_name parent_title))
    as [seg|] eqn:Hseg; [|discriminate].
  now rewrite (Hcall _ _ Hseg).
Qed.

(** Every path that is returned is non-empty. *)
Lemma get_full_path_nonempty (pm pa : Dict.t (option string)) :
  forall frames note_title visited p,
    get_full_path frames note_title pm pa visited = Py.Ok p -> p <> "".
Proof.
  induction frames as [|frames IH]; intros t visited p H; [discriminate|].
  cbn [get_full_path] in H.
  assert (Hcall : forall v w : string,
             Py.call frames (sanitize_folder_name v) = Py.Ok w -> w <> "").
  { intros v w Hc. apply call_inv in Hc. destruct Hc as [-> _].
    apply sanitize_nonempty. }
  destruct (PyStr.mem t visited); [now apply Hcall in H|].
  destruct (Py.builtin frames (t :: visited)) as [v1|] eqn:Hb;
    [|discriminate].
  apply builtin_inv in Hb. destruct Hb as [-> _]. cbn [Py.bind] in H.
  destruct (get_flat pm t) as [parent_title|].
  2:{ destruct (get_flat pa t) as [pf|];
        [|injection H as <-; discriminate].
      destruct (PyStr.truthy pf);
        [now apply Hcall in H | injection H as <-; discriminate]. }
  destruct (PyStr.mem parent_title PARA_FOLDERS); [now apply Hcall in H|].
  destruct (get_full_path frames parent_title pm pa (t :: visited))
    as [pp|] eqn:Hpp; [|discriminate].
  cbn [Py.bind] in H. apply IH in Hpp.
  destruct (pp =? "."); [now apply Hcall in H|].
  destruct (Py.call frames (sanitize_folder_name parent_title));
    [|discriminate].
  cbn [Py.bind] in H. injection H as <-.
  destruct pp; [contradiction | discriminate].
Qed.

Lemma build_parent_tree_length (notes : list Note) :
  List.length (build_parent_tree notes) <= List.length notes.
Proof.
  unfold build_parent_tree.
  assert (G : forall d, List.length
            (fold_left (fun parent_map note =>
               Dict.set parent_map (title note) (first_parent note)) notes d)
            <= List.length d + List.length notes).
  { induction notes as [|n notes IH]; intros d; simpl; [lia|].
    etransitivity; [apply IH|].
    pose proof (DictFacts.set_length d (title n) (first_parent n)). lia. }
  apply (G Dict.empty).
Qed.

(** A loop over the notes returns once every pass does, note by note. *)
Lemma for_each_ok {A B : Type} (body : A -> Py.result B) (xs : list A)
    (f : A -> B) :
  (forall x, In x xs -> body x = Py.Ok (f x)) ->
  Py.for_each body xs = Py.Ok (List.map f xs).
Proof.
  induction xs as [|x xs IH]; intros H; [reflexivity|].
  cbn [Py.for_each List.map]. rewrite (H x) by now left.
  cbn [Py.bind]. rewrite IH by (intros y Hy; apply H; now right).
  reflexivity.
Qed.

(** What a loop that returned has done, pass by pass. *)
Lemma for_each_inv {A B : Type} (body : A -> Py.result B) :
  forall (xs : list A) (ys : list B),
    Py.for_each body xs = Py.Ok ys ->
    Forall2 (fun x y => body x = Py.Ok y) xs ys.
Proof.
  induction xs as [|x xs IH]; intros ys H; cbn [Py.for_each] in H.
  - injection H as <-. constructor.
  - destruct (body x) as [y|] eqn:Hy; [|discriminate].
    cbn [Py.bind] in H.
    destruct (Py.for_each body xs) as [ys'|]; [|discriminate].
    cbn [Py.bind] in H. injection H as <-.
    constructor; [exact Hy | now apply IH].
Qed.

Lemma for_each_ext {A B : Type} (body body' : A -> Py.result B)
    (xs : list A) :
  (forall x, In x xs -> body x = body' x) ->
  Py.for_each body xs = Py.for_each body' xs.
Proof.
  induction xs as [|x xs IH]; intros H; [reflexivity|].
  cbn [Py.for_each]. rewrite (H x) by now left.
  rewrite IH by (intros y Hy; apply H; now right). reflexivity.
Qed.

Lemma Forall2_nth {A B : Type} (R : A -> B -> Prop) :
  forall (xs : list A) (ys : list B),
    Forall2 R xs ys ->
    forall i x, nth_error xs i = Some x ->
      exists y, nth_error ys i = Some y /\ R x y.
Proof.
  induction 1 as [|x0 y0 xs ys Hxy Hrest IH]; intros i x Hi;
    [now destruct i|].
  destruct i as [|i]; simpl in Hi.
  - injection Hi as <-. exists y0. split; [reflexivity | assumption].
  - now apply IH.
Qed.

Lemma Forall2_In_r {A B : Type} (R : A -> B -> Prop) :
  forall (xs : list A) (ys : list B),
    Forall2 R xs ys ->
    forall y, In y ys -> exists x, In x xs /\ R x y.
Proof.
  induction 1 as [|x0 y0 xs ys Hxy Hrest IH]; intros y Hy; [destruct Hy|].
  destruct Hy as [<- | Hy].
  - exists x0. split; [now left | assumption].
  - destruct (IH y Hy) as [x [Hx HR]]. exists x. split; [now right|].
    assumption.
Qed.

(** A loop that returned, as a map over its passes, all of which
    returned. *)
Lemma for_each_map {A B : Type} (body : A -> Py.result B) (d : A -> B) :
  forall (xs : list A) (ys : list B),
    Py.for_each body xs = Py.Ok ys ->
    ys = List.map (fun x => Py.value (d x) (body x)) xs
    /\ forall x, In x xs -> body x = Py.Ok (Py.value (d x) (body x)).
Proof.
  induction xs as [|x xs IH]; intros ys H; cbn [Py.for_each] in H.
  - injection H as <-. split; [reflexivity | intros x []].
  - destruct (body x) as [y|] eqn:Hy; [|discriminate].
    cbn [Py.bind] in H.
    destruct (Py.for_each body xs) as [ys'|]; [|discriminate].
    cbn [Py.bind] in H. injection H as <-.
    destruct (IH ys' eq_refl) as [-> Hall].
    cbn [List.map]. rewrite Hy. split; [reflexivity|].
    intros x' [<- | Hx]; [now rewrite Hy | now apply Hall].
Qed.

(** The two functions that loop over the notes need two levels for the
    maps they build first, and are their loop from there on. *)
Lemma assign_full_paths_loop (frames : nat) (notes : list Note) :
  1 < frames ->
  assign_full_paths frames notes
  = Py.for_each
      (fun note =>
         Py.bind (get_full_path frames (title note)
                    (build_parent_tree notes) (build_para_map notes) [])
                 (fun full_path =>
                    Py.Ok (set_output_path note (Some full_path))))
      notes.
Proof.
  intros H. destruct frames as [|[|frames]]; [lia | lia | reflexivity].
Qed.

Lemma assign_full_paths_room (frames : nat) (notes out : list Note) :
  assign_full_paths frames notes = Py.Ok out ->
  Py.for_each
    (fun note =>
       Py.bind (get_full_path frames (title note)
                  (build_parent_tree notes) (build_para_map notes) [])
               (fun full_path =>
                  Py.Ok (set_output_path note (Some full_path))))
    notes
  = Py.Ok out.
Proof.
  destruct frames as [|[|frames]];
    [discriminate | discriminate | intros H; exact H].
Qed.

Lemma assign_full_paths_short (frames : nat) (notes : list Note) :
  frames <= 1 -> assign_full_paths frames notes = Py.RecursionError.
Proof.
  intros H. destruct frames as [|[|frames]]; [reflexivity | reflexivity | lia].
Qed.

Lemma step1_loop (frames : nat) (notes : list Note) :
  1 < frames ->
  OrdinalPaths.step1_assign_parent_paths frames notes
  = let parent_map := build_parent_tree notes in
    let para_map := build_para_map notes in
    let all_parents := OrdinalPaths.find_all_parents notes parent_map in
    Py.bind
      (Py.for_each
         (fun note =>
            if PyStr.mem (title note) all_parents then
              Py.bind
                (get_full_path frames (title note) parent_map para_map [])
                (fun full_path =>
                   Py.Ok (set_output_path note (Some full_path)))
            else Py.Ok note)
         notes)
      (fun notes => Py.Ok (notes, all_parents)).
Proof.
  intros H. destruct frames as [|[|frames]]; [lia | lia | reflexivity].
Qed.

Lemma step1_room (frames : nat) (notes : list Note)
    (r : list Note * list string) :
  OrdinalPaths.step1_assign_parent_paths frames notes = Py.Ok r ->
  (let parent_map := build_parent_tree notes in
   let para_map := build_para_map notes in
   let all_parents := OrdinalPaths.find_all_parents notes parent_map in
   Py.bind
     (Py.for_each
        (fun note =>
           if PyStr.mem (title note) all_parents then
             Py.bind
               (get_full_path frames (title note) parent_map para_map [])
               (fun full_path =>
                  Py.Ok (set_output_path note (Some full_path)))
           else Py.Ok note)
        notes)
     (fun notes => Py.Ok (notes, all_parents)))
  = Py.Ok r.
Proof.
  destruct frames as [|[|frames]];
    [discriminate | discriminate | intros H; exact H].
Qed.

(** The path of a title when the walk returns one. *)
Lemma walk_value (frames : nat) (pm pa : Dict.t (option string))
    (t p : string) :
  get_full_path frames t pm pa [] = Py.Ok p ->
  Py.value "" (get_full_path frames t pm pa []) = p.
Proof. intros H. now rewrite H. Qed.

(** The batch a run of [assign_full_paths] returns, as a map over the
    notes, the walk of each having returned. *)
Lemma assign_full_paths_map (frames : nat) (notes out : list Note) :
  let walk t := get_full_path frames t (build_parent_tree notes)
                              (build_para_map notes) [] in
  assign_full_paths frames notes = Py.Ok out ->
  out = List.map (fun note =>
                    set_output_path note
                      (Some (Py.value "" (walk (title note))))) notes
  /\ forall note, In note notes ->
       walk (title note) = Py.Ok (Py.value "" (walk (title note))).
Proof.
  intros walk H. apply assign_full_paths_room in H.
  apply (for_each_map _ (fun note => note)) in H. destruct H as [-> Hall].
  split.
  - apply map_ext_in. intros note Hn. specialize (Hall note Hn).
    cbn beta in Hall. fold (walk (title note)) in Hall |- *.
    destruct (walk (title note)) as [p|]; [reflexivity | discriminate].
  - intros note Hn. specialize (Hall note Hn). cbn beta in Hall.
    fold (walk (title note)) in Hall |- *.
    destruct (walk (title note)) as [p|]; [reflexivity | discriminate].
Qed.

(** The same for step 1 of script U, which walks from the parents. *)
Lemma step1_map (frames : nat) (notes notes1 : list Note)
    (all_parents : list string) :
  let walk t := get_full_path frames t (build_parent_tree notes)
                              (build_para_map notes) [] in
  OrdinalPaths.step1_assign_parent_paths frames notes
  = Py.Ok (notes1, all_parents) ->
  all_parents
  = OrdinalPaths.find_all_parents notes (build_parent_tree notes)
  /\ notes1
     = List.map (fun note =>
                   if PyStr.mem (title note) all_parents then
                     set_output_path note
                       (Some (Py.value "" (walk (title note))))
                   else note) notes
  /\ forall note, In note notes ->
       PyStr.mem (title note) all_parents = true ->
       walk (title note) = Py.Ok (Py.value "" (walk (title note))).
Proof.
  intros walk H. apply step1_room in H. cbv zeta in H.
  destruct (Py.for_each _ notes) as [l|] eqn:Hl; [|discriminate].
  cbn [Py.bind] in H. injection H as <- <-.
  split; [reflexivity|].
  apply (for_each_map _ (fun note => note)) in Hl.
  destruct Hl as [-> Hall]. split.
  - apply map_ext_in. intros note Hn. specialize (Hall note Hn).
    cbn beta in Hall.
    destruct (PyStr.mem (title note) _); [|reflexivity].
    fold (walk (title note)) in Hall |- *.
    destruct (walk (title note)) as [p|]; [reflexivity | discriminate].
  - intros note Hn Hm. specialize (Hall note Hn). cbn beta in Hall.
    rewrite Hm in Hall. fold (walk (title note)) in Hall |- *.
    destruct (walk (title note)) as [p|]; [reflexivity | discriminate].
Qed.

(** The notes a run of [assign_full_paths] returns. *)
Lemma assign_full_paths_inv (frames : nat) (notes out : list Note) :
  assign_full_paths frames notes = Py.Ok out ->
  Forall2 (fun note note' =>
             exists p,
               get_full_path frames (title note) (build_parent_tree notes)
                             (build_para_map notes) [] = Py.Ok p
               /\ note' = set_output_path note (Some p))
          notes out.
Proof.
  intros H. apply assign_full_paths_room in H. apply for_each_inv in H.
  eapply Forall2_impl; [|exact H].
  intros note note' Hb. cbn beta in Hb.
  destruct (get_full_path _ _ _ _ _) as [p|]; [|discriminate].
  cbn [Py.bind] in Hb. injection Hb as <-. now exists p.
Qed.

End PathFacts.

(* ================================================================== *)
(** ** Batch validation *)

(** C9, as stated, fails: two notes that share the title Home, with
    distinct ids and paths, pass validation with no warning at all. *)
Lemma validate_same_title_clean :
  title Scenario.home_a = title Scenario.home_b
  /\ Validators.validate_notes [Scenario.home_a; Scenario.home_b] = [].
Proof. split; reflexivity. Qed.

(** C9, amended: validation returns the empty list exactly when every
    note has a non-empty id, title and path, every task a non-empty id and
    content, no id occurs twice and no path occurs twice; and the list
    holds a message for the note at each position with a missing id, an
    id met before, a missing title, a missing path, a path met before,
    and for each of its tasks without id or without content.  Titles are
    checked for presence only, never for repetition. *)
Theorem validate_notes_reports (notes : list Note) :
  (Validators.validate_notes notes = [] <->
   (forall n, In n notes -> Spec.fields_ok n)
   /\ NoDup (map id notes) /\ NoDup (map path notes))
  /\ forall j note,
       nth_error notes j = Some note ->
       let errors := Validators.validate_notes notes in
       let prefix := Validators.note_prefix j in
       (id note = "" -> In (Validators.missing_id prefix) errors)
       /\ (id note <> "" -> In (id note) (map id (firstn j notes)) ->
           In (Validators.duplicate_id prefix (id note)) errors)
       /\ (title note = "" ->
           In (Validators.missing_title prefix (id note)) errors)
       /\ (path note = "" ->
           In (Validators.missing_path prefix (id note)) errors)
       /\ (path note <> "" -> In (path note) (map path (firstn j notes)) ->
           In (Validators.duplicate_path prefix (id note) (path note))
              errors)
       /\ (forall k task, nth_error (tasks note) k = Some task ->
             (t_id task = "" ->
              In (Validators.task_missing_id prefix (id note) k) errors)
             /\ (t_content task = "" ->
                 In (Validators.task_missing_content prefix (id note) k)
                    errors)).
Proof.
  split.
  - unfold Validators.validate_notes.
    rewrite ValidatorFacts.validate_loop_nil.
    unfold Spec.fresh. split.
    + intros [H [[H1 _] [H2 _]]]. exact (conj H (conj H1 H2)).
    + intros [H [H1 H2]].
      split; [exact H | split; (split; [assumption | intros ? ? []])].
  - intros j note Hj errors prefix.
    destruct (ValidatorFacts.validate_loop_at notes 0 [] [] j note Hj)
      as [si [sp [Hsi [Hsp Hincl]]]].
    cbn [Nat.add] in Hincl. fold (Validators.validate_notes notes) in Hincl.
    fold errors in Hincl.
    destruct (ValidatorFacts.check_note_reports j si sp note)
      as [R1 [R2 [R3 [R4 [R5 R6]]]]].
    fold prefix in R1, R2, R3, R4, R5, R6.
    split; [intros H; apply Hincl, R1, H|].
    split; [intros H1 H2; apply Hincl, R2; [exact H1 | apply Hsi; auto]|].
    split; [intros H; apply Hincl, R3, H|].
    split; [intros H; apply Hincl, R4, H|].
    split; [intros H1 H2; apply Hincl, R5; [exact H1 | apply Hsp; auto]|].
    intros k task Hk. destruct (R6 k task Hk) as [T1 T2].
    split; intros H; apply Hincl; auto.
Qed.

(** C9 on two notes that share an id: the second one is reported. *)
Lemma validate_notes_reports_witness :
  In "Note[1]: Duplicate id 'note-001'"
     (Validators.validate_notes
        [Scenario.home_a; set_parents Scenario.home_a None]).
Proof.
  destruct (validate_notes_reports
              [Scenario.home_a; set_parents Scenario.home_a None])
    as [_ H].
  destruct (H 1 (set_parents Scenario.home_a None) eq_refl) as [_ [Hd _]].
  apply Hd; [discriminate | simpl; tauto].
Defined.

(* ================================================================== *)
(** ** The Groceries scenario *)

Section Household.
Variables gid hid : string.
Variable frames : nat.

(** C1, as stated, fails: right after parent identification Groceries has
    two parents, its Archive folder first, and path assignment places it
    in Archive. *)
Lemma groceries_lands_in_archive :
  Py.map (map Scenario.placement)
         (AssignFullPaths.assign_full_paths Py.default_recursion_limit
            (Scenario.identified (Scenario.household "n1" "n2")))
  = Py.Ok
      [ ("Groceries",
         Some [Spec.folder_parent "Archive"; Spec.note_parent "n2" "Home"],
         Some "Archive");
        ("Home", Some [Spec.folder_parent "Areas"], Some "Areas") ].
Proof. reflexivity. Qed.

(** C1, amended: parent identification gives Groceries the parents
    Archive (its PARA folder) and Home (the note), in that order; once
    the Archive entry of multi-parent notes is stripped (script K), its
    parents are the note Home alone and path assignment yields
    Areas/Home (the walk from Groceries is four levels deep). *)
Theorem groceries_under_home_after_strip :
  map Scenario.placement (Scenario.identified (Scenario.household gid hid))
  = [ ("Groceries",
       Some [Spec.folder_parent "Archive"; Spec.note_parent hid "Home"],
       None);
      ("Home", Some [Spec.folder_parent "Areas"], None) ]
  /\ Py.map (map Scenario.placement)
       (AssignFullPaths.assign_full_paths (4 + frames)
          (StripArchive.strip_archive_from_multi
             (Scenario.identified (Scenario.household gid hid))))
     = Py.Ok
         [ ("Groceries", Some [Spec.note_parent hid "Home"],
            Some "Areas/Home");
           ("Home", Some [Spec.folder_parent "Areas"], Some "Areas") ].
Proof. split; reflexivity. Qed.

End Household.

(* ================================================================== *)
(** ** Path resolution *)

Module PathExamples.
Import AssignFullPaths.

Example self_cycle_paths :
  Py.map (map output_path) (assign_full_paths 4 Scenario.self_cycle)
  = Py.Ok [Some "A/A"].
Proof. reflexivity. Qed.

Example two_cycle_paths :
  Py.map (map output_path) (assign_full_paths 5 Scenario.two_cycle)
  = Py.Ok [Some "A/A/B"; Some "B/B/A"].
Proof. reflexivity. Qed.

Example five_cycle_paths :
  Py.map (map output_path) (assign_full_paths 8 Scenario.five_cycle)
  = Py.Ok [Some "A/A/E/D/C/B"; Some "B/B/A/E/D/C"; Some "C/C/B/A/E/D";
           Some "D/D/C/B/A/E"; Some "E/E/D/C/B/A"].
Proof. reflexivity. Qed.

(** With fewer levels than notes the walk round the five notes does not
    return. *)
Example five_cycle_short_stack :
  assign_full_paths 4 Scenario.five_cycle = Py.RecursionError.
Proof. reflexivity. Qed.

Example sanitize_examples :
  map sanitize_folder_name ["a<b>c: d/e. . "; "..."; "Learn AI"]
  = ["a_b_c_ d_e"; "untitled"; "Learn AI"].
Proof. reflexivity. Qed.

End PathExamples.

(** C6, as stated, fails: on a cycle of 1200 notes the walk from the
    first note is still descending when the interpreter stack is full,
    even with all the 1000 levels of the default limit free; the call
    raises [RecursionError] and no note gets an output path. *)
Lemma long_cycle_overflows :
  AssignFullPaths.get_full_path Py.default_recursion_limit "N0"
    (AssignFullPaths.build_parent_tree (Scenario.long_cycle 1200))
    (AssignFullPaths.build_para_map (Scenario.long_cycle 1200)) []
  = Py.RecursionError
  /\ AssignFullPaths.assign_full_paths Py.default_recursion_limit
       (Scenario.long_cycle 1200)
     = Py.RecursionError.
Proof. vm_compute. split; reflexivity. Qed.

(** C6, amended: for every batch, cyclic or not, that has at least
    three notes fewer than there are levels free on the interpreter
    stack, the walk of [get_full_path] returns a non-empty path for every
    title; a title already in [visited] ends the walk with its sanitized
    form; and [assign_full_paths] returns, leaving every note with a
    non-empty [output_path]. *)
Theorem path_resolution_terminates (notes : list Note) (frames : nat) :
  List.length notes + 3 <= frames ->
  let parent_map := AssignFullPaths.build_parent_tree notes in
  let para_map := AssignFullPaths.build_para_map notes in
  (forall note_title, exists p,
      AssignFullPaths.get_full_path frames note_title parent_map para_map []
      = Py.Ok p
      /\ p <> "")
  /\ (forall note_title visited,
        PyStr.mem note_title visited = true ->
        AssignFullPaths.get_full_path frames note_title parent_map para_map
          visited
        = Py.Ok (AssignFullPaths.sanitize_folder_name note_title))
  /\ exists out,
       AssignFullPaths.assign_full_paths frames notes = Py.Ok out
       /\ List.length out = List.length notes
       /\ forall n, In n out -> exists p, output_path n = Some p /\ p <> "".
Proof.
  intros Hle parent_map para_map.
  assert (Hall : forall t, exists p,
             AssignFullPaths.get_full_path frames t parent_map para_map []
             = Py.Ok p /\ p <> "").
  { intros t. apply PathFacts.get_full_path_enough.
    pose proof (PathFacts.unvisited_le parent_map []) as H1.
    pose proof (PathFacts.build_parent_tree_length notes) as H2.
    fold parent_map in H2. lia. }
  split; [exact Hall | split].
  - intros t visited Hv.
    destruct frames as [|[|[|frames]]]; [lia | lia | lia |].
    cbn [AssignFullPaths.get_full_path]. now rewrite Hv.
  - rewrite PathFacts.assign_full_paths_loop by lia.
    fold parent_map. fold para_map.
    assert (G : forall l : list Note,
               exists out,
                 Py.for_each
                   (fun note =>
                      Py.bind
                        (AssignFullPaths.get_full_path frames (title note)
                           parent_map para_map [])
                        (fun full_path =>
                           Py.Ok (set_output_path note (Some full_path))))
                   l = Py.Ok out
                 /\ List.length out = List.length l
                 /\ forall n, In n out ->
                      exists p, output_path n = Some p /\ p <> "").
    { induction l as [|a l [out [Hout [Hlen Hp]]]].
      - exists []. repeat split. intros n [].
      - destruct (Hall (title a)) as [p [Hpa Hne]].
        exists (set_output_path a (Some p) :: out).
        cbn [Py.for_each]. rewrite Hpa, Hout. cbn [Py.bind].
        split; [reflexivity | split; [simpl; now rewrite Hlen|]].
        intros n [<- | Hn]; [exists p; now split | now apply Hp]. }
    apply G.
Qed.

(** The cycles of C6, resolved through the theorem. *)
Lemma path_resolution_terminates_witness :
  (exists p,
      AssignFullPaths.get_full_path 8 "A"
        (AssignFullPaths.build_parent_tree Scenario.five_cycle)
        (AssignFullPaths.build_para_map Scenario.five_cycle) [] = Py.Ok p
      /\ p <> "")
  /\ AssignFullPaths.get_full_path 5 "A"
       (AssignFullPaths.build_parent_tree Scenario.two_cycle)
       (AssignFullPaths.build_para_map Scenario.two_cycle) ["B"; "A"]
     = Py.Ok "A"
  /\ exists out,
       AssignFullPaths.assign_full_paths 4 Scenario.self_cycle = Py.Ok out
       /\ List.length out = 1.
Proof.
  destruct (path_resolution_terminates Scenario.five_cycle 8) as [H5 _];
    [simpl; lia|].
  destruct (path_resolution_terminates Scenario.two_cycle 5) as [_ [H2 _]];
    [simpl; lia|].
  destruct (path_resolution_terminates Scenario.self_cycle 4)
    as [_ [_ [out [H1 [Hlen _]]]]]; [simpl; lia|].
  split; [| split].
  - destruct (H5 "A") as [p [Hp Hne]]. exists p. split; assumption.
  - apply (H2 "A" ["B"; "A"]). reflexivity.
  - exists out. split; assumption.
Defined.

Module IdempotenceFacts.
Import AssignFullPaths Spec.

Lemma build_parent_tree_graph (notes1 notes2 : list Note) :
  map graph_state notes1 = map graph_state notes2 ->
  build_parent_tree notes1 = build_parent_tree notes2.
Proof.
  unfold build_parent_tree. generalize (@Dict.empty (option string)).
  revert notes2.
  induction notes1 as [|a l1 IH]; intros [|b l2] d H; simpl in *;
    try discriminate; [reflexivity|].
  unfold graph_state in H at 1 3. injection H as Ht Hp Hf Hl.
  unfold first_parent. rewrite Ht, Hp. now apply IH.
Qed.

Lemma build_para_map_graph (notes1 notes2 : list Note) :
  map graph_state notes1 = map graph_state notes2 ->
  build_para_map notes1 = build_para_map notes2.
Proof.
  unfold build_para_map. generalize (@Dict.empty (option string)).
  revert notes2.
  induction notes1 as [|a l1 IH]; intros [|b l2] d H; simpl in *;
    try discriminate; [reflexivity|].
  unfold graph_state in H at 1 3. injection H as Ht Hp Hf Hl.
  rewrite Ht, Hf. now apply IH.
Qed.

(** A run that returns has written output paths and nothing else. *)
Lemma assign_graph_state (frames : nat) (notes out : list Note) :
  assign_full_paths frames notes = Py.Ok out ->
  map graph_state out = map graph_state notes.
Proof.
  intros H. apply PathFacts.assign_full_paths_inv in H.
  induction H as [|n n' l l' [p [_ ->]] _ IH]; [reflexivity|].
  cbn [map]. now rewrite IH.
Qed.

(** The output paths of the loop, read off the titles alone. *)
Lemma output_paths_titles (g : string -> Py.result string)
    (notes : list Note) :
  Py.map (map output_path)
    (Py.for_each
       (fun note =>
          Py.bind (g (title note))
                  (fun full_path =>
                     Py.Ok (set_output_path note (Some full_path))))
       notes)
  = Py.for_each (fun t => Py.map Some (g t)) (map title notes).
Proof.
  induction notes as [|n notes IH]; [reflexivity|].
  cbn [Py.for_each map]. unfold Py.map in *.
  destruct (g (title n)) as [p|]; [|reflexivity]. cbn [Py.bind].
  rewrite <- IH.
  destruct (Py.for_each _ notes); reflexivity.
Qed.

Lemma output_paths_graph (frames : nat) (notes1 notes2 : list Note) :
  map graph_state notes1 = map graph_state notes2 ->
  Py.map (map output_path) (assign_full_paths frames notes1)
  = Py.map (map output_path) (assign_full_paths frames notes2).
Proof.
  intros H.
  destruct (Nat.le_gt_cases frames 1) as [Hs | Hroom].
  { now rewrite !PathFacts.assign_full_paths_short. }
  rewrite !PathFacts.assign_full_paths_loop by exact Hroom.
  rewrite (build_parent_tree_graph _ _ H), (build_para_map_graph _ _ H).
  set (g := fun t => get_full_path frames t (build_parent_tree notes2)
                                   (build_para_map notes2) []).
  pose proof (output_paths_titles g notes1) as H1.
  pose proof (output_paths_titles g notes2) as H2.
  cbv beta delta [g] in H1, H2. rewrite H1, H2.
  assert (Ht : map title notes1 = map title notes2).
  { apply (f_equal (map (fun s => fst (fst s)))) in H.
    rewrite !map_map in H. exact H. }
  now rewrite Ht.
Qed.

(** A second run on what a first run returned: the same batch again. *)
Lemma assign_twice (frames : nat) (notes out : list Note) :
  assign_full_paths frames notes = Py.Ok out ->
  assign_full_paths frames out = Py.Ok out.
Proof.
  intros H. pose proof (assign_graph_state _ _ _ H) as Hg.
  pose proof (PathFacts.assign_full_paths_inv _ _ _ H) as Hinv.
  assert (Hroom : 1 < frames).
  { destruct frames as [|[|frames]]; [discriminate | discriminate | lia]. }
  rewrite PathFacts.assign_full_paths_loop by exact Hroom.
  rewrite (build_parent_tree_graph _ _ Hg), (build_para_map_graph _ _ Hg).
  clear H Hg.
  set (pm := build_parent_tree notes) in *.
  set (pa := build_para_map notes) in *. clearbody pm pa.
  induction Hinv as [|n n' l l' [p [Hp ->]] _ IH]; [reflexivity|].
  cbn [Py.for_each]. cbn [title set_output_path]. rewrite Hp.
  cbn [Py.bind]. rewrite IH. reflexivity.
Qed.

End IdempotenceFacts.

(** C7: path assignment reads only the titles, parents and para_folder of
    the batch: two batches that agree on these get the same output paths,
    note by note (or both no result); hence a second run on the result
    of a first run changes nothing. *)
Theorem assign_full_paths_idempotent (frames : nat)
    (notes notes' : list Note) :
  map Spec.graph_state notes' = map Spec.graph_state notes ->
  Py.map (map output_path) (AssignFullPaths.assign_full_paths frames notes')
  = Py.map (map output_path) (AssignFullPaths.assign_full_paths frames notes)
  /\ Py.bind (AssignFullPaths.assign_full_paths frames notes)
             (AssignFullPaths.assign_full_paths frames)
     = AssignFullPaths.assign_full_paths frames notes.
Proof.
  intros H. split.
  - now apply IdempotenceFacts.output_paths_graph.
  - destruct (AssignFullPaths.assign_full_paths frames notes) as [out|]
      eqn:Hout; [|reflexivity].
    cbn [Py.bind]. now apply (IdempotenceFacts.assign_twice frames notes).
Qed.

(** C7 on the five-note cycle, against a copy with stale output paths. *)
Lemma assign_full_paths_idempotent_witness :
  Py.map (map output_path)
    (AssignFullPaths.assign_full_paths 8
       (map (fun n => set_output_path n (Some "stale")) Scenario.five_cycle))
  = Py.map (map output_path)
      (AssignFullPaths.assign_full_paths 8 Scenario.five_cycle)
  /\ Py.bind (AssignFullPaths.assign_full_paths 8 Scenario.five_cycle)
             (AssignFullPaths.assign_full_paths 8)
     = AssignFullPaths.assign_full_paths 8 Scenario.five_cycle.
Proof.
  apply (assign_full_paths_idempotent 8 Scenario.five_cycle
           (map (fun n => set_output_path n (Some "stale"))
                Scenario.five_cycle)).
  reflexivity.
Defined.

(* ================================================================== *)
(** ** Project reorganization *)

(** C8: step 2 leaves a note untouched unless its [output_path] is exactly
    Projects (and it is tagged Project); a note at that root tagged both
    Parked and Done goes to Projects/z_Parked, the Parked rule coming
    first. *)
Theorem step2_root_only_parked_first (notes : list Note) (i : nat)
    (note : Note) :
  nth_error notes i = Some note ->
  exists note',
    nth_error (OrdinalPaths.step2_apply_project_reorganization notes) i
    = Some note'
    /\ (output_path note <> Some "Projects" -> note' = note)
    /\ (In "Project" (tags note) -> output_path note = Some "Projects" ->
        In "Parked" (tags note) ->
        output_path note' = Some "Projects/z_Parked"
        /\ para_folder note' = Some "Projects").
Proof.
  intros Hn. exists (OrdinalPaths.step2_note note). split; [| split].
  - unfold OrdinalPaths.step2_apply_project_reorganization.
    now apply map_nth_error.
  - intros Hp. unfold OrdinalPaths.step2_note.
    destruct (PyStr.mem "Project" (tags note)); cbn [negb]; [|reflexivity].
    destruct (output_path note) as [p|] eqn:Ho.
    + destruct (p =? "Projects") eqn:E; cbn [negb]; [|reflexivity].
      apply String.eqb_eq in E. subst p. contradiction.
    + reflexivity.
  - intros Hproj Hroot Hparked. unfold OrdinalPaths.step2_note.
    apply mem_In in Hproj, Hparked.
    rewrite Hproj, Hroot, Hparked. split; reflexivity.
Qed.

(** C8 on two projects: one at the Projects root tagged Done and Parked,
    one nested under the note Garden. *)
Lemma step2_root_only_parked_first_witness :
  (exists note',
      nth_error (OrdinalPaths.step2_apply_project_reorganization
                   [Scenario.parked_and_done; Scenario.nested_project]) 0
      = Some note'
      /\ output_path note' = Some "Projects/z_Parked"
      /\ para_folder note' = Some "Projects")
  /\ nth_error (OrdinalPaths.step2_apply_project_reorganization
                  [Scenario.parked_and_done; Scenario.nested_project]) 1
     = Some Scenario.nested_project.
Proof.
  split.
  - destruct (step2_root_only_parked_first
                [Scenario.parked_and_done; Scenario.nested_project] 0
                Scenario.parked_and_done eq_refl) as [n' [Hn [_ Hp]]].
    exists n'. split; [exact Hn|].
    apply Hp; [simpl; tauto | reflexivity | simpl; tauto].
  - destruct (step2_root_only_parked_first
                [Scenario.parked_and_done; Scenario.nested_project] 1
                Scenario.nested_project eq_refl) as [n' [Hn [Hsame _]]].
    rewrite Hn. f_equal. apply Hsame. discriminate.
Defined.

(* ================================================================== *)
(** ** The multi-parent resolver *)

Module ResolverFacts.
Import ResolveJ.

Lemma in_keys_set {V} (d : Dict.t V) (k x : string) (v : V) :
  In x (Dict.keys (Dict.set d k v)) -> x = k \/ In x (Dict.keys d).
Proof.
  induction d as [|[k' v'] d IH]; simpl.
  - intros [<- | []]. now left.
  - destruct (k' =? k) eqn:E; simpl.
    + intros [<- | H]; right; [now left | now right].
    + intros [<- | H]; [right; now left|].
      destruct (IH H) as [-> | Hin]; [now left | right; now right].
Qed.

Lemma keys_set_NoDup {V} (d : Dict.t V) (k : string) (v : V) :
  NoDup (Dict.keys d) -> NoDup (Dict.keys (Dict.set d k v)).
Proof.
  induction d as [|[k' v'] d IH]; simpl; intros Hnd.
  - repeat constructor. intros [].
  - apply NoDup_cons_iff in Hnd. destruct Hnd as [Hnin Hnd].
    destruct (k' =? k) eqn:E; simpl.
    + now constructor.
    + constructor; [| now apply IH].
      intros Hin. apply in_keys_set in Hin. destruct Hin as [-> | Hin].
      * now rewrite String.eqb_refl in E.
      * contradiction.
Qed.

Lemma parse_line_NoDup (st : Dict.t (list string) * option string)
    (line : string) :
  NoDup (Dict.keys (fst st)) -> NoDup (Dict.keys (fst (parse_line st line))).
Proof.
  destruct st as [selections current_note]. unfold parse_line. intros Hnd.
  destruct (note_match line); [now apply keys_set_NoDup|].
  destruct current_note as [cn|]; [|assumption].
  destruct (PyStr.truthy cn && _); [|assumption].
  destruct (Dict.get selections cn); [now apply keys_set_NoDup | assumption].
Qed.

Lemma parse_text_NoDup (content : string) :
  NoDup (Dict.keys (parse_text content)).
Proof.
  unfold parse_text.
  assert (G : forall lines st, NoDup (Dict.keys (fst st)) ->
                NoDup (Dict.keys (fst (fold_left parse_line lines st)))).
  { induction lines as [|l lines IH]; intros st H; simpl; [assumption|].
    apply IH. now apply parse_line_NoDup. }
  apply G. constructor.
Qed.

(** The titles [categorize_selections] appends to [incomplete]. *)
Lemma categorize_incomplete (selections : Dict.t (list string)) :
  forall complete incomplete,
    snd (fold_left categorize_step selections (complete, incomplete))
    = incomplete
      ++ map fst (filter (fun item => negb (Nat.eqb (List.length (snd item)) 1))
                         selections).
Proof.
  induction selections as [|[t sel] rest IH]; intros c inc; simpl.
  - now rewrite app_nil_r.
  - destruct sel as [|p [|q sel']]; simpl; rewrite IH;
      try (rewrite <- app_assoc); reflexivity.
Qed.

Lemma categorize_other (selections : Dict.t (list string)) (t : string) :
  forall complete incomplete,
    ~ In t (Dict.keys selections) ->
    Dict.get (fst (fold_left categorize_step selections (complete, incomplete))) t
    = Dict.get complete t.
Proof.
  induction selections as [|[k sel] rest IH]; intros c inc Hnin; simpl;
    [reflexivity|].
  simpl in Hnin.
  assert (Hk : k <> t) by tauto. assert (Hr : ~ In t (Dict.keys rest)) by tauto.
  destruct sel as [|p [|q sel']]; rewrite IH by assumption;
    try reflexivity.
  now apply DictFacts.get_set_other.
Qed.

(** A section with one checked line ends up in [complete] with it. *)
Lemma categorize_complete (selections : Dict.t (list string)) (t x : string) :
  forall complete incomplete,
    NoDup (Dict.keys selections) ->
    Dict.get selections t = Some [x] ->
    Dict.get (fst (fold_left categorize_step selections (complete, incomplete))) t
    = Some x.
Proof.
  induction selections as [|[k sel] rest IH]; intros c inc Hnd Hget;
    simpl in *; [discriminate|].
  apply NoDup_cons_iff in Hnd. destruct Hnd as [Hnin Hnd].
  destruct (k =? t) eqn:E.
  - apply String.eqb_eq in E. subst k. injection Hget as ->.
    rewrite categorize_other by assumption.
    apply DictFacts.get_set_same.
  - destruct sel as [|p [|q sel']]; now apply IH.
Qed.


End ResolverFacts.

(** The first half of C4: a section is complete exactly when it has one
    checked line, whatever the line says. *)
Lemma categorize_counts_only (selections : Dict.t (list string)) :
  snd (ResolveJ.categorize_selections selections)
  = map fst (filter (fun item => negb (Nat.eqb (List.length (snd item)) 1))
                    selections).
Proof.
  unfold ResolveJ.categorize_selections.
  now rewrite ResolverFacts.categorize_incomplete.
Qed.

(** C4, second half, fails on script J: the note X has the parents A, B
    and C, and its section has the single checked line Z.  The run treats
    the section as complete, empties the parents of X and deletes the
    checklist, where script I, on the same selection, leaves X as it is
    and reports it as invalid. *)
Theorem unmatched_selection_empties_parents :
  ResolveJ.transform [Scenario.x_note] (Some (Scenario.checklist_for "Z"))
  = ([set_parents Scenario.x_note (Some [])], None)
  /\ ResolveI.apply_selections [Scenario.x_note] [("X", Some "Z")]
     = ([Scenario.x_note], ["X"]).
Proof. split; reflexivity. Qed.

(** C10: when the checklist exists and one of its sections has no checked
    line or several, a run returns the batch as it was, rewrites the
    checklist, and [main] exits with status 0 without saving a batch. *)
Theorem incomplete_checklist_suspends (notes : list Note)
    (content response : string) (t : string) (sel : list string) :
  In (t, sel) (ResolveJ.parse_text content) ->
  List.length sel <> 1 ->
  exists complete incomplete,
    ResolveJ.categorize_selections (ResolveJ.parse_text content)
    = (complete, incomplete)
    /\ ResolveJ.transform notes (Some content)
       = (notes,
          Some (ResolveJ.rewrite_resolution_file notes complete incomplete))
    /\ ResolveJ.main notes (Some content) response
       = (ResolveJ.exited 0,
          Some (ResolveJ.rewrite_resolution_file notes complete incomplete)).
Proof.
  intros Hin Hlen.
  pose proof (categorize_counts_only (ResolveJ.parse_text content)) as Hinc.
  assert (Hne : snd (ResolveJ.categorize_selections
                       (ResolveJ.parse_text content)) <> []).
  { rewrite Hinc. intros Hnil.
    assert (Hf : In (t, sel)
               (filter (fun item => negb (Nat.eqb (List.length (snd item)) 1))
                       (ResolveJ.parse_text content))).
    { apply filter_In. split; [assumption|]. simpl.
      destruct (Nat.eqb (List.length sel) 1) eqn:E; [|reflexivity].
      apply Nat.eqb_eq in E. contradiction. }
    apply (in_map fst) in Hf. rewrite Hnil in Hf. exact Hf. }
  unfold ResolveJ.main, ResolveJ.transform, ResolveJ.parse_resolution_file.
  destruct (ResolveJ.categorize_selections (ResolveJ.parse_text content))
    as [complete incomplete].
  exists complete, incomplete. simpl in Hne.
  destruct incomplete as [|x rest]; [contradiction|].
  repeat split.
Qed.

(** C10 on the note X and a checklist whose section X is unchecked. *)
Lemma incomplete_checklist_suspends_witness :
  exists complete incomplete,
    ResolveJ.categorize_selections (ResolveJ.parse_text Scenario.checklist_open)
    = (complete, incomplete)
    /\ ResolveJ.transform [Scenario.x_note] (Some Scenario.checklist_open)
       = ([Scenario.x_note],
          Some (ResolveJ.rewrite_resolution_file [Scenario.x_note]
                  complete incomplete))
    /\ ResolveJ.main [Scenario.x_note] (Some Scenario.checklist_open) "y"
       = (ResolveJ.exited 0,
          Some (ResolveJ.rewrite_resolution_file [Scenario.x_note]
                  complete incomplete)).
Proof.
  apply (incomplete_checklist_suspends
           [Scenario.x_note] Scenario.checklist_open "y" "X" []).
  - vm_compute. tauto.
  - simpl. lia.
Defined.

(** C2 fails on script J.  Start from the note X with its three parents
    and no checklist; the first run writes the checklist, and each round
    checks the first open box of every section and runs the resolver
    again.  After any number of rounds X still has its three parents and
    the checklist still exists: the Instructions header is read as a
    section with no checked line, so no run ever finds every section
    complete. *)
Theorem checklist_never_completes (k : nat) :
  fst (Editor.rounds k (ResolveJ.transform [Scenario.x_note] None))
  = [Scenario.x_note]
  /\ List.length
       (ResolveJ.get_multi_parent_notes
          (fst (Editor.rounds k (ResolveJ.transform [Scenario.x_note] None))))
     = 1
  /\ exists text,
       snd (Editor.rounds k (ResolveJ.transform [Scenario.x_note] None))
       = Some text.
Proof.
  set (s0 := ResolveJ.transform [Scenario.x_note] None).
  assert (Hfix : Editor.round (Editor.rounds 2 s0) = Editor.rounds 2 s0)
    by (vm_compute; reflexivity).
  assert (Hstay : forall j, Editor.rounds j (Editor.rounds 2 s0)
                            = Editor.rounds 2 s0).
  { induction j as [|j IH]; [reflexivity|].
    change (Editor.rounds (S j) (Editor.rounds 2 s0))
      with (Editor.rounds j (Editor.round (Editor.rounds 2 s0))).
    now rewrite Hfix. }
  assert (Hk : Editor.rounds k s0 = Editor.rounds (Nat.min k 2) s0).
  { destruct k as [|[|k]]; [reflexivity | reflexivity |].
    change (Editor.rounds (S (S k)) s0)
      with (Editor.rounds k (Editor.rounds 2 s0)).
    rewrite Hstay. now replace (Nat.min (S (S k)) 2) with 2 by lia. }
  rewrite Hk.
  assert (Hmin : Nat.min k 2 = 0 \/ Nat.min k 2 = 1 \/ Nat.min k 2 = 2)
    by lia.
  destruct Hmin as [-> | [-> | ->]];
    (split; [vm_compute; reflexivity
            | split; [vm_compute; reflexivity
                     | eexists; vm_compute; reflexivity]]).
Qed.

(* ================================================================== *)
(** ** Parent identification *)

Module IdentifyFacts.
Import IdentifyParaParents.

Lemma index_other (notes : list Note) (k : string) :
  forall d, (forall n, In n notes -> title n <> k) ->
    Dict.get (fold_left (fun d note => Dict.set d (title note) note) notes d) k
    = Dict.get d k.
Proof.
  induction notes as [|a notes IH]; intros d H; simpl; [reflexivity|].
  rewrite IH by (intros n Hn; apply H; now right).
  apply DictFacts.get_set_other. apply H. now left.
Qed.

(** With unique titles the index maps every title to its note. *)
Lemma index_lookup (notes : list Note) (note : Note) :
  NoDup (map title notes) -> In note notes ->
  Dict.get (build_title_index notes) (title note) = Some note.
Proof.
  unfold build_title_index, IdentifyParents.build_title_index.
  generalize (@Dict.empty Note).
  induction notes as [|a notes IH]; intros d Hnd Hin; [destruct Hin|].
  simpl in Hnd. apply NoDup_cons_iff in Hnd. destruct Hnd as [Hnin Hnd].
  simpl. destruct Hin as [-> | Hin].
  - rewrite index_other.
    + apply DictFacts.get_set_same.
    + intros n Hn Heq. apply Hnin. rewrite <- Heq. now apply in_map.
  - now apply IH.
Qed.

(** A key of the index is the title of the note stored under it. *)
Lemma index_key (notes : list Note) (k : string) (n : Note) :
  Dict.get (build_title_index notes) k = Some n -> title n = k.
Proof.
  unfold build_title_index, IdentifyParents.build_title_index.
  assert (G : forall d,
             (forall k n, Dict.get d k = Some n -> title n = k) ->
             forall k n,
               Dict.get (fold_left (fun d note => Dict.set d (title note) note)
                                   notes d) k = Some n -> title n = k).
  { induction notes as [|a notes IH]; intros d Hd; simpl; [exact Hd|].
    apply IH. intros k' n'.
    destruct (String.eqb (title a) k') eqn:E.
    - apply String.eqb_eq in E. subst k'.
      rewrite DictFacts.get_set_same. now intros [= <-].
    - rewrite DictFacts.get_set_other; [apply Hd|].
      intros Heq. rewrite Heq, String.eqb_refl in E. discriminate. }
  apply G. intros k' n' H. discriminate H.
Qed.

Section TagLoop.
Variable title_index : Dict.t Note.
Hypothesis index_key' :
  forall k n, Dict.get title_index k = Some n -> title n = k.
Variable note : Note.
Hypothesis self_indexed : Dict.get title_index (title note) = Some note.

Lemma tag_loop_mono (tgs : list string) :
  forall ps ids p, In p ps ->
    In p (fst (fold_left (tag_step title_index) tgs (ps, ids))).
Proof.
  induction tgs as [|tag tgs IH]; intros ps ids p Hp; simpl; [assumption|].
  destruct (Dict.get title_index tag) as [pn|]; [|now apply IH].
  destruct (PyStr.mem (title pn) ids); apply IH; [assumption|].
  apply in_or_app. now left.
Qed.

Lemma tag_loop_adds_self (tgs : list string) :
  forall ps ids, In (title note) tgs ->
    In (Spec.note_parent (id note) (title note))
       (fst (fold_left (tag_step title_index) tgs (ps, ids)))
    \/ In (title note) ids.
Proof.
  induction tgs as [|tag tgs IH]; intros ps ids Hin; [destruct Hin|].
  simpl. destruct Hin as [-> | Hin].
  - rewrite self_indexed.
    destruct (PyStr.mem (title note) ids) eqn:Hm.
    + right. now apply mem_In.
    + left. apply tag_loop_mono. apply in_or_app. right. now left.
  - destruct (Dict.get title_index tag) as [pn|] eqn:Hg; [|now apply IH].
    destruct (PyStr.mem (title pn) ids) eqn:Hm; [now apply IH|].
    destruct (IH (ps ++ [mkParent (id pn) (title pn) (Some note_t)])
                 (title pn :: ids) Hin) as [H | [H | H]].
    + now left.
    + left. apply tag_loop_mono. apply in_or_app. right. left.
      pose proof (index_key' _ _ Hg) as Htag.
      rewrite <- Htag, H, self_indexed in Hg. injection Hg as <-.
      reflexivity.
    + now right.
Qed.

Lemma tag_loop_self_origin (tgs : list string) :
  forall ps ids,
    In (Spec.note_parent (id note) (title note))
       (fst (fold_left (tag_step title_index) tgs (ps, ids))) ->
    In (Spec.note_parent (id note) (title note)) ps
    \/ (In (title note) tgs /\ ~ In (title note) ids).
Proof.
  induction tgs as [|tag tgs IH]; intros ps ids Hin; simpl in Hin;
    [now left|].
  destruct (Dict.get title_index tag) as [pn|] eqn:Hg.
  2:{ destruct (IH _ _ Hin) as [H | [H1 H2]];
        [now left | right; split; [now right | assumption]]. }
  destruct (PyStr.mem (title pn) ids) eqn:Hm.
  1:{ destruct (IH _ _ Hin) as [H | [H1 H2]];
        [now left | right; split; [now right | assumption]]. }
  pose proof (index_key' _ _ Hg) as Htag.
  apply mem_false_not_In in Hm.
  destruct (IH _ _ Hin) as [H | [H1 H2]].
  - apply in_app_or in H. destruct H as [H | [H | []]]; [now left|].
    right. unfold Spec.note_parent in H. injection H as _ Ht.
    rewrite <- Ht. split; [left; now symmetry | assumption].
  - right. split; [now right|]. intros Hc. apply H2. now right.
Qed.

End TagLoop.

Lemma para_entry_ids (note : Note) (t : string) :
  t <> "" ->
  (In t (snd (para_entry note)) <-> para_folder note = Some t).
Proof.
  intros Hne. unfold para_entry.
  destruct (para_folder note) as [pf|]; simpl.
  - destruct (PyStr.truthy pf) eqn:E; simpl.
    + split; [intros [-> | []]; reflexivity | intros [= ->]; now left].
    + apply truthy_false in E. subst pf.
      split; [intros [] | intros [= H]; now symmetry in H].
  - split; [intros [] | discriminate].
Qed.

Lemma para_entry_not_note (note : Note) (nid ttl : string) :
  ~ In (Spec.note_parent nid ttl) (fst (para_entry note)).
Proof.
  unfold para_entry.
  destruct (para_folder note) as [pf|]; simpl; [|tauto].
  destruct (PyStr.truthy pf); simpl; [|tauto].
  intros [H | []]. discriminate H.
Qed.

End IdentifyFacts.

(** C5 fails on the code: the note Journal, tagged with its own title,
    comes out of parent identification as one of its own parents, under
    script 5 and under script 2 alike, although both scripts describe
    the parents they look for as other notes. *)
Theorem self_tag_becomes_parent :
  map parents
      (IdentifyParaParents.identify_parents_with_para
         (AssignParaFolder.transform [Scenario.journal]))
  = [Some [mkParent "Areas" "Areas" (Some para_folder_t);
           mkParent "n3" "Journal" (Some note_t)]]
  /\ map parents (IdentifyParents.identify_parents [Scenario.journal])
     = [Some [mkParent "n3" "Journal" None]].
Proof. split; reflexivity. Qed.


(* ================================================================== *)
(** * Further properties of the transforms *)

(** ** Validation and the metadata transforms *)

Module FieldFacts.
Import Validators Spec.

Lemma check_note_fields (i : nat) (si sp : list string) (a b : Note) :
  validated_fields a = validated_fields b ->
  check_note i si sp a = check_note i si sp b.
Proof.
  unfold validated_fields. intros H. injection H as Hi Ht Hp Hk.
  unfold check_note. now rewrite Hi, Ht, Hp, Hk.
Qed.

Lemma validate_loop_fields (notes1 : list Note) :
  forall notes2 i si sp,
    map validated_fields notes1 = map validated_fields notes2 ->
    validate_loop i si sp notes1 = validate_loop i si sp notes2.
Proof.
  induction notes1 as [|a l1 IH]; intros [|b l2] i si sp H;
    try discriminate; [reflexivity|].
  cbn [map] in H.
  pose proof (f_equal (@hd _ (validated_fields a)) H) as Hab.
  pose proof (f_equal (@tl _) H) as Hl. cbn [hd tl] in Hab, Hl.
  cbn [validate_loop].
  rewrite (check_note_fields i si sp a b Hab).
  destruct (check_note i si sp b) as [[errs si'] sp'].
  f_equal. now apply IH.
Qed.

Lemma validate_notes_fields (notes1 notes2 : list Note) :
  map validated_fields notes1 = map validated_fields notes2 ->
  validate_notes notes1 = validate_notes notes2.
Proof. apply validate_loop_fields. Qed.

(** A transform that maps each note to one with the same fields. *)
Lemma map_keeps_fields (f : Note -> Note) (notes : list Note) :
  (forall n, validated_fields (f n) = validated_fields n) ->
  map validated_fields (map f notes) = map validated_fields notes.
Proof.
  intros H. rewrite map_map. apply map_ext. exact H.
Qed.

Lemma store_parents_fields (n : Note) (ps : list Parent) :
  validated_fields (IdentifyParents.store_parents n ps) = validated_fields n.
Proof. destruct ps; reflexivity. Qed.

Lemma strip_note_fields (n : Note) :
  validated_fields (StripArchive.strip_note n) = validated_fields n.
Proof.
  unfold StripArchive.strip_note.
  destruct (Nat.leb _ 1); [reflexivity|].
  destruct (existsb _ _); reflexivity.
Qed.

Lemma step2_note_fields (n : Note) :
  validated_fields (OrdinalPaths.step2_note n) = validated_fields n.
Proof.
  unfold OrdinalPaths.step2_note.
  destruct (negb (PyStr.mem "Project" (tags n))); [reflexivity|].
  destruct (negb _); [reflexivity|].
  destruct (PyStr.mem "Parked" (tags n)); [reflexivity|].
  destruct (PyStr.mem "Done" (tags n)); reflexivity.
Qed.

Lemma para_or_root_fields (n : Note) :
  validated_fields (OrdinalPaths.para_or_root n) = validated_fields n.
Proof.
  unfold OrdinalPaths.para_or_root.
  destruct (para_folder n) as [pf|]; [destruct (PyStr.truthy pf)|];
    reflexivity.
Qed.

Lemma step3_note_fields (ap : list string) (current : list Note) (n : Note) :
  validated_fields (OrdinalPaths.step3_note ap current n)
  = validated_fields n.
Proof.
  unfold OrdinalPaths.step3_note.
  destruct (PyStr.mem (title n) ap); [reflexivity|].
  destruct (get_parents n) as [|p ps]; [apply para_or_root_fields|].
  destruct (PyStr.mem (p_title p) OrdinalPaths.PARA_FOLDERS); [reflexivity|].
  destruct (find _ current) as [pn|]; [|apply para_or_root_fields].
  destruct (output_path pn) as [pp|]; [|apply para_or_root_fields].
  destruct (PyStr.truthy pp); [reflexivity | apply para_or_root_fields].
Qed.

Lemma step3_loop_fields (ap : list string) (todo : list Note) :
  forall done,
    map validated_fields (OrdinalPaths.step3_loop ap done todo)
    = map validated_fields (done ++ todo).
Proof.
  induction todo as [|n rest IH]; intros done; simpl.
  - now rewrite app_nil_r.
  - rewrite IH, <- app_assoc, !map_app. simpl.
    now rewrite step3_note_fields.
Qed.

Lemma step4_note_fields (n : Note) :
  validated_fields (OrdinalPaths.step4_note n) = validated_fields n.
Proof.
  unfold OrdinalPaths.step4_note.
  destruct (negb _); [|reflexivity].
  destruct (negb _); reflexivity.
Qed.

Lemma P_assign_fields (frames : nat) (notes out : list Note) :
  AssignFullPaths.assign_full_paths frames notes = Py.Ok out ->
  map validated_fields out = map validated_fields notes.
Proof.
  intros H. apply PathFacts.assign_full_paths_map in H.
  destruct H as [-> _]. apply map_keeps_fields. intros n. reflexivity.
Qed.

Lemma U_transform_fields (frames : nat) (notes out : list Note) :
  OrdinalPaths.transform frames notes = Py.Ok out ->
  map validated_fields out = map validated_fields notes.
Proof.
  unfold OrdinalPaths.transform. intros H.
  destruct (OrdinalPaths.step1_assign_parent_paths frames notes)
    as [[notes1 ap]|] eqn:H1; [|discriminate].
  cbn [Py.bind] in H. injection H as <-.
  apply PathFacts.step1_map in H1. destruct H1 as [_ [-> _]].
  unfold OrdinalPaths.step4_apply_ordinals,
    OrdinalPaths.step3_assign_leaf_paths,
    OrdinalPaths.step2_apply_project_reorganization.
  rewrite (map_keeps_fields _ _ step4_note_fields).
  rewrite step3_loop_fields. cbn [app].
  rewrite (map_keeps_fields _ _ step2_note_fields).
  apply map_keeps_fields. intros n.
  destruct (PyStr.mem _ _); reflexivity.
Qed.

Lemma I_apply_fields (sel : Dict.t (option string)) (notes : list Note) :
  map validated_fields (fst (ResolveI.apply_selections notes sel))
  = map validated_fields notes.
Proof.
  induction notes as [|n rest IH]; [reflexivity|].
  cbn [ResolveI.apply_selections].
  destruct (ResolveI.apply_selections rest sel) as [rest' inv].
  cbn [fst] in IH.
  destruct (Dict.get sel (title n)) as [[s|]|]; cbn [fst map];
    try (now rewrite IH).
  destruct (Nat.eqb _ 1); cbn [fst map]; now rewrite IH.
Qed.

End FieldFacts.

(** X1: validation reads only the id, title, path and tasks of the notes,
    and none of the metadata transforms writes them: each transform
    leaves the list of validation messages of a batch as it was (for the
    two path transforms: of the batch they return). *)
Theorem transforms_keep_validation (notes : list Note) :
  (forall notes', map Spec.validated_fields notes'
                  = map Spec.validated_fields notes ->
     Validators.validate_notes notes' = Validators.validate_notes notes)
  /\ Validators.validate_notes (AssignParaFolder.transform notes)
     = Validators.validate_notes notes
  /\ Validators.validate_notes (IdentifyParents.identify_parents notes)
     = Validators.validate_notes notes
  /\ Validators.validate_notes
       (IdentifyParaParents.identify_parents_with_para notes)
     = Validators.validate_notes notes
  /\ Validators.validate_notes (StripArchive.strip_archive_from_multi notes)
     = Validators.validate_notes notes
  /\ (forall frames out,
        AssignFullPaths.assign_full_paths frames notes = Py.Ok out ->
        Validators.validate_notes out = Validators.validate_notes notes)
  /\ (forall frames out,
        OrdinalPaths.transform frames notes = Py.Ok out ->
        Validators.validate_notes out = Validators.validate_notes notes)
  /\ (forall selections,
        Validators.validate_notes (ResolveJ.apply_selections notes selections)
        = Validators.validate_notes notes)
  /\ (forall selections,
        Validators.validate_notes
          (fst (ResolveI.apply_selections notes selections))
        = Validators.validate_notes notes).
Proof.
  split; [intros notes' H; now apply FieldFacts.validate_notes_fields|].
  repeat split; intros;
    apply FieldFacts.validate_notes_fields;
    try (eapply FieldFacts.P_assign_fields; eassumption);
    try (eapply FieldFacts.U_transform_fields; eassumption);
    try apply FieldFacts.I_apply_fields;
    apply FieldFacts.map_keeps_fields; intros n;
    try apply FieldFacts.store_parents_fields;
    try apply FieldFacts.strip_note_fields;
    try reflexivity.
  unfold ResolveJ.apply_note. destruct (Dict.get _ _); reflexivity.
Qed.

(** X1 on the five-note cycle and a copy with other metadata. *)
Lemma transforms_keep_validation_witness :
  Validators.validate_notes
    (map (fun n => set_output_path n (Some "stale")) Scenario.five_cycle)
  = Validators.validate_notes Scenario.five_cycle.
Proof.
  destruct (transforms_keep_validation Scenario.five_cycle) as [H _].
  apply H. reflexivity.
Defined.

(* ================================================================== *)
(** ** PARA folder assignment *)

(** X2: the PARA folder of a note follows the priority Project, Area,
    ResourceTopic, with Archive for a note that has none of these tags;
    it is always one of the four folders that path resolution treats as
    roots; and assigning folders twice is the same as assigning once. *)
Theorem assign_para_folder_priority (note : Note) :
  (AssignParaFolder.assign_para_folder note = "Projects"
   <-> In "Project" (tags note))
  /\ (AssignParaFolder.assign_para_folder note = "Areas"
      <-> ~ In "Project" (tags note) /\ In "Area" (tags note))
  /\ (AssignParaFolder.assign_para_folder note = "Resources"
      <-> ~ In "Project" (tags note) /\ ~ In "Area" (tags note)
          /\ In "ResourceTopic" (tags note))
  /\ (AssignParaFolder.assign_para_folder note = "Archive"
      <-> ~ In "Project" (tags note) /\ ~ In "Area" (tags note)
          /\ ~ In "ResourceTopic" (tags note))
  /\ In (AssignParaFolder.assign_para_folder note)
        AssignFullPaths.PARA_FOLDERS
  /\ forall notes,
       AssignParaFolder.transform (AssignParaFolder.transform notes)
       = AssignParaFolder.transform notes.
Proof.
  unfold AssignParaFolder.assign_para_folder, AssignParaFolder.PARA_TAGS.
  cbn [AssignParaFolder.first_para_tag].
  destruct (PyStr.mem "Project" (tags note)) eqn:H1,
           (PyStr.mem "Area" (tags note)) eqn:H2,
           (PyStr.mem "ResourceTopic" (tags note)) eqn:H3;
    repeat match goal with
           | H : PyStr.mem _ _ = true |- _ => apply mem_In in H
           | H : PyStr.mem _ _ = false |- _ => apply mem_false_not_In in H
           end;
    (repeat split; intros;
     try discriminate; try contradiction; try tauto;
     try (simpl; tauto));
    unfold AssignParaFolder.transform; rewrite map_map; apply map_ext;
    intros n; reflexivity.
Qed.

(* ================================================================== *)
(** ** Stripping Archive from multi-parent notes *)

Module StripFacts.

Lemma filter_no_archive (ps : list Parent) :
  existsb (fun p => p_title p =? "Archive")
          (filter (fun p => negb (p_title p =? "Archive")) ps) = false.
Proof.
  induction ps as [|p ps IH]; simpl; [reflexivity|].
  destruct (p_title p =? "Archive") eqn:E; simpl; [exact IH|].
  now rewrite E.
Qed.

Lemma existsb_archive_false (ps : list Parent) :
  existsb (fun p => p_title p =? "Archive") ps = false ->
  forall p, In p ps -> p_title p <> "Archive".
Proof.
  intros H p Hin Heq.
  assert (Ht : existsb (fun p => p_title p =? "Archive") ps = true).
  { apply existsb_exists. exists p. split; [assumption|].
    now apply String.eqb_eq. }
  congruence.
Qed.

(** With distinct titles, at most one parent is titled Archive. *)
Lemma filter_archive_length (ps : list Parent) :
  NoDup (map p_title ps) ->
  List.length ps
  <= S (List.length (filter (fun p => negb (p_title p =? "Archive")) ps)).
Proof.
  induction ps as [|p ps IH]; simpl; intros Hnd; [lia|].
  apply NoDup_cons_iff in Hnd. destruct Hnd as [Hnin Hnd].
  destruct (p_title p =? "Archive") eqn:E; simpl; [|specialize (IH Hnd); lia].
  apply String.eqb_eq in E.
  assert (Hall : filter (fun p => negb (p_title p =? "Archive")) ps = ps).
  { clear IH Hnd. induction ps as [|q ps IHp]; simpl; [reflexivity|].
    simpl in Hnin.
    destruct (p_title q =? "Archive") eqn:Eq; simpl.
    - apply String.eqb_eq in Eq. exfalso. apply Hnin. left. congruence.
    - f_equal. apply IHp. tauto. }
  rewrite Hall. lia.
Qed.

End StripFacts.

(** X3: stripping removes parents titled Archive and nothing else, and
    only from notes with more than one parent: no parent is added, every
    parent not titled Archive stays, a note left with more than one
    parent has none titled Archive, a second pass changes nothing, and a
    note whose parents have distinct titles never loses its last parent. *)
Theorem strip_archive_only (note : Note) :
  let note' := StripArchive.strip_note note in
  (forall p, In p (get_parents note') -> In p (get_parents note))
  /\ (forall p, In p (get_parents note) -> p_title p <> "Archive" ->
        In p (get_parents note'))
  /\ (1 < List.length (get_parents note') ->
      forall p, In p (get_parents note') -> p_title p <> "Archive")
  /\ StripArchive.strip_note note' = note'
  /\ (NoDup (map p_title (get_parents note)) ->
      get_parents note <> [] -> get_parents note' <> []).
Proof.
  intros note'. subst note'.
  assert (Hunf : forall n,
            StripArchive.strip_note n
            = if Nat.leb (List.length (get_parents n)) 1 then n
              else if existsb (fun p => p_title p =? "Archive")
                              (get_parents n)
                   then set_parents n
                          (Some (filter
                                   (fun p => negb (p_title p =? "Archive"))
                                   (get_parents n)))
                   else n) by reflexivity.
  rewrite (Hunf note).
  remember (get_parents note) as L eqn:HL.
  destruct (Nat.leb (List.length L) 1) eqn:Hlen.
  { rewrite Hunf, <- HL, Hlen. apply Nat.leb_le in Hlen.
    repeat split; auto. intros H. lia. }
  destruct (existsb (fun p => p_title p =? "Archive") L) eqn:Harch.
  2:{ rewrite Hunf, <- HL, Hlen, Harch.
      repeat split; auto.
      intros _. now apply StripFacts.existsb_archive_false. }
  rewrite Hunf.
  change (get_parents (set_parents note (Some ?x))) with x.
  split; [| split; [| split; [| split]]].
  - intros p Hp. apply filter_In in Hp. tauto.
  - intros p Hp Hne. apply filter_In. split; [assumption|].
    destruct (p_title p =? "Archive") eqn:E; [|reflexivity].
    apply String.eqb_eq in E. contradiction.
  - intros _. apply StripFacts.existsb_archive_false.
    apply StripFacts.filter_no_archive.
  - destruct (Nat.leb
                (List.length
                   (filter (fun p => negb (p_title p =? "Archive")) L)) 1);
      [reflexivity|].
    now rewrite StripFacts.filter_no_archive.
  - intros Hnd _ Hnil. apply Nat.leb_gt in Hlen.
    pose proof (StripFacts.filter_archive_length _ Hnd) as Hle.
    rewrite Hnil in Hle. simpl in Hle. lia.
Qed.

(** X3 on Groceries after scripts 4 and 5: Archive goes, Home stays. *)
Lemma strip_archive_only_witness :
  In (Spec.note_parent "n2" "Home")
     (get_parents
        (StripArchive.strip_note
           (set_parents (Scenario.groceries "n1")
              (Some [Spec.folder_parent "Archive";
                     Spec.note_parent "n2" "Home"]))))
  /\ get_parents
       (StripArchive.strip_note
          (set_parents (Scenario.groceries "n1")
             (Some [Spec.folder_parent "Archive";
                    Spec.note_parent "n2" "Home"])))
     <> [].
Proof.
  pose proof (strip_archive_only
    (set_parents (Scenario.groceries "n1")
       (Some [Spec.folder_parent "Archive"; Spec.note_parent "n2" "Home"])))
    as [_ [H2 [_ [_ H5]]]].
  split.
  - apply H2; [simpl; tauto | discriminate].
  - apply H5; [|discriminate].
    simpl. repeat constructor; simpl; intuition discriminate.
Defined.

(* ================================================================== *)
(** ** Project reorganization, again *)

(** X4: step 2 is idempotent, writes nothing but [output_path] and
    [para_folder], and leaves no note tagged Project and Parked, or
    Project and Done, at the path Projects. *)
Theorem step2_settles (notes : list Note) :
  OrdinalPaths.step2_apply_project_reorganization
    (OrdinalPaths.step2_apply_project_reorganization notes)
  = OrdinalPaths.step2_apply_project_reorganization notes
  /\ map (fun n => (Spec.validated_fields n, tags n, parents n))
         (OrdinalPaths.step2_apply_project_reorganization notes)
     = map (fun n => (Spec.validated_fields n, tags n, parents n)) notes
  /\ forall n,
       In n (OrdinalPaths.step2_apply_project_reorganization notes) ->
       In "Project" (tags n) ->
       In "Parked" (tags n) \/ In "Done" (tags n) ->
       output_path n <> Some "Projects".
Proof.
  unfold OrdinalPaths.step2_apply_project_reorganization.
  assert (Hcases : forall n,
            OrdinalPaths.step2_note n = n
            \/ (PyStr.mem "Project" (tags n) = true
                /\ output_path n = Some "Projects"
                /\ ((PyStr.mem "Parked" (tags n) = true
                     /\ OrdinalPaths.step2_note n
                        = set_para_folder
                            (set_output_path n (Some "Projects/z_Parked"))
                            (Some "Projects"))
                    \/ (PyStr.mem "Parked" (tags n) = false
                        /\ PyStr.mem "Done" (tags n) = true
                        /\ OrdinalPaths.step2_note n
                           = set_para_folder
                               (set_output_path n (Some "Archive"))
                               (Some "Archive"))))).
  { intros n. unfold OrdinalPaths.step2_note.
    destruct (PyStr.mem "Project" (tags n)) eqn:Hp; cbn [negb]; [|now left].
    destruct (output_path n) as [p|] eqn:Ho; [|now left].
    destruct (p =? "Projects") eqn:E; cbn [negb]; [|now left].
    apply String.eqb_eq in E. subst p.
    destruct (PyStr.mem "Parked" (tags n)) eqn:Hk.
    - right. repeat split; auto.
    - destruct (PyStr.mem "Done" (tags n)) eqn:Hd; [|now left].
      right. repeat split; auto. }
  split; [| split].
  - rewrite map_map. apply map_ext. intros n.
    destruct (Hcases n) as [Hs | [Hp [Ho [[Hk ->] | [Hk [Hd ->]]]]]];
      [now rewrite !Hs | |];
      unfold OrdinalPaths.step2_note; cbn [tags output_path set_para_folder
        set_output_path]; rewrite Hp; reflexivity.
  - rewrite map_map. apply map_ext. intros n.
    destruct (Hcases n) as [-> | [Hp [Ho [[Hk ->] | [Hk [Hd ->]]]]]];
      reflexivity.
  - intros n' Hin Hproj Hpd. apply in_map_iff in Hin.
    destruct Hin as [n [<- Hn]].
    destruct (Hcases n) as [Hsame | [Hp [Ho [[Hk Heq] | [Hk [Hd Heq]]]]]];
      [| rewrite Heq; discriminate | rewrite Heq; discriminate].
    rewrite Hsame in *. intros Hroot.
    apply mem_In in Hproj.
    unfold OrdinalPaths.step2_note in Hsame.
    rewrite Hproj, Hroot in Hsame. cbn [negb] in Hsame.
    rewrite String.eqb_refl in Hsame. cbn [negb] in Hsame.
    destruct Hpd as [Hk | Hd].
    + apply mem_In in Hk. rewrite Hk in Hsame.
      apply (f_equal output_path) in Hsame. simpl in Hsame. congruence.
    + apply mem_In in Hd. rewrite Hd in Hsame.
      destruct (PyStr.mem "Parked" (tags n));
        apply (f_equal output_path) in Hsame; simpl in Hsame; congruence.
Qed.

(** X4 on the project at the Projects root tagged Done and Parked. *)
Lemma step2_settles_witness :
  In "Parked" (tags (OrdinalPaths.step2_note Scenario.parked_and_done))
  /\ output_path (OrdinalPaths.step2_note Scenario.parked_and_done)
     <> Some "Projects".
Proof.
  split; [simpl; tauto|].
  destruct (step2_settles [Scenario.parked_and_done]) as [_ [_ H]].
  apply H; simpl; tauto.
Defined.

(* ================================================================== *)
(** ** Parent identification, again *)

Module ParentFacts.
Import IdentifyParaParents Spec.

Lemma nodup_snoc (l : list string) (x : string) :
  NoDup l -> ~ In x l -> NoDup (l ++ [x]).
Proof.
  induction l as [|a l IH]; simpl; intros Hnd Hnin.
  - repeat constructor. intros [].
  - apply NoDup_cons_iff in Hnd. destruct Hnd as [Ha Hnd].
    constructor.
    + intros Hin. apply in_app_or in Hin. destruct Hin as [H | [H | []]];
        [contradiction | subst; tauto].
    + apply IH; tauto.
Qed.

Lemma para_entry_inv (note : Note) : loop_inv (para_entry note).
Proof.
  unfold para_entry, loop_inv.
  destruct (para_folder note) as [pf|]; [destruct (PyStr.truthy pf)|];
    simpl; split; try constructor; try tauto; try constructor.
Qed.

Lemma tag_step_inv (idx : Dict.t Note) (st : list Parent * list string)
    (tag : string) :
  loop_inv st -> loop_inv (tag_step idx st tag).
Proof.
  destruct st as [ps ids]. unfold tag_step, loop_inv. simpl.
  intros [Hnd Hids].
  destruct (Dict.get idx tag) as [pn|]; [|tauto].
  destruct (PyStr.mem (title pn) ids) eqn:Hm; simpl; [tauto|].
  apply mem_false_not_In in Hm.
  rewrite map_app. simpl. split.
  - apply nodup_snoc; [assumption|]. now rewrite Hids.
  - intros t. rewrite in_app_iff, Hids. simpl. tauto.
Qed.

Lemma tag_loop_inv (idx : Dict.t Note) (tgs : list string) :
  forall st, loop_inv st -> loop_inv (fold_left (tag_step idx) tgs st).
Proof.
  induction tgs as [|tag tgs IH]; intros st H; simpl; [assumption|].
  apply IH. now apply tag_step_inv.
Qed.

(** The loop appends: what is in [parents] stays at its place. *)
Lemma tag_loop_prefix (idx : Dict.t Note) (tgs : list string) :
  forall ps ids, exists more,
    fst (fold_left (tag_step idx) tgs (ps, ids)) = ps ++ more.
Proof.
  induction tgs as [|tag tgs IH]; intros ps ids; simpl.
  - exists []. now rewrite app_nil_r.
  - destruct (Dict.get idx tag) as [pn|]; [|apply IH].
    destruct (PyStr.mem (title pn) ids); [apply IH|].
    destruct (IH (ps ++ [mkParent (id pn) (title pn) (Some note_t)])
                 (title pn :: ids)) as [more Hm].
    rewrite Hm, <- app_assoc. eexists. reflexivity.
Qed.

(** Where an entry of the result comes from. *)
Lemma tag_loop_origin (idx : Dict.t Note) (tgs : list string) (p : Parent) :
  forall ps ids,
    In p (fst (fold_left (tag_step idx) tgs (ps, ids))) ->
    In p ps
    \/ exists tag pn, In tag tgs /\ Dict.get idx tag = Some pn
                      /\ p = mkParent (id pn) (title pn) (Some note_t).
Proof.
  induction tgs as [|tag tgs IH]; intros ps ids Hin; simpl in Hin;
    [now left|].
  destruct (Dict.get idx tag) as [pn|] eqn:Hg.
  2:{ destruct (IH _ _ Hin) as [H | [t [n [H1 H2]]]]; [now left|].
      right. exists t, n. split; [now right | assumption]. }
  destruct (PyStr.mem (title pn) ids).
  1:{ destruct (IH _ _ Hin) as [H | [t [n [H1 H2]]]]; [now left|].
      right. exists t, n. split; [now right | assumption]. }
  destruct (IH _ _ Hin) as [H | [t [n [H1 H2]]]].
  - apply in_app_or in H. destruct H as [H | [H | []]]; [now left|].
    right. exists tag, pn. split; [now left | split; [assumption|]].
    now symmetry.
  - right. exists t, n. split; [now right | assumption].
Qed.

(** A tag found in the index has its title among the parents. *)
Lemma tag_loop_covers (idx : Dict.t Note) (tgs : list string)
    (t : string) (pn : Note) :
  Dict.get idx t = Some pn -> title pn = t ->
  forall st, loop_inv st -> In t tgs ->
    In t (map p_title (fst (fold_left (tag_step idx) tgs st))).
Proof.
  intros Hg Ht.
  induction tgs as [|tag tgs IH]; intros [ps ids] Hinv Hin; [destruct Hin|].
  cbn [fold_left]. destruct Hin as [-> | Hin].
  - assert (Hnow : In t (map p_title (fst (tag_step idx (ps, ids) t)))).
    { unfold tag_step. rewrite Hg, Ht.
      destruct (PyStr.mem t ids) eqn:Hm; simpl.
      - apply mem_In in Hm. now apply (proj2 Hinv).
      - rewrite map_app, in_app_iff. right. simpl. now left. }
    destruct (tag_step idx (ps, ids) t) as [ps' ids'].
    destruct (tag_loop_prefix idx tgs ps' ids') as [more Hm].
    rewrite Hm, map_app, in_app_iff. now left.
  - apply IH; [|assumption]. now apply tag_step_inv.
Qed.

(** The index holds notes of the batch, each under its own title, and a
    key for every title. *)
Lemma index_member (notes : list Note) (k : string) (n : Note) :
  Dict.get (build_title_index notes) k = Some n ->
  In n notes /\ title n = k.
Proof.
  unfold build_title_index, IdentifyParents.build_title_index.
  assert (G : forall d,
             (forall k n, Dict.get d k = Some n -> In n notes /\ title n = k) ->
             forall l, incl l notes ->
             forall k n,
               Dict.get (fold_left (fun d note => Dict.set d (title note) note)
                                   l d) k = Some n ->
               In n notes /\ title n = k).
  { intros d Hd l. revert d Hd.
    induction l as [|a l IH]; intros d Hd Hincl; simpl; [exact Hd|].
    apply IH; [|intros x Hx; apply Hincl; now right].
    intros k' n'.
    destruct (String.eqb (title a) k') eqn:E.
    - apply String.eqb_eq in E. subst k'.
      rewrite DictFacts.get_set_same. intros [= <-].
      split; [apply Hincl; now left | reflexivity].
    - rewrite DictFacts.get_set_other; [apply Hd|].
      intros Heq. rewrite Heq, String.eqb_refl in E. discriminate. }
  apply (G Dict.empty); [intros k' n' H; discriminate H | apply incl_refl].
Qed.

Lemma contains_set {V} (d : Dict.t V) (k t : string) (v : V) :
  Dict.contains (Dict.set d k v) t = (k =? t) || Dict.contains d t.
Proof.
  unfold Dict.contains. destruct (k =? t) eqn:E.
  - apply String.eqb_eq in E. subst t.
    now rewrite DictFacts.get_set_same.
  - rewrite DictFacts.get_set_other; [reflexivity|].
    intros Heq. rewrite Heq, String.eqb_refl in E. discriminate.
Qed.

Lemma index_contains (notes : list Note) (t : string) :
  Dict.contains (build_title_index notes) t = PyStr.mem t (map title notes).
Proof.
  unfold build_title_index, IdentifyParents.build_title_index.
  assert (G : forall d,
    Dict.contains (fold_left (fun d note => Dict.set d (title note) note)
                             notes d) t
    = PyStr.mem t (map title notes) || Dict.contains d t).
  { induction notes as [|a l IH]; intros d; [reflexivity|].
    cbn [fold_left map]. rewrite IH, contains_set.
    unfold PyStr.mem. cbn [existsb].
    rewrite (String.eqb_sym t (title a)).
    destruct (title a =? t), (existsb (String.eqb t) (map title l)),
      (Dict.contains d t); reflexivity. }
  rewrite G. apply orb_false_r.
Qed.

End ParentFacts.

(** X5: the parents that script 5 computes for a note have pairwise
    distinct titles, whatever the tags and whatever the batch. *)
Theorem parents_titles_distinct (notes : list Note) (note : Note) :
  NoDup (map p_title
           (IdentifyParaParents.note_parents
              (IdentifyParaParents.build_title_index notes) note)).
Proof.
  unfold IdentifyParaParents.note_parents.
  apply (ParentFacts.tag_loop_inv _ _ _ (ParentFacts.para_entry_inv note)).
Qed.

(** X6: parent identification is a closed world over the batch.  Every
    parent of type note that script 5 computes carries the title and id
    of a note of the batch, and that title is one of the tags; every tag
    that is the title of some note of the batch is the title of one of
    the parents; tags matching no title leave no trace. *)
Theorem parents_are_matching_tags (notes : list Note) (note : Note) :
  let ps := IdentifyParaParents.note_parents
              (IdentifyParaParents.build_title_index notes) note in
  (forall p, In p ps -> p_type p = Some note_t ->
     In (p_title p) (tags note)
     /\ exists n, In n notes /\ title n = p_title p /\ id n = p_id p)
  /\ (forall t, In t (tags note) -> In t (map title notes) ->
        In t (map p_title ps))
  /\ (forall p, In p ps ->
        In (p_title p) (tags note) \/ para_folder note = Some (p_title p)).
Proof.
  intros ps. subst ps. unfold IdentifyParaParents.note_parents.
  set (idx := IdentifyParaParents.build_title_index notes).
  assert (Hpara : forall p, In p (fst (IdentifyParaParents.para_entry note)) ->
            p_type p = Some para_folder_t
            /\ para_folder note = Some (p_title p)).
  { unfold IdentifyParaParents.para_entry.
    destruct (para_folder note) as [pf|]; [destruct (PyStr.truthy pf)|];
      simpl; intros p Hp; try tauto.
    destruct Hp as [<- | []]. split; reflexivity. }
  assert (Horigin : forall p,
            In p (fst (fold_left (IdentifyParaParents.tag_step idx)
                         (tags note) (IdentifyParaParents.para_entry note))) ->
            In p (fst (IdentifyParaParents.para_entry note))
            \/ exists tag pn,
                 In tag (tags note) /\ Dict.get idx tag = Some pn
                 /\ p = mkParent (id pn) (title pn) (Some note_t)).
  { intros p Hp.
    destruct (IdentifyParaParents.para_entry note) as [ps0 ids0].
    exact (ParentFacts.tag_loop_origin idx (tags note) p ps0 ids0 Hp). }
  split; [| split].
  - intros p Hp Hty.
    destruct (Horigin p Hp) as [H | [tag [pn [Htag [Hg ->]]]]].
    + destruct (Hpara p H) as [Hc _]. congruence.
    + destruct (ParentFacts.index_member notes tag pn Hg) as [Hin Ht].
      simpl. rewrite Ht. split; [assumption|].
      exists pn. repeat split; assumption.
  - intros t Ht Htitle.
    assert (Hc : Dict.contains idx t = true).
    { unfold idx. rewrite ParentFacts.index_contains. now apply mem_In. }
    unfold Dict.contains in Hc.
    destruct (Dict.get idx t) as [pn|] eqn:Hg; [|discriminate].
    destruct (ParentFacts.index_member notes t pn Hg) as [_ Hk].
    apply (ParentFacts.tag_loop_covers idx (tags note) t pn Hg Hk);
      [apply ParentFacts.para_entry_inv | assumption].
  - intros p Hp.
    destruct (Horigin p Hp) as [H | [tag [pn [Htag [Hg ->]]]]].
    + right. now destruct (Hpara p H).
    + left. destruct (ParentFacts.index_member notes tag pn Hg) as [_ Ht].
      simpl. now rewrite Ht.
Qed.

(** X6 on Groceries and Home: the tag Home becomes the parent Home. *)
Lemma parents_are_matching_tags_witness :
  In "Home"
     (map p_title
          (IdentifyParaParents.note_parents
             (IdentifyParaParents.build_title_index
                (Scenario.household "n1" "n2"))
             (Scenario.groceries "n1"))).
Proof.
  pose proof (parents_are_matching_tags (Scenario.household "n1" "n2")
                (Scenario.groceries "n1")) as [_ [H _]].
  apply H; simpl; tauto.
Defined.

(** X7: script 2 gives a note one parent per tag that is the title of a
    note of the batch, in tag order: nothing is dropped, neither a
    repeated tag nor the title of the note itself. *)
Theorem identify_parents_one_per_tag (notes : list Note) (note : Note) :
  map p_title
      (IdentifyParents.tag_parents
         (IdentifyParents.build_title_index notes) note)
  = filter (fun tag => PyStr.mem tag (map title notes)) (tags note).
Proof.
  unfold IdentifyParents.tag_parents.
  set (idx := IdentifyParents.build_title_index notes).
  assert (G : forall tgs acc,
    map p_title
        (fold_left
           (fun parents tag =>
              match Dict.get idx tag with
              | Some parent_note =>
                  parents ++ [mkParent (id parent_note) (title parent_note)
                                       None]
              | None => parents
              end) tgs acc)
    = map p_title acc
      ++ filter (fun tag => PyStr.mem tag (map title notes)) tgs).
  { induction tgs as [|tag tgs IH]; intros acc; simpl.
    - now rewrite app_nil_r.
    - rewrite IH.
      pose proof (ParentFacts.index_contains notes tag) as Hc.
      change (IdentifyParaParents.build_title_index notes) with idx in Hc.
      unfold Dict.contains in Hc.
      destruct (Dict.get idx tag) as [pn|] eqn:Hg; rewrite <- Hc.
      + destruct (ParentFacts.index_member notes tag pn Hg) as [_ Ht].
        rewrite map_app, <- app_assoc. simpl. now rewrite Ht.
      + reflexivity. }
  apply (G (tags note) []).
Qed.

Module PlacementFacts.
Import AssignFullPaths.

Lemma fold_set_other {V} (f : Note -> V) (notes : list Note) (k : string) :
  forall d, (forall n, In n notes -> title n <> k) ->
    Dict.get (fold_left (fun d n => Dict.set d (title n) (f n)) notes d) k
    = Dict.get d k.
Proof.
  induction notes as [|a notes IH]; intros d H; simpl; [reflexivity|].
  rewrite IH by (intros n Hn; apply H; now right).
  apply DictFacts.get_set_other. apply H. now left.
Qed.

(** With unique titles a dictionary built over the batch maps the title
    of each note to what was computed from that note. *)
Lemma fold_set_lookup {V} (f : Note -> V) (notes : list Note) (note : Note) :
  forall d, NoDup (map title notes) -> In note notes ->
    Dict.get (fold_left (fun d n => Dict.set d (title n) (f n)) notes d)
             (title note)
    = Some (f note).
Proof.
  induction notes as [|a notes IH]; intros d Hnd Hin; [destruct Hin|].
  simpl in Hnd. apply NoDup_cons_iff in Hnd. destruct Hnd as [Hnin Hnd].
  simpl. destruct Hin as [-> | Hin].
  - rewrite fold_set_other.
    + apply DictFacts.get_set_same.
    + intros n Hn Heq. apply Hnin. rewrite <- Heq. now apply in_map.
  - now apply IH.
Qed.

Lemma assign_para_folder_cases (note : Note) :
  In (AssignParaFolder.assign_para_folder note) PARA_FOLDERS.
Proof.
  unfold AssignParaFolder.assign_para_folder, AssignParaFolder.PARA_TAGS.
  cbn [AssignParaFolder.first_para_tag].
  destruct (PyStr.mem "Project" (tags note)); [simpl; tauto|].
  destruct (PyStr.mem "Area" (tags note)); [simpl; tauto|].
  destruct (PyStr.mem "ResourceTopic" (tags note)); simpl; tauto.
Qed.

(** The four folder names pass through sanitization unchanged. *)
Lemma sanitize_para_folder (f : string) :
  In f PARA_FOLDERS -> sanitize_folder_name f = f /\ PyStr.truthy f = true.
Proof.
  intros [<- | [<- | [<- | [<- | []]]]]; split; reflexivity.
Qed.

(** A note whose first parent is a PARA folder is placed in it. *)
Lemma path_under_para_folder (frames : nat) (notes : list Note)
    (note : Note) (f : string) :
  NoDup (map title notes) -> In note notes ->
  first_parent note = Some f -> In f PARA_FOLDERS ->
  get_full_path (3 + frames) (title note) (build_parent_tree notes)
                (build_para_map notes) []
  = Py.Ok f.
Proof.
  intros Hnd Hin Hfp Hf.
  cbn [Nat.add get_full_path PyStr.mem existsb Py.call Py.builtin Py.bind].
  unfold get_flat at 1. unfold build_parent_tree.
  rewrite (fold_set_lookup first_parent notes note Dict.empty Hnd Hin), Hfp.
  apply mem_In in Hf. rewrite Hf.
  f_equal. apply sanitize_para_folder. now apply mem_In.
Qed.

(** After scripts 4 and 5 the first parent of a note is its PARA folder. *)
Lemma identified_first_parent (notes : list Note) :
  map first_parent
      (IdentifyParaParents.identify_parents_with_para
         (AssignParaFolder.transform notes))
  = map (fun n => Some (AssignParaFolder.assign_para_folder n)) notes.
Proof.
  unfold IdentifyParaParents.identify_parents_with_para.
  set (idx := IdentifyParaParents.build_title_index _).
  unfold AssignParaFolder.transform. rewrite !map_map.
  apply map_ext. intros n.
  unfold IdentifyParaParents.note_parents, IdentifyParaParents.para_entry.
  cbn [para_folder set_para_folder tags].
  destruct (sanitize_para_folder _ (assign_para_folder_cases n)) as [_ Ht].
  rewrite Ht.
  destruct (ParentFacts.tag_loop_prefix idx (tags n)
              [mkParent (AssignParaFolder.assign_para_folder n)
                        (AssignParaFolder.assign_para_folder n)
                        (Some para_folder_t)]
              [AssignParaFolder.assign_para_folder n]) as [more Hm].
  rewrite Hm. reflexivity.
Qed.

Lemma identified_titles (notes : list Note) :
  map title
      (IdentifyParaParents.identify_parents_with_para
         (AssignParaFolder.transform notes))
  = map title notes.
Proof.
  unfold IdentifyParaParents.identify_parents_with_para,
    AssignParaFolder.transform.
  rewrite !map_map. apply map_ext. intros n.
  unfold IdentifyParents.store_parents.
  destruct (IdentifyParaParents.note_parents _ _); reflexivity.
Qed.

End PlacementFacts.

(** X8: after scripts 4 and 5 every note has at least one parent, the
    first being its own PARA folder; hence path assignment run right
    after them, on a batch of unique titles and with three levels of
    the stack free or more, places every note directly in its PARA
    folder, whatever note parents its tags name. *)
Theorem fresh_batch_lands_in_para_folders (notes : list Note) :
  map AssignFullPaths.first_parent
      (IdentifyParaParents.identify_parents_with_para
         (AssignParaFolder.transform notes))
  = map (fun n => Some (AssignParaFolder.assign_para_folder n)) notes
  /\ (NoDup (map title notes) ->
      forall frames,
        Py.map (map output_path)
          (AssignFullPaths.assign_full_paths (3 + frames)
             (IdentifyParaParents.identify_parents_with_para
                (AssignParaFolder.transform notes)))
        = Py.Ok
            (map (fun n => Some (AssignParaFolder.assign_para_folder n))
                 notes)).
Proof.
  split; [apply PlacementFacts.identified_first_parent|].
  intros Hnd frames.
  set (N5 := IdentifyParaParents.identify_parents_with_para
               (AssignParaFolder.transform notes)).
  assert (Hnd5 : NoDup (map title N5))
    by (unfold N5; now rewrite PlacementFacts.identified_titles).
  rewrite <- PlacementFacts.identified_first_parent. fold N5.
  rewrite PathFacts.assign_full_paths_loop by lia.
  rewrite (PathFacts.for_each_ok _ N5
             (fun n5 => set_output_path n5
                          (AssignFullPaths.first_parent n5))).
  { unfold Py.map. cbn [Py.bind]. now rewrite map_map. }
  intros n5 Hin.
  assert (Hfp : exists n, AssignFullPaths.first_parent n5
                          = Some (AssignParaFolder.assign_para_folder n)).
  { pose proof (PlacementFacts.identified_first_parent notes) as Hall.
    fold N5 in Hall.
    assert (Hm : In (AssignFullPaths.first_parent n5)
                    (map AssignFullPaths.first_parent N5))
      by now apply in_map.
    rewrite Hall in Hm. apply in_map_iff in Hm.
    destruct Hm as [n [Hn _]]. now exists n. }
  destruct Hfp as [n Hfp]. rewrite Hfp.
  rewrite (PlacementFacts.path_under_para_folder frames N5 n5
             (AssignParaFolder.assign_para_folder n));
    try assumption; [reflexivity|].
  apply PlacementFacts.assign_para_folder_cases.
Qed.

(** X8 on Groceries and Home: both land in their PARA folders. *)
Lemma fresh_batch_lands_in_para_folders_witness :
  Py.map (map output_path)
    (AssignFullPaths.assign_full_paths 3
       (IdentifyParaParents.identify_parents_with_para
          (AssignParaFolder.transform (Scenario.household "n1" "n2"))))
  = Py.Ok [Some "Archive"; Some "Areas"].
Proof.
  destruct (fresh_batch_lands_in_para_folders (Scenario.household "n1" "n2"))
    as [_ H].
  refine (H _ 0).
  simpl. repeat constructor; simpl; intuition discriminate.
Defined.

(* ================================================================== *)
(** ** Folder names and paths *)

Module SanitizeFacts.
Import AssignFullPaths Spec.

Lemma replace_char_keeps_out (c d x : ascii) (s : string) :
  x <> d -> ~ In x (chars s) -> ~ In x (chars (PyStr.replace_char c d s)).
Proof.
  intros Hxd. induction s as [|y s IH]; simpl; [tauto|].
  intros Hnin [H | H].
  - destruct (Ascii.eqb y c); [congruence | tauto].
  - tauto.
Qed.

Lemma replace_char_removes (c d : ascii) (s : string) :
  c <> d -> ~ In c (chars (PyStr.replace_char c d s)).
Proof.
  intros Hcd. induction s as [|y s IH]; simpl; [tauto|].
  intros [H | H]; [|tauto].
  destruct (Ascii.eqb y c) eqn:E; [congruence|].
  subst y. now rewrite Ascii.eqb_refl in E.
Qed.

Lemma replace_char_absent (c d : ascii) (s : string) :
  ~ In c (chars s) -> PyStr.replace_char c d s = s.
Proof.
  induction s as [|y s IH]; simpl; [reflexivity|].
  intros Hnin. destruct (Ascii.eqb y c) eqn:E.
  - apply Ascii.eqb_eq in E. tauto.
  - f_equal. apply IH. tauto.
Qed.

Lemma replace_all_removes (cs : list ascii) (x : ascii) :
  x <> "_"%char ->
  forall s, In x cs \/ ~ In x (chars s) ->
    ~ In x (chars (fold_left
                     (fun name char => PyStr.replace_char char "_"%char name)
                     cs s)).
Proof.
  intros Hx. induction cs as [|c cs IH]; intros s H; simpl.
  - destruct H as [[] | H]. exact H.
  - apply IH. destruct (ascii_dec x c) as [-> | Hne].
    + right. now apply replace_char_removes.
    + destruct H as [[H | H] | H]; [congruence | now left |].
      right. now apply replace_char_keeps_out.
Qed.

Lemma replace_all_absent (cs : list ascii) :
  forall s, (forall c, In c cs -> ~ In c (chars s)) ->
    fold_left (fun name char => PyStr.replace_char char "_"%char name) cs s
    = s.
Proof.
  induction cs as [|c cs IH]; intros s H; simpl; [reflexivity|].
  rewrite replace_char_absent by (apply H; now left).
  apply IH. intros c' Hc'. apply H. now right.
Qed.

Lemma rstrip_incl (cs : list ascii) (s : string) (x : ascii) :
  In x (chars (PyStr.rstrip cs s)) -> In x (chars s).
Proof.
  induction s as [|c s IH]; simpl; [tauto|].
  destruct (PyStr.rstrip cs s) as [|r0 r] eqn:E.
  - destruct (PyStr.mem_ascii c cs); simpl; tauto.
  - simpl. intros [H | H]; [now left | right; apply IH; exact H].
Qed.

Lemma rstrip_last (cs : list ascii) (s : string) (c : ascii) :
  last_char (PyStr.rstrip cs s) = Some c -> PyStr.mem_ascii c cs = false.
Proof.
  induction s as [|y s IH]; simpl; [discriminate|].
  destruct (PyStr.rstrip cs s) as [|r0 r] eqn:E.
  - destruct (PyStr.mem_ascii y cs) eqn:Hm; simpl; [discriminate|].
    now intros [= <-].
  - exact IH.
Qed.

Lemma rstrip_fixed (cs : list ascii) (s : string) :
  (forall c, last_char s = Some c -> PyStr.mem_ascii c cs = false) ->
  PyStr.rstrip cs s = s.
Proof.
  induction s as [|y s IH]; simpl; [reflexivity|].
  destruct s as [|z s].
  - intros H. simpl. now rewrite (H y eq_refl).
  - intros H. rewrite (IH H). reflexivity.
Qed.

(** What sanitization guarantees of its result. *)
Lemma sanitize_shape (name : string) :
  let clean := sanitize_folder_name name in
  (forall c, In c invalid_chars -> ~ In c (chars clean))
  /\ (forall c, last_char clean = Some c ->
        PyStr.mem_ascii c ["."%char; " "%char] = false)
  /\ clean <> ""
  /\ sanitize_folder_name clean = clean.
Proof.
  intros clean.
  assert (Hshape :
    (forall c, In c invalid_chars -> ~ In c (chars clean))
    /\ (forall c, last_char clean = Some c ->
          PyStr.mem_ascii c ["."%char; " "%char] = false)
    /\ clean <> "").
  { subst clean. unfold sanitize_folder_name.
    set (replaced := fold_left _ invalid_chars name).
    destruct (PyStr.truthy (PyStr.rstrip _ replaced)) eqn:Ht.
    - split; [| split].
      + intros c Hc Hin. apply rstrip_incl in Hin.
        revert Hin. apply replace_all_removes; [|now left].
        intros ->. simpl in Hc. intuition discriminate.
      + intros c. apply rstrip_last.
      + now apply truthy_true.
    - split; [| split].
      + intros c Hc. simpl in Hc. vm_compute.
        intuition (subst; discriminate).
      + intros c [= <-]. reflexivity.
      + discriminate. }
  destruct Hshape as [Hinv [Hlast Hne]].
  split; [assumption|]. split; [assumption|]. split; [assumption|].
  unfold sanitize_folder_name.
  rewrite (replace_all_absent _ clean Hinv).
  rewrite (rstrip_fixed _ clean Hlast).
  apply truthy_true in Hne. now rewrite Hne.
Qed.

End SanitizeFacts.

(** X9: a sanitized folder name is never empty, holds none of the nine
    characters the function replaces, and does not end in a dot or a
    space; sanitizing it again gives it back. *)
Theorem sanitize_folder_name_legal (name : string) :
  let clean := AssignFullPaths.sanitize_folder_name name in
  clean <> ""
  /\ (forall c, In c AssignFullPaths.invalid_chars ->
        ~ In c (Spec.chars clean))
  /\ Spec.last_char clean <> Some "."%char
  /\ Spec.last_char clean <> Some " "%char
  /\ AssignFullPaths.sanitize_folder_name clean = clean.
Proof.
  intros clean.
  destruct (SanitizeFacts.sanitize_shape name) as [Hinv [Hlast [Hne Hfix]]].
  fold clean in Hinv, Hlast, Hne, Hfix.
  split; [assumption|]. split; [assumption|].
  split; [intros H; specialize (Hlast _ H); discriminate|].
  split; [intros H; specialize (Hlast _ H); discriminate|].
  exact Hfix.
Qed.

(** X9 on a title with a slash, a colon and a trailing dot. *)
Lemma sanitize_folder_name_legal_witness :
  AssignFullPaths.sanitize_folder_name
    (AssignFullPaths.sanitize_folder_name "To do: a/b.")
  = AssignFullPaths.sanitize_folder_name "To do: a/b."
  /\ ~ In "/"%char
       (Spec.chars (AssignFullPaths.sanitize_folder_name "To do: a/b.")).
Proof.
  destruct (sanitize_folder_name_legal "To do: a/b.")
    as [_ [Hinv [_ [_ Hfix]]]].
  split; [exact Hfix|]. apply Hinv. simpl. tauto.
Defined.

Module WalkFacts.
Import AssignFullPaths Spec.

(** What [visited] holds outside the titles a walk can reach does not
    matter to the walk. *)
Lemma visited_irrelevant (pm pa : Dict.t (option string)) :
  forall frames t v1 v2,
    (forall x, reaches pm t x -> PyStr.mem x v1 = PyStr.mem x v2) ->
    get_full_path frames t pm pa v1 = get_full_path frames t pm pa v2.
Proof.
  induction frames as [|frames IH]; intros t v1 v2 H; [reflexivity|].
  cbn [get_full_path].
  rewrite <- (H t (reaches_here pm t)).
  destruct (PyStr.mem t v1); [reflexivity|].
  destruct frames as [|frames']; [reflexivity|].
  cbn [Py.builtin Py.bind].
  destruct (get_flat pm t) as [p|] eqn:Hp; [|reflexivity].
  destruct (PyStr.mem p PARA_FOLDERS) eqn:Hf; [reflexivity|].
  rewrite (IH p (t :: v1) (t :: v2)); [reflexivity|].
  intros x Hx. unfold PyStr.mem. cbn [existsb].
  f_equal. apply H. eapply reaches_up; eassumption.
Qed.

(** The walk of a note with a note parent, from the walk of the parent. *)
Lemma walk_step (pm pa : Dict.t (option string)) (frames : nat)
    (t p path : string) :
  get_flat pm t = Some p ->
  PyStr.mem p PARA_FOLDERS = false ->
  get_full_path frames t pm pa [] = Py.Ok path ->
  exists frames' parent_path,
    frames = S frames'
    /\ get_full_path frames' p pm pa [t] = Py.Ok parent_path
    /\ path = below parent_path (sanitize_folder_name p).
Proof.
  intros Hp Hf H. destruct frames as [|frames]; [discriminate|].
  cbn [get_full_path PyStr.mem existsb] in H.
  destruct frames as [|frames]; [discriminate|].
  cbn [Py.builtin Py.bind] in H. rewrite Hp, Hf in H.
  destruct (get_full_path (S frames) p pm pa [t]) as [pp|] eqn:Hpp;
    [|discriminate].
  cbn [Py.bind] in H. exists (S frames), pp.
  split; [reflexivity | split; [exact Hpp|]].
  destruct frames as [|frames]; [destruct (pp =? "."); discriminate|].
  cbn [Py.call Py.builtin Py.bind] in H. unfold below.
  destruct (pp =? "."); now injection H as <-.
Qed.

End WalkFacts.

(** X10: where the parent links from a note's first parent never lead
    back to the note, the path of the note is the path of that parent
    followed by the parent's sanitized title (the title alone when the
    parent sits at the root): the walk of the note returns when there
    are three levels of the stack more than titles, and whenever it
    returns, so does the walk of the parent, with that path. *)
Theorem path_extends_parent_path (parent_map para_map : Dict.t (option string))
    (frames : nat) (t p : string) :
  AssignFullPaths.get_flat parent_map t = Some p ->
  PyStr.mem p AssignFullPaths.PARA_FOLDERS = false ->
  ~ Spec.reaches parent_map p t ->
  (List.length parent_map + 3 <= frames ->
   exists path,
     AssignFullPaths.get_full_path frames t parent_map para_map []
     = Py.Ok path)
  /\ forall path,
       AssignFullPaths.get_full_path frames t parent_map para_map []
       = Py.Ok path ->
       exists parent_path,
         AssignFullPaths.get_full_path frames p parent_map para_map []
         = Py.Ok parent_path
         /\ path = Spec.below parent_path
                     (AssignFullPaths.sanitize_folder_name p).
Proof.
  intros Hp Hf Hacyclic. split.
  - intros Hle.
    destruct (PathFacts.get_full_path_enough parent_map para_map frames t [])
      as [path [Hpath _]]; [|now exists path].
    pose proof (PathFacts.unvisited_le parent_map []). lia.
  - intros path Hpath.
    destruct (WalkFacts.walk_step _ _ _ _ _ _ Hp Hf Hpath)
      as [frames' [pp [-> [Hpp ->]]]].
    exists pp. split; [|reflexivity].
    apply PathFacts.get_full_path_mono with (frames := frames'); [|lia].
    rewrite <- Hpp. apply WalkFacts.visited_irrelevant.
    intros x Hx. unfold PyStr.mem. cbn [existsb].
    destruct (x =? t) eqn:E; [|reflexivity].
    apply String.eqb_eq in E. subst x. contradiction.
Qed.

(** X10 on a chain of three: C under B under A, A in Areas. *)
Lemma path_extends_parent_path_witness :
  exists parent_path,
    AssignFullPaths.get_full_path 5 "B"
      [("C", Some "B"); ("B", Some "A"); ("A", Some "Areas")] [] []
    = Py.Ok parent_path
    /\ "Areas/A/B" = Spec.below parent_path "B".
Proof.
  destruct (path_extends_parent_path
              [("C", Some "B"); ("B", Some "A"); ("A", Some "Areas")] []
              5 "C" "B") as [_ H].
  - reflexivity.
  - reflexivity.
  - intros H. inversion H as [|? ? ? H1 H2 H3]; subst.
    vm_compute in H1. injection H1 as <-.
    inversion H3 as [|? ? ? H4 H5 H6]; subst.
    vm_compute in H4. injection H4 as <-. discriminate H5.
  - apply (H "Areas/A/B"). reflexivity.
Defined.

(** X11: a first parent that is neither a PARA folder nor the title of
    any note of the batch does not send the note back to its own PARA
    folder: the walk of the note, which is three levels deep, gives the
    sanitized title of the missing parent, and in the batch that path
    assignment returns the note sits in a top-level folder of that
    name. *)
Theorem dangling_parent_becomes_folder (notes : list Note) (i : nat)
    (note : Note) (p : string) :
  NoDup (map title notes) ->
  nth_error notes i = Some note ->
  AssignFullPaths.first_parent note = Some p ->
  PyStr.mem p AssignFullPaths.PARA_FOLDERS = false ->
  ~ In p (map title notes) ->
  (forall frames,
     AssignFullPaths.get_full_path (3 + frames) (title note)
       (AssignFullPaths.build_parent_tree notes)
       (AssignFullPaths.build_para_map notes) []
     = Py.Ok (AssignFullPaths.sanitize_folder_name p))
  /\ forall frames out,
       AssignFullPaths.assign_full_paths frames notes = Py.Ok out ->
       nth_error out i
       = Some (set_output_path note
                 (Some (AssignFullPaths.sanitize_folder_name p))).
Proof.
  intros Hnd Hn Hfp Hf Hmissing.
  pose proof (nth_error_In _ _ Hn) as Hin.
  assert (Hpm : AssignFullPaths.get_flat
                  (AssignFullPaths.build_parent_tree notes) (title note)
                = Some p).
  { unfold AssignFullPaths.get_flat, AssignFullPaths.build_parent_tree.
    now rewrite (PlacementFacts.fold_set_lookup
                   AssignFullPaths.first_parent notes note Dict.empty
                   Hnd Hin). }
  assert (Hother : forall n, In n notes -> title n <> p).
  { intros n Hn' Heq. apply Hmissing. rewrite <- Heq. now apply in_map. }
  assert (Hnone : AssignFullPaths.get_flat
                    (AssignFullPaths.build_parent_tree notes) p = None).
  { unfold AssignFullPaths.get_flat, AssignFullPaths.build_parent_tree.
    now rewrite (PlacementFacts.fold_set_other
                   AssignFullPaths.first_parent notes p Dict.empty Hother). }
  assert (Hpara : AssignFullPaths.get_flat
                    (AssignFullPaths.build_para_map notes) p = None).
  { unfold AssignFullPaths.get_flat, AssignFullPaths.build_para_map.
    now rewrite (PlacementFacts.fold_set_other
                   para_folder notes p Dict.empty Hother). }
  assert (Hne : (p =? title note) = false).
  { destruct (p =? title note) eqn:E; [|reflexivity].
    apply String.eqb_eq in E. exfalso. apply (Hother note Hin).
    now symmetry. }
  assert (Hwalk : forall frames,
             AssignFullPaths.get_full_path (3 + frames) (title note)
               (AssignFullPaths.build_parent_tree notes)
               (AssignFullPaths.build_para_map notes) []
             = Py.Ok (AssignFullPaths.sanitize_folder_name p)).
  { intros frames.
    cbn [Nat.add AssignFullPaths.get_full_path PyStr.mem existsb
         Py.builtin Py.bind].
    rewrite Hpm, Hf, Hne. cbn [orb]. rewrite Hnone, Hpara. reflexivity. }
  split; [exact Hwalk|].
  intros frames out Hout.
  apply PathFacts.assign_full_paths_map in Hout.
  destruct Hout as [-> Hall].
  rewrite (map_nth_error _ _ _ Hn). do 3 f_equal.
  specialize (Hall note Hin).
  apply PathFacts.get_full_path_mono with (frames' := 3 + frames) in Hall;
    [|lia].
  rewrite Hwalk in Hall. now injection Hall as <-.
Qed.

(** X11 on a note whose parent Chores is no note of the batch. *)
Lemma dangling_parent_becomes_folder_witness :
  AssignFullPaths.assign_full_paths 3 [Scenario.child_of "Dishes" "Chores"]
  = Py.Ok [set_output_path (Scenario.child_of "Dishes" "Chores")
             (Some "Chores")]
  /\ nth_error [set_output_path (Scenario.child_of "Dishes" "Chores")
                  (Some "Chores")] 0
     = Some (set_output_path (Scenario.child_of "Dishes" "Chores")
               (Some "Chores")).
Proof.
  split; [reflexivity|].
  destruct (dangling_parent_becomes_folder
              [Scenario.child_of "Dishes" "Chores"] 0
              (Scenario.child_of "Dishes" "Chores") "Chores") as [_ H].
  - simpl. repeat constructor. simpl. tauto.
  - reflexivity.
  - reflexivity.
  - reflexivity.
  - simpl. intuition discriminate.
  - apply (H 3). reflexivity.
Defined.

(* ================================================================== *)
(** ** Splitting and joining *)

Module SplitFacts.
Import Spec.

Lemma split_nonempty (sep : ascii) (s : string) : PyStr.split sep s <> [].
Proof.
  destruct s as [|c s]; simpl; [discriminate|].
  destruct (PyStr.split sep s); [discriminate|].
  destruct (Ascii.eqb c sep); discriminate.
Qed.

Lemma split_no_sep (sep : ascii) (s : string) :
  forall x, In x (PyStr.split sep s) -> ~ In sep (chars x).
Proof.
  induction s as [|c s IH]; simpl.
  - intros x [<- | []]. simpl. tauto.
  - destruct (PyStr.split sep s) as [|cur more] eqn:E.
    + intros x [<- | []]. simpl. tauto.
    + destruct (Ascii.eqb c sep) eqn:Ec.
      * intros x [<- | H]; [simpl; tauto | now apply IH].
      * intros x [<- | H]; [| apply IH; now right].
        simpl. intros [Hc | Hin].
        -- subst c. now rewrite Ascii.eqb_refl in Ec.
        -- apply (IH cur); [now left | exact Hin].
Qed.

Lemma concat_cons (sep x y : string) (l : list string) :
  String.concat sep (x :: y :: l) = x +++ sep +++ String.concat sep (y :: l).
Proof. reflexivity. Qed.

Lemma join_split (sep : ascii) (s : string) :
  PyStr.join (String sep "") (PyStr.split sep s) = s.
Proof.
  unfold PyStr.join. induction s as [|c s IH]; [reflexivity|].
  cbn [PyStr.split].
  destruct (PyStr.split sep s) as [|cur more] eqn:E.
  - now destruct (split_nonempty sep s).
  - destruct (Ascii.eqb c sep) eqn:Ec.
    + apply Ascii.eqb_eq in Ec. subst c.
      rewrite concat_cons, IH. reflexivity.
    + destruct more as [|m more'].
      * cbn [String.concat] in *. now rewrite IH.
      * rewrite concat_cons. rewrite concat_cons in IH.
        cbn [String.append] in *. now rewrite IH.
Qed.

Lemma split_app_sep (sep : ascii) (a b : string) :
  ~ In sep (chars a) ->
  PyStr.split sep (a +++ String sep b) = a :: PyStr.split sep b.
Proof.
  induction a as [|c a IH]; intros Hnin.
  - cbn [String.append PyStr.split].
    destruct (PyStr.split sep b) as [|cur more] eqn:E.
    + now destruct (split_nonempty sep b).
    + now rewrite Ascii.eqb_refl.
  - simpl in Hnin. cbn [String.append PyStr.split].
    rewrite IH by tauto.
    destruct (Ascii.eqb c sep) eqn:Ec; [|reflexivity].
    apply Ascii.eqb_eq in Ec. tauto.
Qed.

Lemma split_clean (sep : ascii) (a : string) :
  ~ In sep (chars a) -> PyStr.split sep a = [a].
Proof.
  induction a as [|c a IH]; intros Hnin; [reflexivity|].
  simpl in Hnin. cbn [PyStr.split]. rewrite IH by tauto.
  destruct (Ascii.eqb c sep) eqn:Ec; [|reflexivity].
  apply Ascii.eqb_eq in Ec. tauto.
Qed.

Lemma split_join (sep : ascii) (parts : list string) :
  parts <> [] ->
  (forall x, In x parts -> ~ In sep (chars x)) ->
  PyStr.split sep (PyStr.join (String sep "") parts) = parts.
Proof.
  unfold PyStr.join.
  induction parts as [|a parts IH]; intros Hne Hall; [contradiction|].
  destruct parts as [|b parts].
  - cbn [String.concat]. apply split_clean. apply Hall. now left.
  - rewrite concat_cons. cbn [String.append].
    rewrite split_app_sep by (apply Hall; now left).
    f_equal. apply IH; [discriminate|].
    intros x Hx. apply Hall. now right.
Qed.

End SplitFacts.

(* ================================================================== *)
(** ** Ordinal prefixes *)

Module OrdinalFacts.
Import OrdinalPaths Spec.

Lemma ordinals_cases (folder ordinal : string) :
  Dict.get PARA_ORDINALS folder = Some ordinal ->
  (folder, ordinal) = ("Projects", "1 Projects")
  \/ (folder, ordinal) = ("Areas", "2 Areas")
  \/ (folder, ordinal) = ("Resources", "3 Resources")
  \/ (folder, ordinal) = ("Archive", "4 Archive").
Proof.
  unfold PARA_ORDINALS. cbn [Dict.get].
  destruct ("Projects" =? folder) eqn:E1;
    [apply String.eqb_eq in E1; intros [= <-]; subst; tauto|].
  destruct ("Areas" =? folder) eqn:E2;
    [apply String.eqb_eq in E2; intros [= <-]; subst; tauto|].
  destruct ("Resources" =? folder) eqn:E3;
    [apply String.eqb_eq in E3; intros [= <-]; subst; tauto|].
  destruct ("Archive" =? folder) eqn:E4;
    [apply String.eqb_eq in E4; intros [= <-]; subst; tauto|].
  discriminate.
Qed.

Lemma join_cons (x : string) (rest : string) :
  PyStr.join "/" (x :: PyStr.split "/"%char rest) = x +++ "/" +++ rest.
Proof.
  unfold PyStr.join.
  destruct (PyStr.split "/"%char rest) as [|y ys] eqn:E.
  - now destruct (SplitFacts.split_nonempty "/"%char rest).
  - rewrite SplitFacts.concat_cons.
    rewrite <- E.
    pose proof (SplitFacts.join_split "/"%char rest) as J.
    unfold PyStr.join in J. now rewrite J.
Qed.

(** A path whose first segment is an ordinal is left alone. *)
Lemma ordinal_path_fixed (folder ordinal : string) (more : list string) :
  Dict.get PARA_ORDINALS folder = Some ordinal ->
  (forall x, In x more -> ~ In "/"%char (chars x)) ->
  get_ordinal_path (PyStr.join "/" (ordinal :: more))
  = PyStr.join "/" (ordinal :: more).
Proof.
  intros Hget Hmore.
  assert (Hsplit : PyStr.split "/"%char (PyStr.join "/" (ordinal :: more))
                   = ordinal :: more).
  { apply SplitFacts.split_join; [discriminate|].
    intros x [<- | Hx]; [|now apply Hmore].
    destruct (ordinals_cases _ _ Hget) as [H | [H | [H | H]]];
      injection H as -> ->; vm_compute; intuition discriminate. }
  unfold get_ordinal_path. rewrite Hsplit.
  assert (Hnone : Dict.get PARA_ORDINALS ordinal = None).
  { destruct (ordinals_cases _ _ Hget) as [H | [H | [H | H]]];
      injection H as -> ->; reflexivity. }
  rewrite Hnone.
  assert (Hhead : exists c tail,
             PyStr.join "/" (ordinal :: more) = String c tail
             /\ c <> "."%char).
  { unfold PyStr.join.
    destruct (ordinals_cases _ _ Hget) as [H | [H | [H | H]]];
      injection H as -> ->; destruct more; cbn [String.concat String.append];
      eexists; eexists; (split; [reflexivity | discriminate]). }
  destruct Hhead as [c [tail [-> Hc]]].
  unfold PyStr.truthy. cbn [String.eqb negb orb].
  destruct (Ascii.eqb c ".") eqn:E; [|reflexivity].
  apply Ascii.eqb_eq in E. contradiction.
Qed.

(** A path under a PARA folder gets the ordinal name of the folder. *)
Lemma ordinal_path_prefixed (folder ordinal rest : string) :
  Dict.get PARA_ORDINALS folder = Some ordinal ->
  get_ordinal_path (folder +++ "/" +++ rest) = ordinal +++ "/" +++ rest.
Proof.
  intros Hget.
  assert (Hclean : ~ In "/"%char (chars folder)).
  { destruct (ordinals_cases _ _ Hget) as [H | [H | [H | H]]];
      injection H as -> ->; vm_compute; intuition discriminate. }
  assert (Hhead : exists c tail, folder = String c tail /\ c <> "."%char).
  { destruct (ordinals_cases _ _ Hget) as [H | [H | [H | H]]];
      injection H as -> ->;
      eexists; eexists; (split; [reflexivity | discriminate]). }
  assert (Hsplit : PyStr.split "/"%char (folder +++ "/" +++ rest)
                   = folder :: PyStr.split "/"%char rest).
  { change ("/" +++ rest) with (String "/"%char rest).
    now apply SplitFacts.split_app_sep. }
  assert (Hcond : negb (PyStr.truthy (folder +++ "/" +++ rest))
                  || (folder +++ "/" +++ rest =? ".") = false).
  { destruct Hhead as [c [tail [-> Hc]]].
    cbn [String.append PyStr.truthy String.eqb negb orb].
    destruct (Ascii.eqb c ".") eqn:E; [|reflexivity].
    apply Ascii.eqb_eq in E. contradiction. }
  unfold get_ordinal_path. rewrite Hcond, Hsplit, Hget.
  apply join_cons.
Qed.

Lemma ordinal_path_other (path first : string) (more : list string) :
  PyStr.split "/"%char path = first :: more ->
  Dict.get PARA_ORDINALS first = None ->
  get_ordinal_path path = path.
Proof.
  intros Hsplit Hnone. unfold get_ordinal_path.
  destruct (negb (PyStr.truthy path) || (path =? ".")); [reflexivity|].
  rewrite Hsplit, Hnone, <- Hsplit.
  apply (SplitFacts.join_split "/"%char path).
Qed.

End OrdinalFacts.

(** X12: the ordinal prefix goes to the first segment of a path, and
    only there: a path that starts with a PARA folder gets that folder's
    ordinal name and keeps the rest; any other path is returned as it is;
    and applying ordinals twice is the same as applying them once. *)
Theorem get_ordinal_path_first_segment :
  (forall folder ordinal rest,
      Dict.get OrdinalPaths.PARA_ORDINALS folder = Some ordinal ->
      OrdinalPaths.get_ordinal_path folder = ordinal
      /\ OrdinalPaths.get_ordinal_path (folder +++ "/" +++ rest)
         = ordinal +++ "/" +++ rest)
  /\ (forall path first more,
        PyStr.split "/"%char path = first :: more ->
        Dict.get OrdinalPaths.PARA_ORDINALS first = None ->
        OrdinalPaths.get_ordinal_path path = path)
  /\ (forall path,
        OrdinalPaths.get_ordinal_path (OrdinalPaths.get_ordinal_path path)
        = OrdinalPaths.get_ordinal_path path).
Proof.
  split; [| split].
  - intros folder ordinal rest Hget. split.
    + destruct (OrdinalFacts.ordinals_cases _ _ Hget) as [H | [H | [H | H]]];
        injection H as -> ->; reflexivity.
    + now apply OrdinalFacts.ordinal_path_prefixed.
  - intros path first more. apply OrdinalFacts.ordinal_path_other.
  - intros path.
    destruct (negb (PyStr.truthy path) || (path =? ".")) eqn:Hcond.
    { assert (Hval : OrdinalPaths.get_ordinal_path path = path)
        by (unfold OrdinalPaths.get_ordinal_path; now rewrite Hcond).
      now rewrite !Hval. }
    destruct (PyStr.split "/"%char path) as [|first more] eqn:Hsplit.
    { now destruct (SplitFacts.split_nonempty "/"%char path). }
    destruct (Dict.get OrdinalPaths.PARA_ORDINALS first) as [o|] eqn:Hget.
    + assert (Hval : OrdinalPaths.get_ordinal_path path
                     = PyStr.join "/" (o :: more))
        by (unfold OrdinalPaths.get_ordinal_path;
            now rewrite Hcond, Hsplit, Hget).
      rewrite Hval.
      apply (OrdinalFacts.ordinal_path_fixed first o more Hget).
      intros x Hx. apply (SplitFacts.split_no_sep "/"%char path).
      rewrite Hsplit. now right.
    + pose proof (OrdinalFacts.ordinal_path_other path first more
                    Hsplit Hget) as Hval.
      now rewrite !Hval.
Qed.

(** X12 on the paths of a project note and of a note outside PARA. *)
Lemma get_ordinal_path_first_segment_witness :
  OrdinalPaths.get_ordinal_path ("Projects" +++ "/" +++ "Garden/Projects")
  = "1 Projects/Garden/Projects"
  /\ OrdinalPaths.get_ordinal_path "Chores/Projects" = "Chores/Projects".
Proof.
  destruct get_ordinal_path_first_segment as [H1 [H2 _]].
  split.
  - apply (H1 "Projects" "1 Projects" "Garden/Projects"). reflexivity.
  - apply (H2 "Chores/Projects" "Chores" ["Projects"]); reflexivity.
Defined.

(* ================================================================== *)
(** ** Reading the checklist back *)

Module ChecklistFacts.
Import ResolveJ Spec.

Lemma parse_unchecked_line (st : Dict.t (list string) * option string)
    (line : string) :
  unchecked line ->
  fst (parse_line st line)
  = match note_match line with
    | Some t => Dict.set (fst st) t []
    | None => fst st
    end.
Proof.
  intros [Hx HX]. destruct st as [sel cur]. unfold parse_line.
  destruct (note_match line); [reflexivity|].
  destruct cur as [cn|]; [|reflexivity].
  rewrite Hx, HX. cbn [orb]. now rewrite andb_false_r.
Qed.

(** Without checked lines only the headers count. *)
Lemma parse_unchecked (lines : list string) :
  (forall l, In l lines -> unchecked l) ->
  forall st,
    fst (fold_left parse_line lines st)
    = fold_left (fun d t => Dict.set d t []) (headers lines) (fst st).
Proof.
  induction lines as [|l lines IH]; intros Hall st; [reflexivity|].
  cbn [fold_left headers flat_map].
  rewrite IH by (intros x Hx; apply Hall; now right).
  rewrite fold_left_app.
  rewrite (parse_unchecked_line st l) by (apply Hall; now left).
  destruct (note_match l); reflexivity.
Qed.

Lemma parse_plain_line (st : Dict.t (list string) * option string)
    (line : string) :
  plain_line line -> parse_line st line = st.
Proof.
  intros [Hm [Hx HX]]. destruct st as [sel cur]. unfold parse_line.
  rewrite Hm. destruct cur as [cn|]; [|reflexivity].
  rewrite Hx, HX. cbn [orb]. now rewrite andb_false_r.
Qed.

Lemma parse_plain (lines : list string) :
  (forall l, In l lines -> plain_line l) ->
  forall st, fold_left parse_line lines st = st.
Proof.
  induction lines as [|l lines IH]; intros Hall st; [reflexivity|].
  cbn [fold_left]. rewrite parse_plain_line by (apply Hall; now left).
  apply IH. intros x Hx. apply Hall. now right.
Qed.

Lemma headers_app (a b : list string) :
  headers (a ++ b) = headers a ++ headers b.
Proof. unfold headers. apply flat_map_app. Qed.

Lemma headers_plain (lines : list string) :
  (forall l, In l lines -> note_match l = None) -> headers lines = [].
Proof.
  induction lines as [|l lines IH]; intros H; [reflexivity|].
  cbn [headers flat_map]. rewrite (H l (or_introl eq_refl)).
  apply IH. intros x Hx. apply H. now right.
Qed.

Lemma header_line (t : string) :
  t <> "" -> note_match ("## " +++ t) = Some t.
Proof.
  intros Hne. unfold note_match, PyStr.startswith.
  assert (Hp : String.prefix "## " ("## " +++ t) = true)
    by (destruct t; reflexivity).
  rewrite Hp. change (PyStr.drop 3 ("## " +++ t)) with t.
  apply truthy_true in Hne. now rewrite Hne.
Qed.

Lemma get_In {V} (d : Dict.t V) (k : string) (v : V) :
  Dict.get d k = Some v -> In (k, v) d.
Proof.
  induction d as [|[k' v'] d IH]; simpl; [discriminate|].
  destruct (k' =? k) eqn:E.
  - apply String.eqb_eq in E. intros [= ->]. subst. now left.
  - intros H. right. now apply IH.
Qed.

(** An open section makes the run rewrite the checklist and keep the
    batch. *)
Lemma open_section_suspends (notes : list Note) (content t : string) :
  Dict.get (parse_text content) t = Some [] ->
  exists complete incomplete,
    transform notes (Some content)
    = (notes, Some (rewrite_resolution_file notes complete incomplete))
    /\ In t incomplete.
Proof.
  intros Hget. apply get_In in Hget.
  assert (Hin : In t (snd (categorize_selections (parse_text content)))).
  { unfold categorize_selections.
    rewrite ResolverFacts.categorize_incomplete. cbn [app].
    apply (in_map fst _ (t, [])). apply filter_In. split; [exact Hget|].
    reflexivity. }
  unfold transform, parse_resolution_file.
  destruct (categorize_selections (parse_text content)) as [c inc].
  cbn [snd] in Hin. exists c, inc.
  destruct inc as [|x rest]; [destruct Hin|]. split; [reflexivity | exact Hin].
Qed.

(** Characters that a string does not hold. *)
Lemma absent_app (c : ascii) (a b : string) :
  ~ In c (chars a) -> ~ In c (chars b) -> ~ In c (chars (a +++ b)).
Proof.
  unfold chars. intros Ha Hb.
  induction a as [|x a IH]; [exact Hb|].
  simpl in *. intros [H | H]; [tauto|]. apply IH; tauto.
Qed.

Lemma absent_uint (c : ascii) (u : Decimal.uint) :
  Nat.ltb (nat_of_ascii c) 48 = true ->
  ~ In c (chars (NilEmpty.string_of_uint u)).
Proof.
  unfold chars. intros Hc.
  induction u; simpl; try tauto;
    intros [H | H]; try tauto; subst c; discriminate Hc.
Qed.

(** Line ends in the pieces of a line. *)
Lemma one_line_app (a b : string) :
  one_line a -> one_line b -> one_line (a +++ b).
Proof.
  intros [Ha Ha'] [Hb Hb']. split; now apply absent_app.
Qed.

Lemma one_line_dec (n : nat) : one_line (PyStr.dec n).
Proof. split; now apply absent_uint. Qed.

(** A text without carriage return is read as it stands. *)
Lemma read_text_clean (s : string) :
  ~ In (ascii_of_nat 13) (chars s) -> TextFile.read_text s = s.
Proof.
  unfold TextFile.read_text, chars.
  induction s as [|c s IH]; [reflexivity|].
  intros H. cbn [PyStr.universal_newlines].
  destruct (Ascii.eqb c (ascii_of_nat 13)) eqn:E.
  - apply Ascii.eqb_eq in E. exfalso. apply H. now left.
  - f_equal. apply IH. intros Hc. apply H. now right.
Qed.

Lemma absent_join (c : ascii) (sep : string) (parts : list string) :
  ~ In c (chars sep) ->
  (forall x, In x parts -> ~ In c (chars x)) ->
  ~ In c (chars (PyStr.join sep parts)).
Proof.
  intros Hsep. unfold PyStr.join.
  induction parts as [|x parts IH]; intros H; [intros []|].
  destruct parts as [|y parts].
  - apply H. now left.
  - rewrite SplitFacts.concat_cons.
    apply absent_app; [apply H; now left|].
    apply absent_app; [exact Hsep|].
    apply IH. intros z Hz. apply H. now right.
Qed.

(** Lines without line ends, joined and written, are read back as they
    were. *)
Lemma read_lines_join (lines : list string) :
  lines <> [] ->
  (forall l, In l lines -> one_line l) ->
  read_lines (TextFile.write_text (PyStr.join PyStr.nl lines)) = lines.
Proof.
  intros Hne Hall. unfold read_lines, TextFile.write_text.
  rewrite read_text_clean.
  - apply SplitFacts.split_join; [exact Hne|].
    intros x Hx. apply (Hall x Hx).
  - apply absent_join; [vm_compute; intuition discriminate|].
    intros x Hx. apply (Hall x Hx).
Qed.

End ChecklistFacts.

(** X13: a checklist whose lines, as they are read, still hold the
    Instructions header, two hashes and a space before the word, followed
    by lines that are neither headers nor checked options, always parses
    with an empty section named Instructions, whatever stands above the
    header; a run on it therefore rewrites the checklist and returns the
    batch unchanged. *)
Theorem instructions_block_keeps_checklist_open (notes : list Note)
    (data : string) (body tail : list string) :
  ResolveJ.read_lines data = body ++ "## Instructions" :: tail ->
  (forall l, In l tail -> Spec.plain_line l) ->
  Dict.get (ResolveJ.parse_text data) "Instructions" = Some []
  /\ exists complete incomplete,
       ResolveJ.transform notes (Some data)
       = (notes,
          Some (ResolveJ.rewrite_resolution_file notes complete incomplete))
       /\ In "Instructions" incomplete.
Proof.
  intros Hlines Htail.
  assert (Hget : Dict.get (ResolveJ.parse_text data) "Instructions"
                 = Some []).
  { unfold ResolveJ.parse_text. rewrite Hlines.
    rewrite fold_left_app. cbn [fold_left].
    rewrite ChecklistFacts.parse_plain by exact Htail.
    destruct (fold_left ResolveJ.parse_line body (Dict.empty, None))
      as [sel cur].
    cbn [ResolveJ.parse_line ResolveJ.note_match PyStr.startswith
         String.prefix PyStr.drop PyStr.truthy String.eqb negb andb fst].
    apply DictFacts.get_set_same. }
  split; [exact Hget|].
  now apply ChecklistFacts.open_section_suspends.
Qed.

(** X13 on a checklist saved with CR LF line ends, its box checked,
    above the header. *)
Lemma instructions_block_keeps_checklist_open_witness :
  Dict.get
    (ResolveJ.parse_text
       (PyStr.join (String (ascii_of_nat 13) PyStr.nl)
          ["## X"; ""; "- [x] A"; "- [ ] B"; ""; "---"; "";
           "## Instructions"; ""; "2. Save this file"]))
    "Instructions"
  = Some [].
Proof.
  apply (instructions_block_keeps_checklist_open [Scenario.x_note]
           (PyStr.join (String (ascii_of_nat 13) PyStr.nl)
              ["## X"; ""; "- [x] A"; "- [ ] B"; ""; "---"; "";
               "## Instructions"; ""; "2. Save this file"])
           ["## X"; ""; "- [x] A"; "- [ ] B"; ""; "---"; ""]
           [""; "2. Save this file"]).
  - reflexivity.
  - intros l Hl. simpl in Hl.
    destruct Hl as [<- | [<- | []]]; repeat split; reflexivity.
Defined.

Module WriterFacts.
Import ResolveJ Spec ChecklistFacts.

Lemma one_line_cons (c : ascii) (s : string) :
  c <> ascii_of_nat 10 -> c <> ascii_of_nat 13 -> one_line s ->
  one_line (String c s).
Proof.
  unfold one_line, chars. simpl. intros Hc Hc' [Hs Hs'].
  split; intros [H | H]; congruence || tauto.
Qed.

Ltac one_line_tac :=
  repeat first
    [ assumption
    | apply one_line_dec
    | solve [vm_compute; intuition discriminate]
    | apply one_line_cons; [discriminate | discriminate |]
    | apply one_line_app ].

Ltac closed_lines H :=
  simpl in H;
  repeat (destruct H as [H | H]; [subst; try (split; reflexivity) |]);
  try contradiction.

Lemma option_lines_ok (note : Note) :
  (forall p, In p (get_parents note) -> one_line (p_title p)) ->
  forall l, In l (option_lines note) ->
    one_line l /\ unchecked l /\ note_match l = None.
Proof.
  intros Hp l Hl. unfold option_lines in Hl. apply in_map_iff in Hl.
  destruct Hl as [p [<- Hin]]. specialize (Hp p Hin).
  split; [one_line_tac | split; [split|]; reflexivity].
Qed.

(** The lines of one section, under a header of level two or three. *)
Lemma section_lines_ok (note : Note) (hashes t : string) :
  hashes = "## " \/ hashes = "### " ->
  one_line t ->
  (forall p, In p (get_parents note) -> one_line (p_title p)) ->
  forall l,
    In l ([hashes +++ t; ""; "Select ONE parent:"; ""]
            ++ option_lines note ++ [""]) ->
    one_line l /\ unchecked l.
Proof.
  intros Hh Ht Hp l Hl. apply in_app_or in Hl. destruct Hl as [Hl | Hl].
  - simpl in Hl.
    destruct Hl as [<- | [<- | [<- | [<- | []]]]];
      try (split; [one_line_tac | split; reflexivity]).
    destruct Hh as [-> | ->];
      (split; [one_line_tac | split; reflexivity]).
  - apply in_app_or in Hl. destruct Hl as [Hl | [<- | []]].
    + destruct (option_lines_ok note Hp l Hl) as [H1 [H2 _]]. tauto.
    + split; [one_line_tac | split; reflexivity].
Qed.

Lemma section_headers (note : Note) (t : string) :
  t <> "" ->
  headers (["## " +++ t; ""; "Select ONE parent:"; ""]
             ++ option_lines note ++ [""]) = [t].
Proof.
  intros Hne. rewrite headers_app.
  assert (HA : headers ["## " +++ t; ""; "Select ONE parent:"; ""] = [t]).
  { unfold headers. cbn [flat_map]. rewrite (header_line t Hne).
    reflexivity. }
  assert (HB : headers (option_lines note ++ [""]) = []).
  { apply headers_plain. intros l Hl. apply in_app_or in Hl.
    destruct Hl as [Hl | [<- | []]]; [|reflexivity].
    unfold option_lines in Hl. apply in_map_iff in Hl.
    destruct Hl as [p [<- _]]. reflexivity. }
  now rewrite HA, HB.
Qed.

Lemma subsection_headers (note : Note) (t : string) :
  headers (["### " +++ t; ""; "Select ONE parent:"; ""]
             ++ option_lines note ++ [""]) = [].
Proof.
  apply headers_plain. intros l Hl. apply in_app_or in Hl.
  destruct Hl as [Hl | Hl].
  - simpl in Hl. destruct Hl as [<- | [<- | [<- | [<- | []]]]]; reflexivity.
  - apply in_app_or in Hl. destruct Hl as [Hl | [<- | []]]; [|reflexivity].
    unfold option_lines in Hl. apply in_map_iff in Hl.
    destruct Hl as [p [<- _]]. reflexivity.
Qed.

End WriterFacts.

(** X14: what the resolver writes first, it reads back as one section
    per multi-parent note, in batch order and with nothing selected,
    followed by a section named Instructions, provided the titles of
    these notes are not empty and neither they nor the titles of their
    parents hold a line feed or a carriage return. *)
Theorem generated_checklist_sections (notes : list Note) :
  (forall n, In n (ResolveJ.get_multi_parent_notes notes) ->
     title n <> "" /\ Spec.one_line (title n)
     /\ forall p, In p (get_parents n) -> Spec.one_line (p_title p)) ->
  ResolveJ.parse_text (ResolveJ.generate_resolution_file notes)
  = Spec.empty_sections
      (map title (ResolveJ.get_multi_parent_notes notes)
         ++ ["Instructions"]).
Proof.
  intros Hok.
  unfold ResolveJ.generate_resolution_file, ResolveJ.parse_text.
  set (multi := ResolveJ.get_multi_parent_notes notes) in *.
  set (sections :=
         flat_map (fun note =>
                     ["## " +++ title note; ""; "Select ONE parent:"; ""]
                       ++ ResolveJ.option_lines note ++ [""]) multi).
  assert (Hsec : forall l, In l sections ->
                   Spec.one_line l /\ Spec.unchecked l).
  { intros l Hl. apply in_flat_map in Hl. destruct Hl as [n [Hn Hl]].
    destruct (Hok n Hn) as [_ [Ht Hp]].
    apply (WriterFacts.section_lines_ok n "## " (title n));
      [now left | assumption | assumption | exact Hl]. }
  assert (Hlines : forall l,
            In l (([ "# Resolve Multi-Parent Notes"; "";
                     "**" +++ PyStr.dec (List.length multi)
                       +++ " notes have multiple parents.**";
                     "";
                     "For each note below, select **EXACTLY ONE** parent by checking its checkbox.";
                     "All unselected parents will be removed."; ""; "---";
                     "" ] ++ sections)
                  ++ [ "---"; ""; "## Instructions"; "";
                       "1. Check exactly ONE checkbox per note above";
                       "2. Save this file"; ResolveJ.run_line; "";
                       "Repeat until all notes are resolved!" ]) ->
            Spec.one_line l /\ Spec.unchecked l).
  { intros l Hl. apply in_app_or in Hl. destruct Hl as [Hl | Hl].
    - apply in_app_or in Hl. destruct Hl as [Hl | Hl]; [|now apply Hsec].
      simpl in Hl.
      repeat (destruct Hl as [<- | Hl];
              [split; [WriterFacts.one_line_tac | split; reflexivity]|]).
      destruct Hl.
    - simpl in Hl.
      repeat (destruct Hl as [<- | Hl];
              [split; [WriterFacts.one_line_tac | split; reflexivity]|]).
      destruct Hl. }
  rewrite ChecklistFacts.read_lines_join;
    [| intros H; apply app_eq_nil in H; destruct H as [_ H]; discriminate H
     | intros x Hx; now apply Hlines].
  rewrite ChecklistFacts.parse_unchecked by (intros l Hl; now apply Hlines).
  rewrite !ChecklistFacts.headers_app.
  assert (Hh : Spec.headers sections = map title multi).
  { unfold sections. clear Hsec Hlines.
    induction multi as [|n rest IH]; [reflexivity|].
    cbn [flat_map map]. rewrite ChecklistFacts.headers_app.
    rewrite WriterFacts.section_headers
      by (apply (Hok n); now left).
    rewrite IH; [reflexivity|].
    intros m Hm. apply Hok. now right. }
  rewrite Hh. reflexivity.
Qed.

(** X14 on the note X: one open section X, then Instructions. *)
Lemma generated_checklist_sections_witness :
  ResolveJ.parse_text (ResolveJ.generate_resolution_file [Scenario.x_note])
  = [("X", []); ("Instructions", [])].
Proof.
  apply (generated_checklist_sections [Scenario.x_note]).
  intros n [<- | []].
  split; [discriminate | split; [vm_compute; intuition discriminate|]].
  intros p Hp. simpl in Hp.
  destruct Hp as [<- | [<- | [<- | []]]]; vm_compute; intuition discriminate.
Defined.

(** X15: a rewritten checklist reads back as three empty sections, named
    after its own headings, provided no title it prints (of an incomplete
    or complete section, of a selection, of a parent) holds a line feed
    or a carriage return: the notes it lists sit under headers of level
    three, which the parser does not take for sections, and the
    selections made so far stand in summary lines, which it does not take
    for checked options.  Nothing selected before the rewrite is read
    again. *)
Theorem rewritten_checklist_forgets (notes : list Note)
    (complete : Dict.t string) (incomplete : list string) :
  (forall t, In t incomplete -> Spec.one_line t) ->
  (forall n p, In n notes -> In p (get_parents n) ->
     Spec.one_line (p_title p)) ->
  (forall t p, In (t, p) complete -> Spec.one_line t /\ Spec.one_line p) ->
  ResolveJ.parse_text
    (ResolveJ.rewrite_resolution_file notes complete incomplete)
  = [ ("INCOMPLETE - Needs Work", []);
      ("COMPLETE - Already Selected", []);
      ("Instructions", []) ].
Proof.
  intros Hinc Hpar Hcom.
  unfold ResolveJ.rewrite_resolution_file, ResolveJ.parse_text.
  set (sections :=
         flat_map (fun note_title =>
                     match ResolveJ.get_note_by_title notes note_title with
                     | None => []
                     | Some note =>
                         ["### " +++ note_title; ""; "Select ONE parent:"; ""]
                           ++ ResolveJ.option_lines note ++ [""]
                     end) incomplete).
  set (summary :=
         map (fun '(note_title, selected_parent) =>
                "- **" +++ note_title +++ "** " +++ ResolveJ.arrow +++ " "
                  +++ selected_parent) complete).
  assert (Hsec : forall l, In l sections ->
                   Spec.one_line l /\ Spec.unchecked l).
  { intros l Hl. apply in_flat_map in Hl. destruct Hl as [t [Ht Hl]].
    destruct (ResolveJ.get_note_by_title notes t) as [n|] eqn:Hf;
      [|destruct Hl].
    apply find_some in Hf. destruct Hf as [Hn _].
    apply (WriterFacts.section_lines_ok n "### " t);
      [now right | now apply Hinc | intros p Hp; now apply (Hpar n)
      | exact Hl]. }
  assert (Hsech : Spec.headers sections = []).
  { unfold sections. clear Hsec.
    induction incomplete as [|t rest IH]; [reflexivity|].
    cbn [flat_map]. rewrite ChecklistFacts.headers_app.
    rewrite IH by (intros x Hx; apply Hinc; now right).
    destruct (ResolveJ.get_note_by_title notes t);
      [now rewrite WriterFacts.subsection_headers | reflexivity]. }
  assert (Hsum : forall l, In l summary ->
                   Spec.one_line l /\ Spec.unchecked l
                   /\ ResolveJ.note_match l = None).
  { intros l Hl. unfold summary in Hl. apply in_map_iff in Hl.
    destruct Hl as [[t p] [<- Hin]]. destruct (Hcom t p Hin) as [Ht Hp].
    split; [WriterFacts.one_line_tac | split; [split|]; reflexivity]. }
  assert (Hsumh : Spec.headers summary = []).
  { apply ChecklistFacts.headers_plain. intros l Hl. now apply Hsum. }
  match goal with
  | |- fst (fold_left _
              (ResolveJ.read_lines
                 (TextFile.write_text (PyStr.join _ ?ls))) _) = _ =>
      set (lines := ls)
  end.
  assert (Hlines : forall l, In l lines ->
                     Spec.one_line l /\ Spec.unchecked l).
  { intros l Hl. unfold lines in Hl.
    apply in_app_or in Hl. destruct Hl as [Hl | Hl].
    - apply in_app_or in Hl.
      destruct Hl as [Hl | Hl];
        [|destruct (Hsum l Hl) as [H1 [H2 _]]; split; assumption].
      apply in_app_or in Hl. destruct Hl as [Hl | Hl].
      + apply in_app_or in Hl. destruct Hl as [Hl | Hl]; [|now apply Hsec].
        simpl in Hl.
        repeat (destruct Hl as [<- | Hl];
                [split; [WriterFacts.one_line_tac | split; reflexivity]|]).
        contradiction.
      + simpl in Hl.
        repeat (destruct Hl as [<- | Hl];
                [split; [WriterFacts.one_line_tac | split; reflexivity]|]).
        contradiction.
    - simpl in Hl.
      repeat (destruct Hl as [<- | Hl];
              [split; [WriterFacts.one_line_tac | split; reflexivity]|]).
      contradiction. }
  rewrite ChecklistFacts.read_lines_join;
    [| unfold lines; intros H; apply app_eq_nil in H; destruct H as [_ H];
       discriminate H
     | intros x Hx; now apply Hlines].
  rewrite ChecklistFacts.parse_unchecked by (intros l Hl; now apply Hlines).
  unfold lines. rewrite !ChecklistFacts.headers_app, Hsech, Hsumh.
  reflexivity.
Qed.

(** X15 on a checklist that lists X as incomplete and Y as complete. *)
Lemma rewritten_checklist_forgets_witness :
  ResolveJ.parse_text
    (ResolveJ.rewrite_resolution_file [Scenario.x_note] [("Y", "A")] ["X"])
  = [ ("INCOMPLETE - Needs Work", []);
      ("COMPLETE - Already Selected", []);
      ("Instructions", []) ].
Proof.
  apply (rewritten_checklist_forgets [Scenario.x_note] [("Y", "A")] ["X"]).
  - intros t [<- | []]. vm_compute. intuition discriminate.
  - intros n p [<- | []] Hp. simpl in Hp.
    destruct Hp as [<- | [<- | [<- | []]]]; vm_compute; intuition discriminate.
  - intros t p [[= <- <-] | []].
    split; vm_compute; intuition discriminate.
Defined.

(* ================================================================== *)
(** ** Runs of the resolver *)

(** X16: a run of script J changes the batch only when it leaves no
    checklist behind.  Without a checklist it writes one exactly when
    some note has several parents, and returns the batch as it is either
    way; and [main] hands a batch to [save_output] only when no checklist
    is left, the batch being the one [transform] returned. *)
Theorem batch_changes_only_when_checklist_goes (notes : list Note)
    (file : option string) (response : string) :
  (forall notes' text,
      ResolveJ.transform notes file = (notes', Some text) -> notes' = notes)
  /\ ResolveJ.transform notes None
     = (notes,
        match ResolveJ.get_multi_parent_notes notes with
        | [] => None
        | _ :: _ => Some (ResolveJ.generate_resolution_file notes)
        end)
  /\ (forall batch file',
        ResolveJ.main notes file response = (ResolveJ.saved batch, file') ->
        file' = None /\ ResolveJ.transform notes file = (batch, None)).
Proof.
  split; [| split].
  - intros notes' text. unfold ResolveJ.transform.
    destruct file as [content|].
    + destruct (ResolveJ.categorize_selections _) as [c inc].
      destruct inc; [discriminate | now intros [= <- _]].
    + destruct (Nat.eqb _ 0); [discriminate | now intros [= <- _]].
  - unfold ResolveJ.transform.
    destruct (ResolveJ.get_multi_parent_notes notes); reflexivity.
  - intros batch file'. unfold ResolveJ.main.
    destruct (ResolveJ.transform notes file) as [notes' [text|]];
      [discriminate|].
    destruct (Validators.validate_notes notes');
      [now intros [= <- <-]|].
    destruct (negb _); [discriminate | now intros [= <- <-]].
Qed.

(** X16 on the note X and a checklist with B checked. *)
Lemma batch_changes_only_when_checklist_goes_witness :
  ResolveJ.transform [Scenario.x_note] (Some (Scenario.checklist_for "B"))
  = ([set_parents Scenario.x_note (Some [Scenario.pB])], None).
Proof.
  destruct (batch_changes_only_when_checklist_goes
              [Scenario.x_note] (Some (Scenario.checklist_for "B")) "y")
    as [_ [_ H]].
  destruct (H [set_parents Scenario.x_note (Some [Scenario.pB])] None
              eq_refl) as [_ Ht].
  exact Ht.
Defined.

Module ApplyFacts.

Lemma filter_length_one (f : Parent -> bool) (ps : list Parent) :
  List.length (filter f ps) = 1 ->
  exists p, filter f ps = [p] /\ In p ps /\ f p = true.
Proof.
  intros H. destruct (filter f ps) as [|p [|q l]] eqn:E; try discriminate.
  exists p. split; [reflexivity|].
  assert (Hin : In p (filter f ps)) by (rewrite E; now left).
  apply filter_In in Hin. exact Hin.
Qed.

End ApplyFacts.

(** X17: script I never empties a parents list.  Each note comes out
    either untouched or with exactly one of its former parents, the one
    whose title was selected; and it is reported as invalid exactly when
    its section had no single selection or the selection did not match
    exactly one parent. *)
Theorem script_I_keeps_or_selects (notes : list Note)
    (selections : Dict.t (option string)) (i : nat) (note : Note) :
  nth_error notes i = Some note ->
  exists note',
    nth_error (fst (ResolveI.apply_selections notes selections)) i
    = Some note'
    /\ (note' = note
        \/ exists p, In p (get_parents note)
                     /\ Dict.get selections (title note)
                        = Some (Some (p_title p))
                     /\ note' = set_parents note (Some [p]))
    /\ (In (title note) (snd (ResolveI.apply_selections notes selections))
        <-> exists m, In m notes /\ title m = title note
              /\ (Dict.get selections (title m) = Some None
                  \/ exists s, Dict.get selections (title m) = Some (Some s)
                       /\ List.length
                            (filter (fun p => p_title p =? s) (get_parents m))
                          <> 1)).
Proof.
  revert i. induction notes as [|a rest IH]; intros i Hn;
    [now destruct i|].
  cbn [ResolveI.apply_selections].
  destruct (ResolveI.apply_selections rest selections) as [rest' inv] eqn:Er.
  cbn [fst snd] in IH.
  assert (Hinv : forall t,
            In t inv <->
            exists m, In m rest /\ title m = t
              /\ (Dict.get selections (title m) = Some None
                  \/ exists s, Dict.get selections (title m) = Some (Some s)
                       /\ List.length
                            (filter (fun p => p_title p =? s) (get_parents m))
                          <> 1)).
  { clear IH Hn i note. revert rest' inv Er.
    induction rest as [|b l IHl]; intros rest' inv Er t.
    - cbn in Er. injection Er as <- <-. split; [intros [] |].
      intros [m [[] _]].
    - cbn [ResolveI.apply_selections] in Er.
      destruct (ResolveI.apply_selections l selections) as [l' inv'] eqn:El.
      specialize (IHl l' inv' eq_refl t).
      destruct (Dict.get selections (title b)) as [[s|]|] eqn:Hg.
      + destruct (Nat.eqb (List.length
                   (filter (fun p => p_title p =? s) (get_parents b))) 1)
          eqn:Hlen; injection Er as <- <-.
        * apply Nat.eqb_eq in Hlen. rewrite IHl. split.
          -- intros [m [Hm H]]. exists m. split; [now right | exact H].
          -- intros [m [[<- | Hm] [Ht H]]]; [|exists m; tauto].
             rewrite Hg in H. destruct H as [H | [s' [[= <-] H]]];
               [discriminate | contradiction].
        * apply Nat.eqb_neq in Hlen. cbn [In]. rewrite IHl. split.
          -- intros [<- | [m [Hm H]]].
             ++ exists b. split; [now left | split; [reflexivity|]].
                right. exists s. split; assumption.
             ++ exists m. split; [now right | exact H].
          -- intros [m [[<- | Hm] [Ht H]]]; [now left|].
             right. exists m. tauto.
      + injection Er as <- <-. cbn [In]. rewrite IHl. split.
        * intros [<- | [m [Hm H]]].
          -- exists b. split; [now left | split; [reflexivity | now left]].
          -- exists m. split; [now right | exact H].
        * intros [m [[<- | Hm] [Ht H]]]; [now left|].
          right. exists m. tauto.
      + injection Er as <- <-. rewrite IHl. split.
        * intros [m [Hm H]]. exists m. split; [now right | exact H].
        * intros [m [[<- | Hm] [Ht H]]]; [|exists m; tauto].
          rewrite Hg in H. destruct H as [H | [s' [H _]]]; discriminate. }
  assert (Hhead : exists a' inv0,
            (match Dict.get selections (title a) with
             | Some (Some selected_parent) =>
                 if Nat.eqb
                      (List.length
                         (filter (fun p => p_title p =? selected_parent)
                                 (get_parents a))) 1
                 then (set_parents a
                         (Some (filter (fun p => p_title p =? selected_parent)
                                       (get_parents a))) :: rest', inv)
                 else (a :: rest', title a :: inv)
             | Some None => (a :: rest', title a :: inv)
             | None => (a :: rest', inv)
             end) = (a' :: rest', inv0)
            /\ (a' = a
                \/ exists p, In p (get_parents a)
                     /\ Dict.get selections (title a)
                        = Some (Some (p_title p))
                     /\ a' = set_parents a (Some [p]))
            /\ (forall t, In t inv0 <->
                  (t = title a
                   /\ (Dict.get selections (title a) = Some None
                       \/ exists s,
                            Dict.get selections (title a) = Some (Some s)
                            /\ List.length
                                 (filter (fun p => p_title p =? s)
                                         (get_parents a)) <> 1))
                  \/ In t inv)).
  { destruct (Dict.get selections (title a)) as [[s|]|] eqn:Hg.
    - destruct (Nat.eqb _ 1) eqn:Hlen.
      + apply Nat.eqb_eq in Hlen.
        destruct (ApplyFacts.filter_length_one _ _ Hlen) as [p [Hf [Hp Ht]]].
        apply String.eqb_eq in Ht. subst s.
        eexists; eexists. split; [reflexivity|]. split.
        * right. exists p. rewrite Hf. tauto.
        * intros t. split; [tauto|].
          intros [[_ [H | [s' [[= <-] H]]]] | H];
            [discriminate | contradiction | exact H].
      + apply Nat.eqb_neq in Hlen.
        eexists; eexists. split; [reflexivity|]. split; [now left|].
        intros t. cbn [In]. split.
        * intros [<- | H]; [|tauto]. left. split; [reflexivity|].
          right. exists s. tauto.
        * intros [[-> _] | H]; tauto.
    - eexists; eexists. split; [reflexivity|]. split; [now left|].
      intros t. cbn [In]. split.
      + intros [<- | H]; tauto.
      + intros [[-> _] | H]; tauto.
    - eexists; eexists. split; [reflexivity|]. split; [now left|].
      intros t. split; [tauto|].
      intros [[_ [H | [s' [H _]]]] | H]; [discriminate | discriminate | exact H]. }
  destruct Hhead as [a' [inv0 [Heq [Ha' Hinv0]]]]. rewrite Heq.
  cbn [fst snd].
  destruct i as [|i]; cbn [nth_error] in Hn |- *.
  - injection Hn as <-. exists a'. split; [reflexivity|]. split; [exact Ha'|].
    rewrite Hinv0, Hinv. split.
    + intros [[_ H] | [m [Hm H]]].
      * exists a. split; [now left | split; [reflexivity | exact H]].
      * exists m. split; [now right | exact H].
    + intros [m [[<- | Hm] [Ht H]]].
      * left. split; [reflexivity | exact H].
      * right. exists m. tauto.
  - destruct (IH i Hn) as [note' [Hn' [Hshape _]]].
    exists note'. split; [exact Hn'|]. split; [exact Hshape|].
    rewrite Hinv0, Hinv. split.
    + intros [[Ht H] | [m [Hm H]]].
      * exists a. split; [now left | split; [now symmetry | exact H]].
      * exists m. split; [now right | exact H].
    + intros [m [[<- | Hm] [Ht H]]].
      * left. split; [now symmetry | exact H].
      * right. exists m. tauto.
Qed.

(** X17 on the note X and the selection Z, which names no parent. *)
Lemma script_I_keeps_or_selects_witness :
  exists note',
    nth_error (fst (ResolveI.apply_selections [Scenario.x_note]
                      [("X", Some "Z")])) 0 = Some note'
    /\ In "X" (snd (ResolveI.apply_selections [Scenario.x_note]
                      [("X", Some "Z")])).
Proof.
  destruct (script_I_keeps_or_selects [Scenario.x_note] [("X", Some "Z")] 0
              Scenario.x_note eq_refl) as [note' [Hn [_ Hinv]]].
  exists note'. split; [exact Hn|].
  apply Hinv. exists Scenario.x_note.
  split; [now left | split; [reflexivity|]].
  right. exists "Z". split; [reflexivity | discriminate].
Defined.

(** X18: the two resolvers agree wherever script I has nothing to report:
    if script I applies a set of single selections and finds no invalid
    note, script J applied to the same selections returns the same
    batch. *)
Theorem scripts_agree_on_valid_selections (notes : list Note)
    (selections_I : Dict.t (option string)) (selections_J : Dict.t string) :
  (forall t, Dict.get selections_J t
             = match Dict.get selections_I t with
               | Some (Some p) => Some p
               | _ => None
               end) ->
  snd (ResolveI.apply_selections notes selections_I) = [] ->
  ResolveJ.apply_selections notes selections_J
  = fst (ResolveI.apply_selections notes selections_I).
Proof.
  intros Hrel. induction notes as [|a rest IH]; [reflexivity|].
  cbn [ResolveI.apply_selections ResolveJ.apply_selections map].
  destruct (ResolveI.apply_selections rest selections_I) as [rest' inv].
  cbn [fst snd] in IH. unfold ResolveJ.apply_note. rewrite Hrel.
  destruct (Dict.get selections_I (title a)) as [[s|]|].
  - destruct (Nat.eqb _ 1); cbn [fst snd]; [|discriminate].
    intros ->. f_equal. now apply IH.
  - discriminate.
  - cbn [fst snd]. intros ->. f_equal. now apply IH.
Qed.

(** X18 on the note X with B selected. *)
Lemma scripts_agree_on_valid_selections_witness :
  ResolveJ.apply_selections [Scenario.x_note] [("X", "B")]
  = fst (ResolveI.apply_selections [Scenario.x_note] [("X", Some "B")]).
Proof.
  apply (scripts_agree_on_valid_selections
           [Scenario.x_note] [("X", Some "B")] [("X", "B")]).
  - intros t. cbn [Dict.get]. destruct ("X" =? t); reflexivity.
  - reflexivity.
Defined.

(* ================================================================== *)
(** ** The two parsers *)

Module SiblingFacts.
Import Spec.

Lemma set_absent {V} (d : Dict.t V) (k : string) (v : V) :
  ~ In k (Dict.keys d) -> Dict.set d k v = d ++ [(k, v)].
Proof.
  induction d as [|[k' v'] d IH]; simpl; intros Hnin; [reflexivity|].
  destruct (k' =? k) eqn:E.
  - apply String.eqb_eq in E. tauto.
  - f_equal. apply IH. tauto.
Qed.

Lemma keys_app {V} (a b : Dict.t V) :
  Dict.keys (a ++ b) = Dict.keys a ++ Dict.keys b.
Proof. unfold Dict.keys. apply map_app. Qed.

(** Over sections with distinct titles the conversion of script I keeps
    one entry per section, in order. *)
Lemma single_selection_map (selections : Dict.t (list string)) :
  forall acc,
    NoDup (Dict.keys acc ++ Dict.keys selections) ->
    fold_left ResolveI.single_selection selections acc
    = acc ++ map to_single selections.
Proof.
  induction selections as [|[t ps] rest IH]; intros acc Hnd; simpl.
  - now rewrite app_nil_r.
  - assert (Hnin : ~ In t (Dict.keys acc)).
    { intros Hin. apply NoDup_remove_2 in Hnd. apply Hnd.
      apply in_or_app. now left. }
    assert (Hstep : ResolveI.single_selection acc (t, ps)
                    = acc ++ [to_single (t, ps)]).
    { unfold ResolveI.single_selection, to_single. cbn [fst snd].
      destruct ps as [|p [|q l]]; now apply set_absent. }
    change (match ps with
            | [p] => Dict.set acc t (Some p)
            | _ => Dict.set acc t None
            end) with (ResolveI.single_selection acc (t, ps)).
    rewrite Hstep, IH.
    + now rewrite <- app_assoc.
    + rewrite keys_app. cbn [Dict.keys map fst to_single].
      rewrite <- app_assoc. exact Hnd.
Qed.

(** On a named state the two loops make the same step, and the state
    stays named. *)
Lemma parse_lines_agree (st : Dict.t (list string) * option string)
    (line : string) :
  named st ->
  ResolveI.parse_line st line = ResolveJ.parse_line st line
  /\ named (ResolveJ.parse_line st line).
Proof.
  destruct st as [sel cur]. unfold named. cbn [snd]. intros Hnamed.
  unfold ResolveI.parse_line, ResolveJ.parse_line, ResolveJ.note_match.
  destruct (PyStr.startswith "## " line && PyStr.truthy (PyStr.drop 3 line))
    eqn:Hh.
  - split; [reflexivity|]. cbn [snd]. intros cn [= <-].
    apply andb_prop in Hh. tauto.
  - destruct cur as [cn|].
    + rewrite (Hnamed cn eq_refl). cbn [andb].
      destruct (PyStr.startswith "- [x] " line),
               (PyStr.startswith "- [X] " line); cbn [orb];
        (split; [reflexivity|]);
        try (destruct (Dict.get sel cn)); cbn [snd]; exact Hnamed.
    + cbn [andb orb].
      destruct (PyStr.startswith "- [X] " line);
        (split; [reflexivity | exact Hnamed]).
Qed.

Lemma parse_folds_agree (lines : list string) :
  forall st, named st ->
    fold_left ResolveI.parse_line lines st
    = fold_left ResolveJ.parse_line lines st.
Proof.
  induction lines as [|l lines IH]; intros st H; [reflexivity|].
  cbn [fold_left]. destruct (parse_lines_agree st l H) as [-> Hn].
  now apply IH.
Qed.

(** What script I reads from a file, from what script J reads. *)
Lemma parse_I_as_J (data : string) :
  ResolveI.parse_resolution_file (Some data)
  = map to_single (ResolveJ.parse_text data).
Proof.
  unfold ResolveI.parse_resolution_file, ResolveJ.parse_text,
    ResolveJ.read_lines.
  rewrite parse_folds_agree by (intros cn H; discriminate H).
  rewrite single_selection_map; [reflexivity|].
  apply (ResolverFacts.parse_text_NoDup data).
Qed.

End SiblingFacts.

(** X19: the parsers of scripts I and J read the same sections from any
    checklist: the result of script I is that of script J with each
    section reduced to its only selection, or to [None] when it has no
    selection or several.  The looser test of script I on checked lines
    makes no difference. *)
Theorem parsers_agree (file : option string) :
  ResolveI.parse_resolution_file file
  = map Spec.to_single (ResolveJ.parse_resolution_file file).
Proof.
  destruct file as [data|]; [|reflexivity].
  unfold ResolveJ.parse_resolution_file.
  apply SiblingFacts.parse_I_as_J.
Qed.

Module PartitionFacts.
Import ResolveJ.

Lemma in_get {V} (d : Dict.t V) (k : string) (v : V) :
  NoDup (Dict.keys d) -> In (k, v) d -> Dict.get d k = Some v.
Proof.
  induction d as [|[k' v'] d IH]; simpl; intros Hnd Hin; [destruct Hin|].
  apply NoDup_cons_iff in Hnd. destruct Hnd as [Hnin Hnd].
  destruct Hin as [[= -> ->] | Hin].
  - now rewrite String.eqb_refl.
  - destruct (k' =? k) eqn:E; [|now apply IH].
    apply String.eqb_eq in E. subst k'. exfalso. apply Hnin.
    apply (in_map fst _ (k, v)). exact Hin.
Qed.

(** Where an entry of [complete] comes from. *)
Lemma complete_origin (selections : Dict.t (list string)) (t p : string) :
  forall complete incomplete,
    Dict.get (fst (fold_left categorize_step selections
                             (complete, incomplete))) t = Some p ->
    Dict.get complete t = Some p \/ In (t, [p]) selections.
Proof.
  induction selections as [|[k ps] rest IH]; intros c inc H; simpl in H;
    [now left|].
  destruct ps as [|q [|q' l]].
  - destruct (IH _ _ H) as [H' | H']; [now left | right; now right].
  - destruct (IH _ _ H) as [H' | H']; [|right; now right].
    destruct (String.eqb k t) eqn:E.
    + apply String.eqb_eq in E. subst k.
      rewrite DictFacts.get_set_same in H'. injection H' as <-.
      right. now left.
    + rewrite DictFacts.get_set_other in H'; [now left|].
      intros Heq. rewrite Heq, String.eqb_refl in E. discriminate.
  - destruct (IH _ _ H) as [H' | H']; [now left | right; now right].
Qed.

Lemma categorize_lengths (selections : Dict.t (list string)) :
  forall complete incomplete,
    NoDup (Dict.keys complete ++ Dict.keys selections) ->
    List.length (fst (fold_left categorize_step selections
                                (complete, incomplete)))
    + List.length (snd (fold_left categorize_step selections
                                  (complete, incomplete)))
    = List.length complete + List.length incomplete
      + List.length selections.
Proof.
  induction selections as [|[k ps] rest IH]; intros c inc Hnd; simpl;
    [lia|].
  assert (Hnin : ~ In k (Dict.keys c)).
  { intros Hin. apply NoDup_remove_2 in Hnd. apply Hnd.
    apply in_or_app. now left. }
  assert (Hrest : NoDup (Dict.keys c ++ Dict.keys rest))
    by (now apply NoDup_remove_1 in Hnd).
  destruct ps as [|q [|q' l]].
  - rewrite IH by exact Hrest. rewrite length_app. simpl. lia.
  - rewrite IH.
    + rewrite (SiblingFacts.set_absent c k q Hnin), length_app. simpl. lia.
    + rewrite (SiblingFacts.set_absent c k q Hnin), SiblingFacts.keys_app.
      cbn [Dict.keys map fst]. rewrite <- app_assoc. exact Hnd.
  - rewrite IH by exact Hrest. rewrite length_app. simpl. lia.
Qed.

End PartitionFacts.

(** X20: every section of a checklist is classified exactly once: with
    one checked line it is in [complete] under that line and not in
    [incomplete]; otherwise it is in [incomplete] and not in [complete];
    and the two together are as many as the sections. *)
Theorem sections_classified_once (content : string) :
  let selections := ResolveJ.parse_text content in
  let complete := fst (ResolveJ.categorize_selections selections) in
  let incomplete := snd (ResolveJ.categorize_selections selections) in
  List.length complete + List.length incomplete = List.length selections
  /\ forall t ps, In (t, ps) selections ->
       (exists p, ps = [p] /\ Dict.get complete t = Some p
                  /\ ~ In t incomplete)
       \/ (List.length ps <> 1 /\ In t incomplete
           /\ Dict.get complete t = None).
Proof.
  intros selections complete incomplete.
  pose proof (ResolverFacts.parse_text_NoDup content) as Hnd.
  fold selections in Hnd.
  split.
  - pose proof (PartitionFacts.categorize_lengths selections Dict.empty []
                  Hnd) as H.
    exact H.
  - intros t ps Hin.
    pose proof (PartitionFacts.in_get _ _ _ Hnd Hin) as Hget.
    assert (Hinc : forall u, In u incomplete <->
              exists qs, In (u, qs) selections /\ List.length qs <> 1).
    { intros u. unfold incomplete.
      rewrite categorize_counts_only. rewrite in_map_iff. split.
      - intros [[u' qs] [Hu Hf]]. cbn [fst] in Hu. subst u'.
        apply filter_In in Hf. destruct Hf as [Hf Hb]. cbn [snd] in Hb.
        exists qs. split; [exact Hf|].
        intros Hl. rewrite Hl in Hb. discriminate Hb.
      - intros [qs [Hq Hl]]. exists (u, qs). split; [reflexivity|].
        apply filter_In. split; [exact Hq|]. cbn [snd].
        destruct (Nat.eqb (List.length qs) 1) eqn:E; [|reflexivity].
        apply Nat.eqb_eq in E. contradiction. }
    destruct ps as [|p [|q l]].
    + right. split; [discriminate|]. split.
      * apply Hinc. exists []. split; [exact Hin | discriminate].
      * destruct (Dict.get complete t) as [p|] eqn:Hc; [|reflexivity].
        apply PartitionFacts.complete_origin in Hc.
        destruct Hc as [Hc | Hc]; [discriminate Hc|].
        pose proof (PartitionFacts.in_get _ _ _ Hnd Hc) as Hc'.
        fold selections in Hc'. congruence.
    + left. exists p. split; [reflexivity|]. split.
      * apply (ResolverFacts.categorize_complete selections t p
                 Dict.empty [] Hnd Hget).
      * intros Hi. apply Hinc in Hi. destruct Hi as [qs [Hq Hl]].
        pose proof (PartitionFacts.in_get _ _ _ Hnd Hq) as Hq'.
        fold selections in Hq'. rewrite Hget in Hq'.
        injection Hq' as <-. now apply Hl.
    + right. split; [discriminate|]. split.
      * apply Hinc. exists (p :: q :: l). split; [exact Hin | discriminate].
      * destruct (Dict.get complete t) as [p'|] eqn:Hc; [|reflexivity].
        apply PartitionFacts.complete_origin in Hc.
        destruct Hc as [Hc | Hc]; [discriminate Hc|].
        pose proof (PartitionFacts.in_get _ _ _ Hnd Hc) as Hc'.
        fold selections in Hc'. congruence.
Qed.

(** X20 on a checklist whose section X has the single selection B. *)
Lemma sections_classified_once_witness :
  exists p,
    ["B"] = [p]
    /\ Dict.get
         (fst (ResolveJ.categorize_selections
                 (ResolveJ.parse_text (Scenario.checklist_for "B")))) "X"
       = Some p.
Proof.
  destruct (sections_classified_once (Scenario.checklist_for "B"))
    as [_ H].
  destruct (H "X" ["B"]) as [[p [Hp [Hc _]]] | [Hl _]].
  - vm_compute. tauto.
  - exists p. split; assumption.
  - exfalso. apply Hl. reflexivity.
Defined.

(* ================================================================== *)
(** ** The selection of a section, from the text of the checklist *)

Module SelectionFacts.
Import ResolveJ Spec.








End SelectionFacts.




(* ================================================================== *)
(** ** The four steps of script U *)

Module StepFacts.
Import OrdinalPaths.

Lemma step3_loop_shape (ap : list string) (todo : list Note) :
  forall done, exists tail,
    step3_loop ap done todo = done ++ tail
    /\ List.length tail = List.length todo.
Proof.
  induction todo as [|n rest IH]; intros done; simpl.
  - exists []. now rewrite app_nil_r.
  - destruct (IH (done ++ [step3_note ap (done ++ n :: rest) n]))
      as [tail [Heq Hlen]].
    exists (step3_note ap (done ++ n :: rest) n :: tail).
    rewrite Heq, <- app_assoc. simpl. now rewrite Hlen.
Qed.

(** Each note comes out of step 3 as the body of the loop leaves it, run
    against some state of the list. *)
Lemma step3_loop_at (ap : list string) (todo : list Note) :
  forall done i n,
    nth_error todo i = Some n ->
    exists current,
      nth_error (step3_loop ap done todo) (List.length done + i)
      = Some (step3_note ap current n).
Proof.
  induction todo as [|a rest IH]; intros done i n Hn; [now destruct i|].
  destruct i as [|i]; simpl in Hn.
  - injection Hn as ->. exists (done ++ n :: rest). cbn [step3_loop].
    destruct (step3_loop_shape ap rest
                (done ++ [step3_note ap (done ++ n :: rest) n]))
      as [tail [Heq _]].
    rewrite Heq, <- app_assoc, Nat.add_0_r.
    rewrite nth_error_app2 by lia. now rewrite Nat.sub_diag.
  - cbn [step3_loop].
    destruct (IH (done ++ [step3_note ap (done ++ a :: rest) a]) i n Hn)
      as [current Hc].
    exists current. rewrite length_app in Hc. simpl in Hc.
    replace (List.length done + S i) with (List.length done + 1 + i) by lia.
    exact Hc.
Qed.

Lemma in_values_set {V} (d : Dict.t V) (k : string) (v x : V) :
  In x (Dict.values (Dict.set d k v)) -> x = v \/ In x (Dict.values d).
Proof.
  induction d as [|[k' v'] d IH]; simpl.
  - intros [<- | []]. now left.
  - destruct (k' =? k); simpl.
    + intros [<- | H]; [now left | right; now right].
    + intros [<- | H]; [right; now left|].
      destruct (IH H) as [-> | Hin]; [now left | right; now right].
Qed.

(** The values of the parent map are first parents of notes. *)
Lemma parent_values (notes : list Note) (v : option string) :
  In v (Dict.values (build_parent_tree notes)) ->
  exists m, In m notes /\ AssignFullPaths.first_parent m = v.
Proof.
  unfold build_parent_tree, AssignFullPaths.build_parent_tree.
  assert (G : forall d,
    In v (Dict.values
            (fold_left (fun parent_map note =>
                          Dict.set parent_map (title note)
                                   (AssignFullPaths.first_parent note))
                       notes d)) ->
    In v (Dict.values d)
    \/ exists m, In m notes /\ AssignFullPaths.first_parent m = v).
  { induction notes as [|a l IH]; intros d H; simpl in H; [now left|].
    destruct (IH _ H) as [H' | [m [Hm Hv]]].
    - apply in_values_set in H'. destruct H' as [-> | H']; [|now left].
      right. exists a. split; [now left | reflexivity].
    - right. exists m. split; [now right | exact Hv]. }
  intros H. destruct (G Dict.empty H) as [[] | H']. exact H'.
Qed.

(** A title that is nobody's first parent is not in [all_parents]. *)
Lemma leaf_not_parent (notes : list Note) (t : string) :
  (forall m, In m notes -> AssignFullPaths.first_parent m <> Some t) ->
  PyStr.mem t (find_all_parents notes (build_parent_tree notes)) = false.
Proof.
  intros Hleaf. apply mem_false_not_In. intros Hin.
  unfold find_all_parents in Hin. apply in_map_iff in Hin.
  destruct Hin as [n [Ht Hn]]. apply filter_In in Hn.
  destruct Hn as [_ Hex]. apply existsb_exists in Hex.
  destruct Hex as [v [Hv Heq]]. destruct v as [u|]; [|discriminate].
  apply String.eqb_eq in Heq. subst u.
  destruct (parent_values notes _ Hv) as [m [Hm Hfp]].
  apply (Hleaf m Hm). now rewrite Hfp, Ht.
Qed.

Lemma step2_note_keeps (n : Note) :
  title (step2_note n) = title n
  /\ get_parents (step2_note n) = get_parents n
  /\ ((exists p, output_path n = Some p) ->
      exists p, output_path (step2_note n) = Some p).
Proof.
  unfold step2_note.
  destruct (negb (PyStr.mem "Project" (tags n))); [tauto|].
  destruct (negb _); [tauto|].
  destruct (PyStr.mem "Parked" (tags n));
    [repeat split; intros; eexists; reflexivity|].
  destruct (PyStr.mem "Done" (tags n));
    [repeat split; intros; eexists; reflexivity | tauto].
Qed.

Lemma para_or_root_some (n : Note) :
  exists p, output_path (para_or_root n) = Some p.
Proof.
  unfold para_or_root.
  destruct (para_folder n) as [pf|]; [destruct (PyStr.truthy pf)|];
    eexists; reflexivity.
Qed.

Lemma step3_note_some (ap : list string) (current : list Note) (n : Note) :
  (PyStr.mem (title n) ap = true -> exists p, output_path n = Some p) ->
  exists p, output_path (step3_note ap current n) = Some p.
Proof.
  intros H. unfold step3_note.
  destruct (PyStr.mem (title n) ap); [now apply H|].
  destruct (get_parents n) as [|p ps]; [apply para_or_root_some|].
  destruct (PyStr.mem (p_title p) PARA_FOLDERS); [eexists; reflexivity|].
  destruct (find _ current) as [pn|]; [|apply para_or_root_some].
  destruct (output_path pn) as [pp|]; [|apply para_or_root_some].
  destruct (PyStr.truthy pp); [eexists; reflexivity | apply para_or_root_some].
Qed.

Lemma step4_note_some (n : Note) :
  (exists p, output_path n = Some p) ->
  exists p, output_path (step4_note n) = Some p.
Proof.
  intros H. unfold step4_note.
  destruct (negb _); [|exact H].
  destruct (negb _); [eexists; reflexivity | exact H].
Qed.

(** A run of [transform] that returns, as the four steps in a row: step 1
    is a map over the notes, with [walk] for the walk of a title. *)
Lemma transform_steps (frames : nat) (notes out : list Note) :
  let walk t :=
    AssignFullPaths.get_full_path frames t (build_parent_tree notes)
      (AssignFullPaths.build_para_map notes) [] in
  let ap := find_all_parents notes (build_parent_tree notes) in
  transform frames notes = Py.Ok out ->
  out
  = step4_apply_ordinals
      (step3_assign_leaf_paths
         (step2_apply_project_reorganization
            (map (fun note =>
                    if PyStr.mem (title note) ap then
                      set_output_path note
                        (Some (Py.value "" (walk (title note))))
                    else note) notes))
         ap).
Proof.
  intros walk ap H. unfold transform in H.
  destruct (step1_assign_parent_paths frames notes) as [[notes1 ap']|]
    eqn:H1; [|discriminate].
  cbn [Py.bind] in H. injection H as <-.
  apply PathFacts.step1_map in H1. destruct H1 as [Hap [-> _]].
  fold ap in Hap. now subst ap'.
Qed.

(** With three levels more than notes, step 1 returns, and so does the
    transform. *)
Lemma transform_returns (frames : nat) (notes : list Note) :
  List.length notes + 3 <= frames ->
  exists out, transform frames notes = Py.Ok out.
Proof.
  intros Hle. unfold transform.
  rewrite PathFacts.step1_loop by lia. cbv zeta.
  change AssignFullPaths.build_parent_tree with build_parent_tree.
  set (pm := build_parent_tree notes).
  set (pa := AssignFullPaths.build_para_map notes).
  set (ap := find_all_parents notes pm).
  rewrite (PathFacts.for_each_ok _ notes
             (fun note =>
                if PyStr.mem (title note) ap then
                  set_output_path note
                    (Some (Py.value ""
                             (get_full_path_for_parent frames (title note)
                                pm pa [])))
                else note)).
  - cbn [Py.bind]. eexists. reflexivity.
  - intros note _. destruct (PyStr.mem (title note) ap); [|reflexivity].
    destruct (PathFacts.get_full_path_enough pm pa frames (title note) [])
      as [p [Hp _]].
    + pose proof (PathFacts.unvisited_le pm []) as H1.
      pose proof (PathFacts.build_parent_tree_length notes) as H2.
      fold (build_parent_tree notes) in H2. fold pm in H2. lia.
    + unfold get_full_path_for_parent. now rewrite Hp.
Qed.

End StepFacts.

(** X21: script U leaves no note without an output path: the notes that
    are someone's first parent get theirs in step 1, all others in
    step 3, and steps 2 and 4 only replace a path by another.  The
    transform returns when there are three levels of the stack more
    than notes, and whenever it returns, every note it returns has a
    path. *)
Theorem every_note_gets_a_path (notes : list Note) (frames : nat) :
  (List.length notes + 3 <= frames ->
   exists out, OrdinalPaths.transform frames notes = Py.Ok out)
  /\ forall out,
       OrdinalPaths.transform frames notes = Py.Ok out ->
       forall n, In n out -> exists p, output_path n = Some p.
Proof.
  split; [apply StepFacts.transform_returns|].
  intros out Hout n' Hin.
  apply StepFacts.transform_steps in Hout. subst out.
  set (pm := OrdinalPaths.build_parent_tree notes) in *.
  set (ap := OrdinalPaths.find_all_parents notes pm) in *.
  set (notes1 := map _ notes) in Hin.
  unfold OrdinalPaths.step4_apply_ordinals in Hin.
  apply in_map_iff in Hin. destruct Hin as [n3 [<- Hin3]].
  apply StepFacts.step4_note_some.
  unfold OrdinalPaths.step3_assign_leaf_paths in Hin3.
  apply In_nth_error in Hin3. destruct Hin3 as [i Hi].
  set (notes2 := OrdinalPaths.step2_apply_project_reorganization notes1)
    in *.
  destruct (StepFacts.step3_loop_shape ap notes2 []) as [tail [Heq Hlen]].
  assert (Hlt : i < List.length notes2).
  { rewrite <- Hlen. rewrite Heq in Hi. cbn [app] in Hi.
    apply nth_error_Some. congruence. }
  destruct (nth_error notes2 i) as [n2|] eqn:Hn2;
    [|apply nth_error_None in Hn2; lia].
  destruct (StepFacts.step3_loop_at ap notes2 [] i n2 Hn2) as [cur Hc].
  cbn [List.length Nat.add] in Hc. rewrite Hc in Hi. injection Hi as <-.
  apply StepFacts.step3_note_some. intros Hmem.
  unfold notes2, OrdinalPaths.step2_apply_project_reorganization in Hn2.
  apply nth_error_In in Hn2. apply in_map_iff in Hn2.
  destruct Hn2 as [n1 [<- Hn1]].
  destruct (StepFacts.step2_note_keeps n1) as [Ht [_ Hsome]].
  rewrite Ht in Hmem. apply Hsome.
  unfold notes1 in Hn1. apply in_map_iff in Hn1.
  destruct Hn1 as [n0 [<- Hn0]].
  destruct (PyStr.mem (title n0) ap) eqn:Hm0.
  - cbn [output_path set_output_path]. eexists. reflexivity.
  - rewrite Hm0 in Hmem. discriminate.
Qed.

(** X21 on the note X, which has no PARA folder and three parents that
    are no notes of the batch. *)
Lemma every_note_gets_a_path_witness :
  exists out,
    OrdinalPaths.transform 4 [Scenario.x_note] = Py.Ok out
    /\ exists p, output_path (hd Scenario.x_note out) = Some p.
Proof.
  destruct (every_note_gets_a_path [Scenario.x_note] 4) as [Hret Hall].
  destruct Hret as [out Hout]; [simpl; lia|].
  exists out. split; [exact Hout|].
  apply (Hall out Hout).
  apply StepFacts.transform_steps in Hout. subst out. now left.
Defined.

Module LeafFacts.

(** A leaf whose first parent is a PARA folder, through the four steps. *)
Lemma leaf_result (notes : list Note) (i : nat)
    (note : Note) (folder ordinal : string) :
  nth_error notes i = Some note ->
  (forall m, In m notes ->
     AssignFullPaths.first_parent m <> Some (title note)) ->
  AssignFullPaths.first_parent note = Some folder ->
  Dict.get OrdinalPaths.PARA_ORDINALS folder = Some ordinal ->
  forall frames out,
    OrdinalPaths.transform frames notes = Py.Ok out ->
    exists note',
      nth_error out i = Some note'
      /\ output_path note' = Some ordinal
      /\ Spec.fixed_fields note' = Spec.fixed_fields note.
Proof.
  intros Hn Hleaf Hfp Hord frames out Hout.
  pose proof (StepFacts.leaf_not_parent notes (title note) Hleaf) as Hmem.
  apply StepFacts.transform_steps in Hout. subst out.
  set (pm := OrdinalPaths.build_parent_tree notes) in *.
  set (ap := OrdinalPaths.find_all_parents notes pm) in *.
  set (f1 := fun n : Note =>
               if PyStr.mem (title n) ap
               then set_output_path n
                      (Some (Py.value ""
                               (AssignFullPaths.get_full_path frames
                                  (title n) pm
                                  (AssignFullPaths.build_para_map notes)
                                  [])))
               else n).
  assert (H1 : nth_error (map f1 notes) i = Some note).
  { rewrite (map_nth_error f1 _ _ Hn). unfold f1. now rewrite Hmem. }
  assert (H2 : nth_error (OrdinalPaths.step2_apply_project_reorganization
                            (map f1 notes)) i
               = Some (OrdinalPaths.step2_note note)).
  { unfold OrdinalPaths.step2_apply_project_reorganization.
    now apply map_nth_error. }
  destruct (StepFacts.step3_loop_at ap _ [] i _ H2) as [cur H3].
  cbn [List.length Nat.add] in H3.
  unfold OrdinalPaths.step4_apply_ordinals,
    OrdinalPaths.step3_assign_leaf_paths.
  eexists. split; [apply map_nth_error; exact H3|].
  assert (Hfix : Spec.fixed_fields (OrdinalPaths.step2_note note)
                 = Spec.fixed_fields note).
  { unfold OrdinalPaths.step2_note.
    destruct (negb (PyStr.mem "Project" (tags note))); [reflexivity|].
    destruct (negb _); [reflexivity|].
    destruct (PyStr.mem "Parked" (tags note)); [reflexivity|].
    destruct (PyStr.mem "Done" (tags note)); reflexivity. }
  destruct (StepFacts.step2_note_keeps note) as [Ht [Hp _]].
  assert (Hfolder : In folder AssignFullPaths.PARA_FOLDERS).
  { destruct (OrdinalFacts.ordinals_cases _ _ Hord) as [H | [H | [H | H]]];
      injection H as -> _; simpl; tauto. }
  assert (H3n : OrdinalPaths.step3_note ap cur (OrdinalPaths.step2_note note)
                = set_output_path (OrdinalPaths.step2_note note)
                                  (Some folder)).
  { unfold OrdinalPaths.step3_note. rewrite Ht, Hmem, Hp.
    unfold AssignFullPaths.first_parent in Hfp.
    destruct (get_parents note) as [|p ps]; [discriminate|].
    injection Hfp as Hpt. rewrite Hpt.
    change OrdinalPaths.PARA_FOLDERS with AssignFullPaths.PARA_FOLDERS.
    destruct (PlacementFacts.sanitize_para_folder folder Hfolder)
      as [Hs _].
    apply mem_In in Hfolder. rewrite Hfolder.
    unfold OrdinalPaths.sanitize_folder_name. now rewrite Hs. }
  rewrite H3n. unfold OrdinalPaths.step4_note.
  cbn [output_path set_output_path].
  destruct (OrdinalFacts.ordinals_cases _ _ Hord) as [H | [H | [H | H]]];
    injection H as -> ->; (split; [reflexivity | exact Hfix]).
Qed.

End LeafFacts.



(** X22: step 3 overrides step 2 for leaf notes.  In the batch that
    script U returns, a note that is nobody's first parent and whose
    first parent is a PARA folder sits in that folder under its ordinal
    name, whatever its tags and whatever path it came with: a parked or
    done project that is a leaf stays in 1 Projects. *)
Theorem leaf_lands_in_ordinal_folder (notes : list Note) (i : nat)
    (note : Note) (folder ordinal : string) :
  nth_error notes i = Some note ->
  (forall m, In m notes ->
     AssignFullPaths.first_parent m <> Some (title note)) ->
  AssignFullPaths.first_parent note = Some folder ->
  Dict.get OrdinalPaths.PARA_ORDINALS folder = Some ordinal ->
  forall frames out,
    OrdinalPaths.transform frames notes = Py.Ok out ->
    exists note',
      nth_error out i = Some note'
      /\ output_path note' = Some ordinal.
Proof.
  intros Hn Hleaf Hfp Hord frames out Hout.
  destruct (LeafFacts.leaf_result notes i note folder ordinal
              Hn Hleaf Hfp Hord frames out Hout) as [note' [H1 [H2 _]]].
  exists note'. split; assumption.
Qed.

(** X22 on a parked project that sits at the Projects root and has no
    children. *)
Lemma leaf_lands_in_ordinal_folder_witness :
  exists note',
    nth_error
      (Py.value [] (OrdinalPaths.transform 4 [Scenario.parked_and_done])) 0
    = Some note'
    /\ output_path note' = Some "1 Projects".
Proof.
  apply (leaf_lands_in_ordinal_folder [Scenario.parked_and_done] 0
           Scenario.parked_and_done "Projects" "1 Projects")
    with (frames := 4).
  - reflexivity.
  - intros m [<- | []]. discriminate.
  - reflexivity.
  - reflexivity.
  - reflexivity.
Defined.

(* ================================================================== *)
(** ** Script U followed by the two fixes *)

Module FixFacts.
Import Spec.

Lemma map_keeps_fixed (f : Note -> Note) (notes : list Note) :
  (forall n, fixed_fields (f n) = fixed_fields n) ->
  map fixed_fields (map f notes) = map fixed_fields notes.
Proof.
  intros H. rewrite map_map. apply map_ext. exact H.
Qed.

Lemma fix_parked_note_fixed (ref : list string) (n : Note) :
  fixed_fields (FixLeaves.fix_parked_note ref n) = fixed_fields n.
Proof.
  unfold FixLeaves.fix_parked_note.
  destruct (negb _ || negb _); [reflexivity|].
  destruct (PyStr.mem (title n) ref); [reflexivity|].
  destruct (PyStr.contains "z_Parked" _); [reflexivity|].
  destruct (PyStr.contains "Projects" _); reflexivity.
Qed.

Lemma referenced_fixed (notes1 notes2 : list Note) :
  map fixed_fields notes1 = map fixed_fields notes2 ->
  FixLeaves.referenced_parents notes1 = FixLeaves.referenced_parents notes2.
Proof.
  revert notes2. induction notes1 as [|a l1 IH]; intros [|b l2] H;
    try discriminate; [reflexivity|].
  cbn [map] in H.
  pose proof (f_equal (@hd _ (fixed_fields a)) H) as Hab.
  pose proof (f_equal (@tl _) H) as Hl. cbn [hd tl] in Hab, Hl.
  unfold FixLeaves.referenced_parents. cbn [flat_map].
  fold (FixLeaves.referenced_parents l1).
  fold (FixLeaves.referenced_parents l2).
  rewrite (IH l2 Hl). f_equal. unfold get_parents.
  unfold fixed_fields in Hab. injection Hab as _ _ Hp. now rewrite Hp.
Qed.

(** A title that no parent entry names is not in [referenced_parents]. *)
Lemma unreferenced (notes : list Note) (t : string) :
  (forall m p, In m notes -> In p (get_parents m) -> p_title p <> t) ->
  PyStr.mem t (FixLeaves.referenced_parents notes) = false.
Proof.
  intros H. apply mem_false_not_In. intros Hin.
  unfold FixLeaves.referenced_parents in Hin. apply in_flat_map in Hin.
  destruct Hin as [m [Hm Hp]]. apply in_map_iff in Hp.
  destruct Hp as [p [Ht Hp]]. exact (H m p Hm Hp Ht).
Qed.

Lemma step3_loop_fixed (ap : list string) (todo : list Note) :
  forall done,
    map fixed_fields (OrdinalPaths.step3_loop ap done todo)
    = map fixed_fields (done ++ todo).
Proof.
  assert (Hnote : forall cur n,
            fixed_fields (OrdinalPaths.step3_note ap cur n) = fixed_fields n).
  { intros cur n. unfold OrdinalPaths.step3_note.
    assert (Hp : fixed_fields (OrdinalPaths.para_or_root n) = fixed_fields n).
    { unfold OrdinalPaths.para_or_root.
      destruct (para_folder n) as [pf|]; [destruct (PyStr.truthy pf)|];
        reflexivity. }
    destruct (PyStr.mem (title n) ap); [reflexivity|].
    destruct (get_parents n) as [|p ps]; [exact Hp|].
    destruct (PyStr.mem (p_title p) OrdinalPaths.PARA_FOLDERS);
      [reflexivity|].
    destruct (find _ cur) as [pn|]; [|exact Hp].
    destruct (output_path pn) as [pp|]; [|exact Hp].
    destruct (PyStr.truthy pp); [reflexivity | exact Hp]. }
  induction todo as [|n rest IH]; intros done; simpl.
  - now rewrite app_nil_r.
  - rewrite IH, <- app_assoc, !map_app. simpl. now rewrite Hnote.
Qed.

Lemma U_transform_fixed (frames : nat) (notes out : list Note) :
  OrdinalPaths.transform frames notes = Py.Ok out ->
  map fixed_fields out = map fixed_fields notes.
Proof.
  intros Hout. apply StepFacts.transform_steps in Hout. subst out.
  unfold OrdinalPaths.step4_apply_ordinals,
    OrdinalPaths.step3_assign_leaf_paths,
    OrdinalPaths.step2_apply_project_reorganization.
  rewrite map_keeps_fixed.
  2:{ intros n. unfold OrdinalPaths.step4_note.
      destruct (negb _); [|reflexivity]. destruct (negb _); reflexivity. }
  rewrite step3_loop_fixed. cbn [app].
  rewrite map_keeps_fixed.
  2:{ intros n. unfold OrdinalPaths.step2_note.
      destruct (negb (PyStr.mem "Project" (tags n))); [reflexivity|].
      destruct (negb _); [reflexivity|].
      destruct (PyStr.mem "Parked" (tags n)); [reflexivity|].
      destruct (PyStr.mem "Done" (tags n)); reflexivity. }
  apply map_keeps_fixed. intros n.
  destruct (PyStr.mem _ _); reflexivity.
Qed.

End FixFacts.

(** X23: where a leaf project ends once script U has returned and the
    two fixes have run.  A note tagged Project that no parent entry names
    and whose first parent is the folder Projects ends in 4 Archive when
    it is tagged Done, also when it is tagged Parked as well; in
    1 Projects/z_Parked when it is tagged Parked and not Done; and in
    1 Projects otherwise. *)
Theorem leaf_project_after_fixes (notes : list Note) (i : nat) (note : Note) :
  nth_error notes i = Some note ->
  (forall m p, In m notes -> In p (get_parents m) ->
     p_title p <> title note) ->
  AssignFullPaths.first_parent note = Some "Projects" ->
  In "Project" (tags note) ->
  forall frames out,
    OrdinalPaths.transform frames notes = Py.Ok out ->
    exists note',
      nth_error (FixLeaves.fix_done_leaves (FixLeaves.fix_parked_leaves out))
                i = Some note'
      /\ (In "Done" (tags note) ->
          output_path note' = Some "4 Archive"
          /\ para_folder note' = Some "Archive")
      /\ (~ In "Done" (tags note) -> In "Parked" (tags note) ->
          output_path note' = Some "1 Projects/z_Parked")
      /\ (~ In "Done" (tags note) -> ~ In "Parked" (tags note) ->
          output_path note' = Some "1 Projects").
Proof.
  intros Hn Hleaf Hfp Hproj frames U HoutU.
  assert (Hleaf1 : forall m, In m notes ->
            AssignFullPaths.first_parent m <> Some (title note)).
  { intros m Hm Heq. unfold AssignFullPaths.first_parent in Heq.
    destruct (get_parents m) as [|p ps] eqn:Hp; [discriminate|].
    injection Heq as Heq. apply (Hleaf m p Hm); [|exact Heq].
    rewrite Hp. now left. }
  destruct (LeafFacts.leaf_result notes i note "Projects" "1 Projects"
              Hn Hleaf1 Hfp eq_refl frames U HoutU)
    as [nu [Hu [Hpath Hfix]]].
  pose proof (FixFacts.U_transform_fixed frames notes U HoutU) as HU.
  pose proof (FixFacts.unreferenced notes (title note) Hleaf) as Href.
  rewrite <- (FixFacts.referenced_fixed U notes HU) in Href.
  unfold Spec.fixed_fields in Hfix. injection Hfix as Htitle Htags Hpar.
  set (np := FixLeaves.fix_parked_note (FixLeaves.referenced_parents U) nu).
  assert (Hp : nth_error (FixLeaves.fix_parked_leaves U) i = Some np)
    by (unfold FixLeaves.fix_parked_leaves; now apply map_nth_error).
  assert (HP : map Spec.fixed_fields (FixLeaves.fix_parked_leaves U)
               = map Spec.fixed_fields U).
  { unfold FixLeaves.fix_parked_leaves. apply FixFacts.map_keeps_fixed.
    intros n. apply FixFacts.fix_parked_note_fixed. }
  pose proof Href as Href2.
  rewrite <- (FixFacts.referenced_fixed _ _ HP) in Href2.
  exists (FixLeaves.fix_done_note
            (FixLeaves.referenced_parents (FixLeaves.fix_parked_leaves U))
            np).
  split; [unfold FixLeaves.fix_done_leaves; now apply map_nth_error|].
  apply mem_In in Hproj.
  assert (Hnp : tags np = tags note /\ title np = title note
                /\ output_path np
                   = if PyStr.mem "Parked" (tags note)
                     then Some "1 Projects/z_Parked" else Some "1 Projects").
  { unfold np, FixLeaves.fix_parked_note.
    rewrite Htags, Htitle, Hproj, Href, Hpath.
    destruct (PyStr.mem "Parked" (tags note)); cbn [negb orb];
      repeat split; assumption. }
  destruct Hnp as [Htp [Htt Hop]].
  unfold FixLeaves.fix_done_note. rewrite Htp, Htt, Hproj, Href2, Hop.
  destruct (PyStr.mem "Done" (tags note)) eqn:Hd,
           (PyStr.mem "Parked" (tags note)) eqn:Hk;
    cbn [negb orb];
    repeat match goal with
           | H : PyStr.mem _ _ = true |- _ => apply mem_In in H
           | H : PyStr.mem _ _ = false |- _ => apply mem_false_not_In in H
           end;
    (split; [| split]); intros; try contradiction;
    try (split; reflexivity); try reflexivity; try exact Hop.
Qed.

(** X23 on a project tagged Done and Parked that has no children. *)
Lemma leaf_project_after_fixes_witness :
  exists note',
    nth_error
      (FixLeaves.fix_done_leaves
         (FixLeaves.fix_parked_leaves
            (Py.value []
               (OrdinalPaths.transform 4 [Scenario.parked_and_done]))))
      0 = Some note'
    /\ output_path note' = Some "4 Archive".
Proof.
  destruct (leaf_project_after_fixes [Scenario.parked_and_done] 0
              Scenario.parked_and_done) with (frames := 4)
      (out := Py.value []
                (OrdinalPaths.transform 4 [Scenario.parked_and_done]))
    as [note' [Hn [Hd _]]].
  - reflexivity.
  - intros m p [<- | []] [<- | []]. discriminate.
  - reflexivity.
  - simpl. tauto.
  - reflexivity.
  - exists note'. split; [exact Hn|]. apply Hd. simpl. tauto.
Defined.

(* ================================================================== *)
(** ** The segments of a path *)

Module SegmentFacts.
Import AssignFullPaths Spec.

Lemma split_snoc (sep : ascii) (a b : string) :
  ~ In sep (chars b) ->
  PyStr.split sep (a +++ String sep b) = PyStr.split sep a ++ [b].
Proof.
  intros Hb. induction a as [|c a IH].
  - cbn [String.append PyStr.split]. rewrite (SplitFacts.split_clean sep b Hb).
    now rewrite Ascii.eqb_refl.
  - cbn [String.append PyStr.split]. rewrite IH.
    destruct (PyStr.split sep a) as [|cur more] eqn:E.
    + now destruct (SplitFacts.split_nonempty sep a).
    + cbn [app]. destruct (Ascii.eqb c sep); reflexivity.
Qed.

Lemma sanitize_one_segment (name : string) :
  ~ In "/"%char (chars (sanitize_folder_name name)).
Proof.
  destruct (SanitizeFacts.sanitize_shape name) as [Hinv _].
  apply Hinv. simpl. tauto.
Qed.

(** Every segment of a resolved path is a sanitized name. *)
Lemma segments_sanitized (pm pa : Dict.t (option string)) :
  forall frames t visited path,
    get_full_path frames t pm pa visited = Py.Ok path ->
    path = "."
    \/ forall seg, In seg (PyStr.split "/"%char path) ->
         sanitize_folder_name seg = seg.
Proof.
  assert (Hone : forall x seg,
            In seg (PyStr.split "/"%char (sanitize_folder_name x)) ->
            sanitize_folder_name seg = seg).
  { intros x seg Hin.
    rewrite (SplitFacts.split_clean _ _ (sanitize_one_segment x)) in Hin.
    destruct Hin as [<- | []].
    now destruct (SanitizeFacts.sanitize_shape x) as [_ [_ [_ H]]]. }
  assert (Hcall : forall frames x path,
            Py.call frames (sanitize_folder_name x) = Py.Ok path ->
            path = "."
            \/ forall seg, In seg (PyStr.split "/"%char path) ->
                 sanitize_folder_name seg = seg).
  { intros frames x path Hc. apply PathFacts.call_inv in Hc.
    destruct Hc as [-> _]. right. apply Hone. }
  induction frames as [|frames IH]; intros t visited path H; [discriminate|].
  cbn [get_full_path] in H.
  destruct (PyStr.mem t visited); [now apply Hcall in H|].
  destruct (Py.builtin frames (t :: visited)) as [v1|] eqn:Hb;
    [|discriminate].
  apply PathFacts.builtin_inv in Hb. destruct Hb as [-> _].
  cbn [Py.bind] in H.
  destruct (get_flat pm t) as [p|].
  2:{ destruct (get_flat pa t) as [pf|];
        [destruct (PyStr.truthy pf); [now apply Hcall in H|]|];
        injection H as <-; now left. }
  destruct (PyStr.mem p PARA_FOLDERS); [now apply Hcall in H|].
  destruct (get_full_path frames p pm pa (t :: visited)) as [pp|] eqn:Hpp;
    [|discriminate].
  cbn [Py.bind] in H.
  destruct (pp =? ".") eqn:Hdot; [now apply Hcall in H|].
  destruct (Py.call frames (sanitize_folder_name p)) as [seg0|] eqn:Hseg;
    [|discriminate].
  apply PathFacts.call_inv in Hseg. destruct Hseg as [-> _].
  cbn [Py.bind] in H. injection H as <-. right.
  intros seg Hin.
  change ("/" +++ sanitize_folder_name p)
    with (String "/"%char (sanitize_folder_name p)) in Hin.
  rewrite (split_snoc _ pp _ (sanitize_one_segment p)) in Hin.
  apply in_app_or in Hin. destruct Hin as [Hin | [<- | []]].
  - destruct (IH _ _ _ Hpp) as [-> | Hall]; [discriminate Hdot|].
    now apply Hall.
  - now destruct (SanitizeFacts.sanitize_shape p) as [_ [_ [_ H]]].
Qed.

End SegmentFacts.

(** X24: the output path that path assignment gives a note, in the batch
    it returns, is the root marker, a single dot, or a sequence of
    folder names separated by slashes, each of which sanitization would
    leave as it is. *)
Theorem output_path_segments_legal (notes : list Note) (frames : nat)
    (out : list Note) :
  AssignFullPaths.assign_full_paths frames notes = Py.Ok out ->
  forall n path,
    In n out ->
    output_path n = Some path ->
    path = "."
    \/ forall seg, In seg (PyStr.split "/"%char path) ->
         AssignFullPaths.sanitize_folder_name seg = seg.
Proof.
  intros Hout n path Hin Hpath.
  apply PathFacts.assign_full_paths_inv in Hout.
  destruct (PathFacts.Forall2_In_r _ _ _ Hout n Hin)
    as [n0 [_ [p [Hp ->]]]].
  cbn [output_path set_output_path] in Hpath. injection Hpath as <-.
  exact (SegmentFacts.segments_sanitized _ _ _ _ _ _ Hp).
Qed.

(** X24 on the path of a note under a parent with an illegal title. *)
Lemma output_path_segments_legal_witness :
  AssignFullPaths.sanitize_folder_name "What_ Why_" = "What_ Why_".
Proof.
  destruct (output_path_segments_legal
              [ Spec.note_of "c" "Child" [] None
                  (Some [Spec.note_parent "p" "What? Why?"]) None;
                Spec.note_of "p" "What? Why?" [] None
                  (Some [Spec.folder_parent "Areas"]) None ]
              4
              [ Spec.note_of "c" "Child" [] None
                  (Some [Spec.note_parent "p" "What? Why?"])
                  (Some "Areas/What_ Why_");
                Spec.note_of "p" "What? Why?" [] None
                  (Some [Spec.folder_parent "Areas"]) (Some "Areas") ]
              eq_refl
              (Spec.note_of "c" "Child" [] None
                 (Some [Spec.note_parent "p" "What? Why?"])
                 (Some "Areas/What_ Why_"))
              "Areas/What_ Why_") as [H | H].
  - now left.
  - reflexivity.
  - discriminate H.
  - apply H. simpl. tauto.
Defined.

(* ================================================================== *)
(** ** Tags that name the note itself *)

(** X25: script 5 matches a tag that names the note itself like any
    other tag.  In a batch of unique titles, a note with a non-empty
    title and no parents yet comes out of it holding itself as a parent
    of type note exactly when its own title is among its tags and is not
    also its PARA folder. *)
Theorem self_parent_iff (notes : list Note) (i : nat) (note : Note) :
  NoDup (map title notes) ->
  nth_error notes i = Some note ->
  title note <> "" ->
  parents note = None ->
  exists note',
    nth_error (IdentifyParaParents.identify_parents_with_para notes) i
    = Some note'
    /\ (In (Spec.note_parent (id note) (title note)) (get_parents note')
        <-> In (title note) (tags note)
            /\ para_folder note <> Some (title note)).
Proof.
  intros Hnd Hn Hne Hnone.
  set (idx := IdentifyParaParents.build_title_index notes).
  assert (Hkey : forall k n, Dict.get idx k = Some n -> title n = k)
    by (intros k n; apply IdentifyFacts.index_key).
  assert (Hself : Dict.get idx (title note) = Some note).
  { apply IdentifyFacts.index_lookup; [assumption|].
    eapply nth_error_In; eassumption. }
  exists (IdentifyParents.store_parents note
            (IdentifyParaParents.note_parents idx note)).
  split.
  { unfold IdentifyParaParents.identify_parents_with_para.
    fold idx.
    exact (map_nth_error
             (fun n0 => IdentifyParents.store_parents n0
                          (IdentifyParaParents.note_parents idx n0))
             i notes Hn). }
  assert (Hstored :
            get_parents (IdentifyParents.store_parents note
                           (IdentifyParaParents.note_parents idx note))
            = IdentifyParaParents.note_parents idx note).
  { unfold IdentifyParents.store_parents, get_parents.
    destruct (IdentifyParaParents.note_parents idx note);
      [now rewrite Hnone | reflexivity]. }
  rewrite Hstored. unfold IdentifyParaParents.note_parents.
  pose proof (IdentifyFacts.para_entry_ids note (title note) Hne) as Hids.
  pose proof (IdentifyFacts.para_entry_not_note note (id note) (title note))
    as Hnot.
  destruct (IdentifyParaParents.para_entry note) as [ps0 ids0] eqn:Hpe.
  simpl in Hids, Hnot. split.
  - intros Hin.
    destruct (IdentifyFacts.tag_loop_self_origin idx Hkey note _ _ _ Hin)
      as [H | [H1 H2]]; [contradiction|].
    split; [assumption|]. intros Hpf. apply H2. now apply Hids.
  - intros [Htag Hpf].
    destruct (IdentifyFacts.tag_loop_adds_self idx Hkey note Hself
                (tags note) ps0 ids0 Htag) as [H | H]; [assumption|].
    exfalso. apply Hpf. now apply Hids.
Qed.

(** X25 on the note Journal, tagged with its own title. *)
Lemma self_parent_iff_witness :
  exists note',
    nth_error (IdentifyParaParents.identify_parents_with_para
                 [Scenario.journal]) 0 = Some note'
    /\ In (Spec.note_parent "n3" "Journal") (get_parents note').
Proof.
  destruct (self_parent_iff [Scenario.journal] 0 Scenario.journal)
    as [note' [Hn Hiff]].
  - simpl. repeat constructor. simpl. tauto.
  - reflexivity.
  - discriminate.
  - reflexivity.
  - exists note'. split; [exact Hn|].
    apply Hiff. split; [simpl; tauto | discriminate].
Defined.
